(** * Release tooling of nWave: tag discovery and changelog generation

    A shallow embedding of [scripts/release/discover_tag.py] and
    [scripts/release/generate_changelog.py], together with the part of
    [packaging.version] that [discover_tag.py] relies on, followed by the
    properties of the release-train design that hold of that code.

    Conventions.
    - A Python [str] is a [string]; every [ascii] stands for the code point
      of the same number, so the model covers the code points below 256.
    - A Python [int] is a [Z].  [int()] converts at most 4300 digits, the
      limit the interpreter starts with, and raises [ValueError] beyond.
    - [None] is [None].  A call that may raise an exception its caller
      does not catch on the spot has an [outcome]: the value returned or
      the exception raised; where the caller catches the exception at
      once, the call returns an [option].
    - [subprocess.run] is an oracle, threaded through a small monad that
      also records every command that was run.  In [discover_tag.py] the
      oracle answers every command: the statements about that script are
      about runs in which git can be started. *)

From Stdlib Require Import ZArith NArith List String Ascii Bool Lia DecimalString DecimalPos.
From stdpp Require Import base option list strings gmap.

Local Open Scope string_scope.
Local Open Scope list_scope.
Local Open Scope stdpp_scope.

(* ===================================================================== *)
(** * Exceptions *)
(* ===================================================================== *)

(** The exceptions that are raised here: [ValueError] by [int()], and
    [InvalidVersion] by [packaging.version]. *)
Inductive exception : Type :=
| ValueError
| InvalidVersion.

(** What a call comes to: the value it returns, or the exception it raises. *)
Inductive outcome (A : Type) : Type :=
| Returns (value : A)
| Raises (e : exception).
Arguments Returns {A} value.
Arguments Raises {A} e.

(** Statements run one after the other: the first exception ends them. *)
Global Instance outcome_ret : MRet outcome := fun A (x : A) => Returns x.
Global Instance outcome_bind : MBind outcome :=
  fun A B (f : A -> outcome B) (m : outcome A) =>
    match m with
    | Returns a => f a
    | Raises e => Raises e
    end.

Global Instance outcome_fmap : FMap outcome :=
  fun A B (f : A -> B) (m : outcome A) =>
    match m with
    | Returns a => Returns (f a)
    | Raises e => Raises e
    end.

(* ===================================================================== *)
(** * Python string primitives *)
(* ===================================================================== *)

Module Py.

Definition code (c : ascii) : N := N_of_ascii c.

Definition in_range (lo hi : N) (c : ascii) : bool :=
  ((lo <=? code c) && (code c <=? hi))%N.

Definition chr (n : N) : ascii := ascii_of_N n.

(** Characters that cannot be written inside a literal. *)
Definition NUL : string := String (chr 0) "".
Definition LF : string := String (chr 10) "".
Definition DQUOTE : string := String (chr 34) "".

Definition is_digit : ascii -> bool := in_range 48 57.
Definition is_lower : ascii -> bool := in_range 97 122.
Definition is_upper : ascii -> bool := in_range 65 90.

(** [str.isspace] on one character: U+0009..U+000D, U+001C..U+0020,
    U+0085 and U+00A0 are the white space below 256. *)
Definition isspace (c : ascii) : bool :=
  in_range 9 13 c || in_range 28 32 c || (code c =? 133)%N || (code c =? 160)%N.

(** [str.lower] on the letters of the basic Latin block, the only ones
    it is applied to here. *)
Definition lower_char (c : ascii) : ascii :=
  if is_upper c then chr (code c + 32) else c.

Fixpoint lower (s : string) : string :=
  match s with
  | EmptyString => EmptyString
  | String c s' => String (lower_char c) (lower s')
  end.

Fixpoint rev_onto (s acc : string) : string :=
  match s with
  | EmptyString => acc
  | String c s' => rev_onto s' (String c acc)
  end.

Definition rev (s : string) : string := rev_onto s "".

Fixpoint drop_while (p : ascii -> bool) (s : string) : string :=
  match s with
  | EmptyString => EmptyString
  | String c s' => if p c then drop_while p s' else s
  end.

Fixpoint mem_char (c : ascii) (chars : string) : bool :=
  match chars with
  | EmptyString => false
  | String d chars' => Ascii.eqb c d || mem_char c chars'
  end.

(** [s.lstrip(chars)]: every leading character that is in [chars] goes. *)
Definition lstrip_chars (chars s : string) : string :=
  drop_while (fun c => mem_char c chars) s.

(** [s.strip()] *)
Definition strip (s : string) : string :=
  rev (drop_while isspace (rev (drop_while isspace s))).

(** Truth value of a string. *)
Definition truthy (s : string) : bool :=
  match s with EmptyString => false | _ => true end.

(** [needle in s] *)
Fixpoint contains (needle s : string) : bool :=
  String.prefix needle s ||
  match s with
  | EmptyString => false
  | String _ s' => contains needle s'
  end.

Definition cons_first (c : ascii) (pieces : list string) : list string :=
  match pieces with
  | [] => [String c ""]
  | p :: ps => String c p :: ps
  end.

(** [s.split(sep)] for a non-empty [sep]: [skip] counts the characters
    of a separator that are still to be passed over. *)
Fixpoint split_go (sep s : string) (skip : nat) : list string :=
  match skip, s with
  | S k, String _ s' => split_go sep s' k
  | S _, EmptyString => [""]
  | O, EmptyString => [""]
  | O, String c s' =>
      if String.prefix sep s
      then "" :: split_go sep s' (String.length sep - 1)
      else cons_first c (split_go sep s' 0)
  end.

Definition split (sep s : string) : list string := split_go sep s 0.

(** [sep.join(items)] *)
Fixpoint join (sep : string) (items : list string) : string :=
  match items with
  | [] => ""
  | [x] => x
  | x :: rest => x +:+ sep +:+ join sep rest
  end.

(** Line boundaries of [str.splitlines] below 256. *)
Definition is_linebreak (c : ascii) : bool :=
  in_range 10 13 c || in_range 28 30 c || (code c =? 133)%N.

(** [s.splitlines()]: a carriage return directly followed by a line
    feed is one boundary; no empty last line. *)
Fixpoint splitlines (s : string) : list string :=
  match s with
  | EmptyString => []
  | String c s' =>
      if is_linebreak c then
        "" :: match s' with
              | String d s'' =>
                  if (code c =? 13)%N && (code d =? 10)%N
                  then splitlines s'' else splitlines s'
              | EmptyString => []
              end
      else cons_first c (splitlines s')
  end.

Definition digit_val (c : ascii) : Z := Z.of_N (code c) - 48.

Fixpoint digits_onto (s : string) (acc : Z) : Z :=
  match s with
  | EmptyString => acc
  | String c s' => digits_onto s' (10 * acc + digit_val c)
  end.

(** The number a run of the digits 0..9 stands for. *)
Definition digits_value (s : string) : Z := digits_onto s 0.

(** [sys.int_info.default_max_str_digits]: the most digits that [int()]
    converts; on more it raises [ValueError]. *)
Definition int_max_str_digits : nat := 4300.

(** [int(s)] on a non-empty run of the digits 0..9. *)
Definition int_digits (s : string) : outcome Z :=
  if (int_max_str_digits <? String.length s)%nat then Raises ValueError
  else Returns (digits_value s).

Fixpoint int_body (s : string) (acc : Z) (after_digit : bool) : option Z :=
  match s with
  | EmptyString => if after_digit then Some acc else None
  | String c s' =>
      if is_digit c then int_body s' (10 * acc + digit_val c) true
      else if Ascii.eqb c "_" && after_digit then int_body s' acc false
      else None
  end.

Fixpoint count_digits (s : string) : nat :=
  match s with
  | EmptyString => 0
  | String c s' => (if is_digit c then 1 else 0) + count_digits s'
  end.

(** The digits of a literal, underscores apart, within the limit. *)
Definition int_literal (t : string) : option Z :=
  if (int_max_str_digits <? count_digits t)%nat then None
  else int_body t 0 false.

(** [int(s)], [None] for [ValueError]: white space around, an optional
    sign, digits with single underscores between them, 4300 digits at
    most. *)
Definition int (s : string) : option Z :=
  match strip s with
  | String "+" t => int_literal t
  | String "-" t => Z.opp <$> int_literal t
  | t => int_literal t
  end.

(** [str(n)], for the numbers it is applied to: those of at most 4300
    digits, which [int()] has let through. *)
Definition str_int (n : Z) : string := NilZero.string_of_int (Z.to_int n).

(** [max(items, key=key)] with [gt] the [>] of the keys: the first of the
    greatest items; [None] stands for the [ValueError] on no items. *)
Fixpoint max_from {A K : Type} (gt : K -> K -> bool) (key : A -> K)
    (best : A) (items : list A) : A :=
  match items with
  | [] => best
  | x :: rest =>
      if gt (key x) (key best) then max_from gt key x rest
      else max_from gt key best rest
  end.

(** [itertools.dropwhile(p, items)] *)
Fixpoint dropwhile {A : Type} (p : A -> bool) (items : list A) : list A :=
  match items with
  | [] => []
  | x :: rest => if p x then dropwhile p rest else items
  end.

Definition max_by {A K : Type} (gt : K -> K -> bool) (key : A -> K)
    (items : list A) : option A :=
  match items with
  | [] => None
  | x :: rest => Some (max_from gt key x rest)
  end.

End Py.

(* ===================================================================== *)
(** * Regular expressions with named groups, matched by backtracking *)
(* ===================================================================== *)

Module Re.

Inductive re : Type :=
| Eps                                  (* the empty pattern *)
| Chr (p : ascii -> bool)              (* one character of a class *)
| Cat (r1 r2 : re)
| Alt (r1 r2 : re)                     (* r1|r2, r1 tried first *)
| Star (r : re)                        (* r*, greedy *)
| Group (name : string) (r : re)       (* (?P<name>r) *)
| Bol                                  (* ^ *)
| Eol.                                 (* $ *)

Definition opt (r : re) : re := Alt r Eps.          (* r? *)
Definition plus (r : re) : re := Cat r (Star r).    (* r+ *)

Fixpoint cat_all (rs : list re) : re :=
  match rs with
  | [] => Eps
  | [r] => r
  | r :: rs' => Cat r (cat_all rs')
  end.

Fixpoint alt_all (rs : list re) : re :=
  match rs with
  | [] => Eps
  | [r] => r
  | r :: rs' => Alt r (alt_all rs')
  end.

Definition char (c : ascii) : re := Chr (Ascii.eqb c).
Definition one_of (chars : string) : re := Chr (fun c => Py.mem_char c chars).
Definition none_of (chars : string) : re :=
  Chr (fun c => negb (Py.mem_char c chars)).

(** A letter under [re.IGNORECASE]. *)
Definition char_i (c : ascii) : re :=
  Chr (fun x => Ascii.eqb (Py.lower_char x) (Py.lower_char c)).

Fixpoint lit_with (one : ascii -> re) (w : string) : re :=
  match w with
  | EmptyString => Eps
  | String c EmptyString => one c
  | String c w' => Cat (one c) (lit_with one w')
  end.

Definition lit : string -> re := lit_with char.
Definition lit_i : string -> re := lit_with char_i.

(** Groups that took part in the match, the latest first. *)
Definition groups : Type := list (string * string).

Fixpoint take (n : nat) (s : string) : string :=
  match n, s with
  | S n', String c s' => String c (take n' s')
  | _, _ => EmptyString
  end.

(** [run r pos s g k]: match [r] at offset [pos], where [s] is what is
    left of the subject, and hand the rest to [k]; the first success in
    the order a backtracking matcher explores wins. *)
Fixpoint run (r : re) (pos : nat) (s : string) (g : groups)
    (k : nat -> string -> groups -> option groups) {struct r} : option groups :=
  match r with
  | Eps => k pos s g
  | Chr p =>
      match s with
      | String c s' => if p c then k (S pos) s' g else None
      | EmptyString => None
      end
  | Cat r1 r2 => run r1 pos s g (fun pos' s' g' => run r2 pos' s' g' k)
  | Alt r1 r2 =>
      match run r1 pos s g k with
      | Some m => Some m
      | None => run r2 pos s g k
      end
  | Star r1 =>
      (fix star (fuel : nat) (pos : nat) (s : string) (g : groups)
           {struct fuel} : option groups :=
         match fuel with
         | O => k pos s g
         | S fuel' =>
             match run r1 pos s g
                     (fun pos' s' g' =>
                        if (pos <? pos')%nat then star fuel' pos' s' g'
                        else None) with
             | Some m => Some m
             | None => k pos s g
             end
         end) (S (String.length s)) pos s g
  | Group name r1 =>
      run r1 pos s g
        (fun pos' s' g' => k pos' s' ((name, take (pos' - pos) s) :: g'))
  | Bol => if (pos =? 0)%nat then k pos s g else None
  | Eol =>
      match s with
      | EmptyString => k pos s g
      | String c EmptyString =>
          if (Py.code c =? 10)%N then k pos s g else None
      | _ => None
      end
  end.

(** [pattern.match(s)] *)
Definition match_ (r : re) (s : string) : option groups :=
  run r 0 s [] (fun _ _ g => Some g).

Fixpoint search_from (r : re) (pos : nat) (s : string) : option groups :=
  match run r pos s [] (fun _ _ g => Some g) with
  | Some m => Some m
  | None =>
      match s with
      | EmptyString => None
      | String _ s' => search_from r (S pos) s'
      end
  end.

(** [pattern.search(s)] *)
Definition search (r : re) (s : string) : option groups := search_from r 0 s.

(** [m.group(name)] *)
Fixpoint group (m : groups) (name : string) : option string :=
  match m with
  | [] => None
  | (n, v) :: m' => if String.eqb n name then Some v else group m' name
  end.

End Re.

(* ===================================================================== *)
(** * Rich comparison of keys *)
(* ===================================================================== *)

(** Python compares tuples item by item: the first pair of items that are
    not equal decides, and a tuple that runs out first is the smaller.
    [cmp] is that three-way comparison; [<], [>] and [==] are read off it. *)
Class Cmp (A : Type) : Type := cmp : A -> A -> comparison.
Global Hint Mode Cmp ! : typeclass_instances.

Definition py_gt {A} `{Cmp A} (a b : A) : bool :=
  match cmp a b with Gt => true | _ => false end.
Definition py_lt {A} `{Cmp A} (a b : A) : bool :=
  match cmp a b with Lt => true | _ => false end.
Definition py_eq {A} `{Cmp A} (a b : A) : bool :=
  match cmp a b with Eq => true | _ => false end.

Global Instance cmp_Z : Cmp Z := Z.compare.
Global Instance cmp_ascii : Cmp ascii := fun a b => N.compare (Py.code a) (Py.code b).

Definition lex (c1 c2 : comparison) : comparison :=
  match c1 with Eq => c2 | _ => c1 end.

(** Strings compare by code point. *)
Fixpoint cmp_str (s t : string) : comparison :=
  match s, t with
  | EmptyString, EmptyString => Eq
  | EmptyString, String _ _ => Lt
  | String _ _, EmptyString => Gt
  | String a s', String b t' => lex (cmp a b) (cmp_str s' t')
  end.
Global Instance cmp_string : Cmp string := cmp_str.

Fixpoint cmp_seq {A} `{Cmp A} (l m : list A) : comparison :=
  match l, m with
  | [], [] => Eq
  | [], _ :: _ => Lt
  | _ :: _, [] => Gt
  | a :: l', b :: m' => lex (cmp a b) (cmp_seq l' m')
  end.
Global Instance cmp_list {A} `{Cmp A} : Cmp (list A) := cmp_seq.

Global Instance cmp_pair {A B} `{Cmp A} `{Cmp B} : Cmp (A * B) :=
  fun p q => lex (cmp (fst p) (fst q)) (cmp (snd p) (snd q)).

(* ===================================================================== *)
(** * packaging.version *)
(* ===================================================================== *)

(** The library [discover_tag.py] imports [Version] and [InvalidVersion]
    from.  What follows is [Version] as the library defines it: the
    pattern, the parsed [_Version], the key built by [_cmpkey] from the
    two infinities of [packaging._structures], and [__str__].  Later
    releases of the library build the key from integers; the order is the
    same. *)

Module Packaging.

(** [packaging._structures]: [NegativeInfinity] is below and [Infinity]
    above every other object, and each is equal to itself only. *)
Inductive bounded (A : Type) : Type :=
| NegativeInfinity
| Finite (a : A)
| Infinity.
Arguments NegativeInfinity {A}.
Arguments Finite {A} a.
Arguments Infinity {A}.

Definition cmp_bounded_def {A} `{Cmp A} (x y : bounded A) : comparison :=
  match x, y with
  | NegativeInfinity, NegativeInfinity => Eq
  | NegativeInfinity, _ => Lt
  | _, NegativeInfinity => Gt
  | Infinity, Infinity => Eq
  | Infinity, _ => Gt
  | _, Infinity => Lt
  | Finite a, Finite b => cmp a b
  end.
Global Instance cmp_bounded {A} `{Cmp A} : Cmp (bounded A) := cmp_bounded_def.

(** A segment of a local version label: [int | str]. *)
Inductive local_part : Type :=
| LocalInt (n : Z)
| LocalStr (s : string).

(** [_Version] *)
Record _Version : Type := {
  epoch : Z;
  release : list Z;
  pre : option (string * Z);
  post : option (string * Z);
  dev : option (string * Z);
  local : option (list local_part)
}.

Definition sep : Re.re := Re.one_of "-_.".                    (* [-_\.] *)
Definition digits : Re.re := Re.plus (Re.Chr Py.is_digit).    (* [0-9]+ *)
Definition alnum_i : Re.re :=                                 (* [a-z0-9] *)
  Re.Chr (fun c => Py.is_lower c || Py.is_upper c || Py.is_digit c).
Definition ws : Re.re := Re.Star (Re.Chr Py.isspace).         (* \s* *)

(** [VERSION_PATTERN], under [re.VERBOSE | re.IGNORECASE]. *)
Definition VERSION_PATTERN : Re.re :=
  Re.cat_all [
    Re.opt (Re.char_i "v");
    Re.opt (Re.Cat (Re.Group "epoch" digits) (Re.char "!"));
    Re.Group "release"
      (Re.Cat digits (Re.Star (Re.Cat (Re.char ".") digits)));
    Re.opt (Re.Group "pre" (Re.cat_all [
      Re.opt sep;
      Re.Group "pre_l" (Re.alt_all (map Re.lit_i
        ["alpha"; "a"; "beta"; "b"; "preview"; "pre"; "c"; "rc"]));
      Re.opt sep;
      Re.opt (Re.Group "pre_n" digits)]));
    Re.opt (Re.Group "post" (Re.Alt
      (Re.Cat (Re.char "-") (Re.Group "post_n1" digits))
      (Re.cat_all [
         Re.opt sep;
         Re.Group "post_l" (Re.alt_all (map Re.lit_i ["post"; "rev"; "r"]));
         Re.opt sep;
         Re.opt (Re.Group "post_n2" digits)])));
    Re.opt (Re.Group "dev" (Re.cat_all [
      Re.opt sep;
      Re.Group "dev_l" (Re.lit_i "dev");
      Re.opt sep;
      Re.opt (Re.Group "dev_n" digits)]));
    Re.opt (Re.Cat (Re.char "+")
      (Re.Group "local"
         (Re.Cat (Re.plus alnum_i) (Re.Star (Re.Cat sep (Re.plus alnum_i))))))
  ].

(** [Version._regex]: the pattern between [^\s*] and [\s*$]. *)
Definition _regex : Re.re :=
  Re.cat_all [Re.Bol; ws; VERSION_PATTERN; ws; Re.Eol].

Definition is_truthy (o : option string) : bool :=
  match o with Some s => Py.truthy s | None => false end.

(** [a or b] on two groups *)
Definition or_group (a b : option string) : option string :=
  if is_truthy a then a else b.

Definition _parse_letter_version (letter number : option string)
    : outcome (option (string * Z)) :=
  if is_truthy letter then
    let letter := Py.lower (default "" letter) in
    let letter :=
      if String.eqb letter "alpha" then "a"
      else if String.eqb letter "beta" then "b"
      else if existsb (String.eqb letter) ["c"; "pre"; "preview"] then "rc"
      else if existsb (String.eqb letter) ["rev"; "r"] then "post"
      else letter in
    number ← match number with
             | None => mret 0%Z
             | Some n => Py.int_digits n
             end;
    mret (Some (letter, number))
  else if is_truthy number then
    number ← Py.int_digits (default "" number);
    mret (Some ("post", number))
  else mret None.

Fixpoint all_chars (p : ascii -> bool) (s : string) : bool :=
  match s with
  | EmptyString => true
  | String c s' => p c && all_chars p s'
  end.

(** [part.isdigit()] on a part made of the letters and digits the
    pattern lets through. *)
Definition isdigit (part : string) : bool :=
  Py.truthy part && all_chars Py.is_digit part.

Fixpoint split_on (p : ascii -> bool) (s : string) : list string :=
  match s with
  | EmptyString => [""]
  | String c s' =>
      if p c then "" :: split_on p s' else Py.cons_first c (split_on p s')
  end.

(** [_local_version_separators.split(local)], the pattern being [[\._-]]. *)
Definition split_local (s : string) : list string :=
  split_on (fun c => Py.mem_char c "._-") s.

Definition _parse_local_version (local : option string)
    : outcome (option (list local_part)) :=
  match local with
  | Some local =>
      parts ← mapM (fun part =>
                      if isdigit part
                      then n ← Py.int_digits part; mret (LocalInt n)
                      else mret (LocalStr (Py.lower part)))
                   (split_local local);
      mret (Some parts)
  | None => mret None
  end.

(** [Version(version)]: [InvalidVersion] when the pattern does not match,
    and the [ValueError] of an [int()] on one of the groups. *)
Definition Version (version : string) : outcome _Version :=
  match Re.search _regex version with
  | None => Raises InvalidVersion
  | Some m =>
      epoch ← (if is_truthy (Re.group m "epoch")
               then Py.int_digits (default "" (Re.group m "epoch"))
               else mret 0%Z);
      release ← mapM Py.int_digits
                  (Py.split "." (default "" (Re.group m "release")));
      pre ← _parse_letter_version (Re.group m "pre_l") (Re.group m "pre_n");
      post ← _parse_letter_version (Re.group m "post_l")
               (or_group (Re.group m "post_n1") (Re.group m "post_n2"));
      dev ← _parse_letter_version (Re.group m "dev_l") (Re.group m "dev_n");
      local ← _parse_local_version (Re.group m "local");
      mret {| epoch := epoch; release := release; pre := pre; post := post;
              dev := dev; local := local |}
  end.

(** The comparison key. *)
Definition CmpPrePostDev : Type := bounded (string * Z).
Definition CmpLocal : Type := bounded (list (bounded Z * string)).
Definition CmpKey : Type :=
  (Z * list Z * CmpPrePostDev * CmpPrePostDev * CmpPrePostDev * CmpLocal)%type.

Definition is_zero (x : Z) : bool := (x =? 0)%Z.

(** [reversed(dropwhile(lambda x: x == 0, reversed(release)))] *)
Definition strip_trailing_zeros (release : list Z) : list Z :=
  List.rev (Py.dropwhile is_zero (List.rev release)).

Definition _cmpkey (epoch : Z) (release : list Z)
    (pre post dev : option (string * Z)) (local : option (list local_part))
    : CmpKey :=
  let _release := strip_trailing_zeros release in
  let _pre :=
    match pre, post, dev with
    | None, None, Some _ => NegativeInfinity
    | None, _, _ => Infinity
    | Some p, _, _ => Finite p
    end in
  let _post := match post with None => NegativeInfinity | Some p => Finite p end in
  let _dev := match dev with None => Infinity | Some d => Finite d end in
  let _local :=
    match local with
    | None => NegativeInfinity
    | Some parts =>
        Finite (map (fun i => match i with
                              | LocalInt n => (Finite n, "")
                              | LocalStr s => (NegativeInfinity, s)
                              end) parts)
    end in
  (epoch, _release, _pre, _post, _dev, _local).

(** [Version._key] *)
Definition _key (v : _Version) : CmpKey :=
  _cmpkey (epoch v) (release v) (pre v) (post v) (dev v) (local v).

(** The public properties [Version.post], [Version.dev], [Version.local]. *)
Definition post_number (v : _Version) : option Z := snd <$> post v.
Definition dev_number (v : _Version) : option Z := snd <$> dev v.

Definition str_part (p : local_part) : string :=
  match p with LocalInt n => Py.str_int n | LocalStr s => s end.

Definition local_label (v : _Version) : option string :=
  match local v with
  | Some (p :: ps) => Some (Py.join "." (map str_part (p :: ps)))
  | _ => None
  end.

(** [Version.__str__] *)
Definition to_str (v : _Version) : string :=
  let parts := [] in
  let parts :=
    if negb (epoch v =? 0)%Z then parts ++ [Py.str_int (epoch v) +:+ "!"]
    else parts in
  let parts := parts ++ [Py.join "." (map Py.str_int (release v))] in
  let parts :=
    match pre v with
    | Some (l, n) => parts ++ [l +:+ Py.str_int n]
    | None => parts
    end in
  let parts :=
    match post_number v with
    | Some n => parts ++ [".post" +:+ Py.str_int n]
    | None => parts
    end in
  let parts :=
    match dev_number v with
    | Some n => parts ++ [".dev" +:+ Py.str_int n]
    | None => parts
    end in
  let parts :=
    match local_label v with
    | Some l => parts ++ ["+" +:+ l]
    | None => parts
    end in
  Py.join "" parts.

(** [v1 > v2] and [v1 <= v2] of [_BaseVersion]: those of the keys. *)
Definition gt (v1 v2 : _Version) : bool := py_gt (_key v1) (_key v2).
Definition le (v1 v2 : _Version) : bool := negb (py_gt (_key v1) (_key v2)).

End Packaging.

(* ===================================================================== *)
(** * Running git: [subprocess.run] as an oracle with a log *)
(* ===================================================================== *)

(** What [subprocess.run(cmd, capture_output=True, text=True)] returns. *)
Record CompletedProcess : Type := { returncode : Z; stdout : string }.

Definition Cmd : Type := list string.

(** The repository the script runs in: its answer to every command.
    Git is taken to start; where it cannot be started, [subprocess.run]
    raises [FileNotFoundError], which [discover_tag.py] does not catch. *)
Definition Env : Type := Cmd -> CompletedProcess.

(** A computation that may run commands: it reads the environment and
    extends the log of the commands run so far. *)
Definition Run (A : Type) : Type := Env -> list Cmd -> A * list Cmd.

Global Instance run_ret : MRet Run := fun A (x : A) _ log => (x, log).
Global Instance run_bind : MBind Run :=
  fun A B (f : A -> Run B) (m : Run A) env log =>
    let '(a, log') := m env log in f a env log'.

Definition subprocess_run (cmd : Cmd) : Run CompletedProcess :=
  fun env log => (env cmd, log ++ [cmd]).

(** The result and the commands run, from an empty log. *)
Definition result_of {A} (m : Run A) (env : Env) : A := fst (m env []).
Definition commands_of {A} (m : Run A) (env : Env) : list Cmd := snd (m env []).

(* ===================================================================== *)
(** * scripts/release/discover_tag.py *)
(* ===================================================================== *)

Module DiscoverTag.
Import Packaging.

(** The values of the JSON payload. *)
Inductive json : Type :=
| JNull
| JBool (b : bool)
| JInt (n : Z)
| JStr (s : string).

Definition json_of_int (o : option Z) : json :=
  match o with Some n => JInt n | None => JNull end.

(** [argparse.Namespace] of [parse_args]. *)
Record Namespace : Type := {
  args_pattern : string;
  args_validate : option string;
  args_tag_list : option string
}.

(** What a run leaves behind: the payload printed and the exit status. *)
Record Exit : Type := { payload : gmap string json; exit_code : Z }.

Definition _emit_and_exit (payload : gmap string json) (exit_code : Z) : Exit :=
  {| payload := payload; exit_code := exit_code |}.

Definition _output_success (tag version : string) (commits_behind : option Z)
    : Exit :=
  _emit_and_exit
    (<["tag" := JStr tag]>
       (<["version" := JStr version]>
          (<["found" := JBool true]>
             (<["commits_behind" := json_of_int commits_behind]> ∅))))
    0.

Definition _output_not_found (error : string) : Exit :=
  _emit_and_exit
    (<["tag" := JNull]>
       (<["version" := JNull]>
          (<["found" := JBool false]>
             (<["error" := JStr error]> ∅))))
    1.

Definition _output_error (error : string) : Exit :=
  _emit_and_exit (<["error" := JStr error]> ∅) 2.

(** [InvalidVersion] is caught; any other exception of [Version] goes on
    to the caller. *)
Definition _parse_tag (tag : string) : outcome (option _Version) :=
  let raw := Py.lstrip_chars "v" tag in
  match Version raw with
  | Returns parsed => Returns (Some parsed)
  | Raises InvalidVersion => Returns None
  | Raises e => Raises e
  end.

Definition _is_dev_tag (version : _Version) : bool :=
  match dev_number version with Some _ => true | None => false end.

Definition _is_rc_tag (version : _Version) : bool :=
  match pre version with
  | Some p => String.eqb (fst p) "rc"
  | None => false
  end.

(** The loop of [_filter_by_pattern] over the tags that are left, with
    the results so far. *)
Fixpoint filter_loop (matcher : _Version -> bool) (tags : list string)
    (results : list (string * _Version)) : outcome (list (string * _Version)) :=
  match tags with
  | [] => mret results
  | tag :: tags' =>
      parsed ← _parse_tag tag;
      filter_loop matcher tags'
        (match parsed with
         | Some parsed =>
             if matcher parsed then results ++ [(tag, parsed)] else results
         | None => results
         end)
  end.

Definition _filter_by_pattern (tags : list string) (pattern : string)
    : outcome (list (string * _Version)) :=
  let matcher := if String.eqb pattern "dev" then _is_dev_tag else _is_rc_tag in
  filter_loop matcher tags [].

Definition _split_tag_list (tag_list_str : string) : list string :=
  map Py.strip
    (filter (fun tag => Is_true (Py.truthy (Py.strip tag)))
       (Py.split "," tag_list_str)).

Definition _stage_guidance (pattern : string) : string :=
  if String.eqb pattern "dev"
  then "No dev tags found. Run Stage 1 (Dev Release) first."
  else "No rc tags found. Run Stage 2 (RC Release) first.".

Definition _git_tags : Run (list string) :=
  result ← subprocess_run ["git"; "tag"; "-l"];
  if negb (returncode result =? 0)%Z then mret []
  else
    mret (map Py.strip
            (filter (fun tag => Is_true (Py.truthy (Py.strip tag)))
               (Py.splitlines (Py.strip (stdout result))))).

Definition _commits_behind (tag : string) : Run (option Z) :=
  result ← subprocess_run ["git"; "rev-list"; "--count"; tag +:+ "..HEAD"];
  if negb (returncode result =? 0)%Z then mret None
  else mret (Py.int (Py.strip (stdout result))).

(** [discover], [validate] and [main] end in [sys.exit] with a payload
    printed, unless an exception gets through: then nothing is printed.
    [main] is taken from the parsed arguments on: [parse_args] ends the
    run itself, with status 2 and no payload, on a command line that
    [argparse] rejects. *)
Definition discover (tags : list string) (pattern : string) (use_git : bool)
    : Run (outcome Exit) :=
  match _filter_by_pattern tags pattern with
  | Raises e => mret (Raises e)
  | Returns [] => mret (Returns (_output_not_found (_stage_guidance pattern)))
  | Returns (first :: rest) =>
      let '(_, highest_version) := Py.max_from gt snd first rest in
      let tag_str := "v" +:+ to_str highest_version in
      staleness ← (if use_git then _commits_behind tag_str else mret None);
      mret (Returns (_output_success tag_str (to_str highest_version) staleness))
  end.

Definition validate (tags : list string) (target : string) : outcome Exit :=
  let not_found :=
    _output_not_found ("Tag '" +:+ target +:+ "' not found in tag list.") in
  if existsb (String.eqb target) tags then
    parsed ← _parse_tag target;
    match parsed with
    | Some parsed => mret (_output_success target (to_str parsed) None)
    | None => mret not_found
    end
  else mret not_found.

Definition main (args : Namespace) : Run (outcome Exit) :=
  let pattern := args_pattern args in
  if negb (existsb (String.eqb pattern) ["dev"; "rc"]) then
    mret (Returns
            (_output_error
               ("Invalid pattern '" +:+ pattern +:+ "'. Must be 'dev' or 'rc'.")))
  else
    let use_git := match args_tag_list args with None => true | Some _ => false end in
    tags ← match args_tag_list args with
           | None => _git_tags
           | Some tag_list => mret (_split_tag_list tag_list)
           end;
    match args_validate args with
    | Some target => mret (validate tags target)
    | None => discover tags pattern use_git
    end.

End DiscoverTag.

(* ===================================================================== *)
(** * scripts/release/generate_changelog.py *)
(* ===================================================================== *)

Module GenerateChangelog.

Abbreviation LF := Py.LF.
Abbreviation DQUOTE := Py.DQUOTE.

Definition not_newline (c : ascii) : bool := negb (Py.code c =? 10)%N.

(** [_CONVENTIONAL_RE]: a lower-case type, an optional scope between
    parentheses, an optional bang, a colon, white space and a description
    that runs to the end of the subject. *)
Definition _CONVENTIONAL_RE : Re.re :=
  Re.cat_all [
    Re.Bol;                                               (* ^ *)
    Re.Group "type" (Re.plus (Re.Chr Py.is_lower));       (* [a-z]+ *)
    Re.opt (Re.cat_all [
      Re.char "(";
      Re.Group "scope" (Re.Star (Re.none_of ")"));        (* no ")" *)
      Re.char ")"]);
    Re.opt (Re.Group "bang" (Re.char "!"));               (* !? *)
    Re.char ":";
    Re.Star (Re.Chr Py.isspace);                          (* \s* *)
    Re.Group "desc" (Re.plus (Re.Chr not_newline));       (* .+ *)
    Re.Eol                                                (* $ *)
  ].

(** The dictionary [_parse_conventional_commit] returns. *)
Record Conventional : Type := {
  type : string;
  scope : string;
  bang : bool;
  desc : string
}.

Definition _parse_conventional_commit (subject : string) : option Conventional :=
  match Re.match_ _CONVENTIONAL_RE subject with
  | None => None
  | Some m =>
      Some {|
        type := default "" (Re.group m "type");
        scope := match Re.group m "scope" with
                 | Some s => if Py.truthy s then s else ""
                 | None => ""
                 end;
        bang := match Re.group m "bang" with
                | Some b => Py.truthy b
                | None => false
                end;
        desc := default "" (Re.group m "desc")
      |}
  end.

(** The four lists [_categorize_commits] fills. *)
Record Lists : Type := {
  breaking : list string;
  features : list string;
  fixes : list string;
  other : list string
}.

Definition no_lists : Lists :=
  {| breaking := []; features := []; fixes := []; other := [] |}.

Definition breaking_append (acc : Lists) (line : string) : Lists :=
  {| breaking := breaking acc ++ [line]; features := features acc;
     fixes := fixes acc; other := other acc |}.
Definition features_append (acc : Lists) (line : string) : Lists :=
  {| breaking := breaking acc; features := features acc ++ [line];
     fixes := fixes acc; other := other acc |}.
Definition fixes_append (acc : Lists) (line : string) : Lists :=
  {| breaking := breaking acc; features := features acc;
     fixes := fixes acc ++ [line]; other := other acc |}.
Definition other_append (acc : Lists) (line : string) : Lists :=
  {| breaking := breaking acc; features := features acc;
     fixes := fixes acc; other := other acc ++ [line] |}.

(** The rendered entry of a commit: [f"- {subject} (`{sha}`)"]. *)
Definition entry_line (subject sha : string) : string :=
  "- " +:+ subject +:+ " (`" +:+ sha +:+ "`)".

(** The loop body of [_categorize_commits] from the exclusion test on:
    what one commit does to the four lists. *)
Definition categorize_commit (acc : Lists) (subject body sha : string) : Lists :=
  if Py.contains "chore(release):" subject || Py.contains "[skip ci]" subject
  then acc
  else
    let parsed := _parse_conventional_commit subject in
    let is_breaking :=
      match parsed with Some p => bang p | None => false end
      || Py.contains "BREAKING CHANGE:" body in
    let line := entry_line subject sha in
    if is_breaking then breaking_append acc line
    else
      match parsed with
      | Some p =>
          let ctype := type p in
          if String.eqb ctype "feat" then features_append acc line
          else if String.eqb ctype "fix" then fixes_append acc line
          else other_append acc line
      | None => other_append acc line
      end.

(** The loop body of [_categorize_commits]: one record of the log. *)
Definition categorize_record (acc : Lists) (record : string) : Lists :=
  let record := Py.strip record in
  if negb (Py.truthy record) then acc
  else
    match Py.split Py.NUL record with
    | p0 :: p1 :: p2 :: _ =>
        let subject := Py.strip p0 in
        let body := Py.strip p1 in
        let sha := Py.strip p2 in
        if negb (Py.truthy subject) || negb (Py.truthy sha) then acc
        else categorize_commit acc subject body sha
    | _ => acc
    end.

Definition record_end : string := "<<--EOR-->>".

Definition categorize_log (raw_log : string) : Lists :=
  fold_left categorize_record (Py.split record_end raw_log) no_lists.

Definition _categorize_commits (raw_log : string) : gmap string (list string) :=
  let acc := categorize_log raw_log in
  <["breaking" := breaking acc]>
    (<["features" := features acc]>
       (<["fixes" := fixes acc]>
          (<["other" := other acc]> ∅))).

(** [categories.get(key, [])] *)
Definition get (categories : gmap string (list string)) (key : string)
    : list string :=
  default [] (categories !! key).

Definition nonempty {A} (l : list A) : bool :=
  match l with [] => false | _ => true end.

Definition compare_link (label repo prev_tag version : string) : string :=
  label +:+ "(https://github.com/" +:+ repo +:+ "/compare/" +:+ prev_tag
    +:+ "...v" +:+ version +:+ ")" +:+ LF.

(** The framing [_render_markdown] opens with, and the text for a
    release without entries: the three branches on [stage]. *)
Definition framing (stage version source_tag repo prev_tag release_date : string)
    : list string * string :=
  let sections : list string := [] in
  if String.eqb stage "dev" then
    let sections := sections ++
      ["**Dev snapshot** `" +:+ version +:+ "` (" +:+ release_date +:+ ")" +:+ LF] in
    let sections :=
      if Py.truthy prev_tag && Py.truthy repo then
        sections ++
          [compare_link ("**Changes since**: [" +:+ prev_tag +:+ "]")
             repo prev_tag version]
      else sections in
    (sections, "No notable changes (internal improvements)" +:+ LF)
  else if String.eqb stage "rc" then
    let sections := sections ++
      ["**Release candidate** `" +:+ version +:+ "` (" +:+ release_date +:+ ")" +:+ LF] in
    let sections :=
      if Py.truthy source_tag then
        sections ++ ["**Promoted from**: `" +:+ source_tag +:+ "`" +:+ LF]
      else sections in
    let sections :=
      if Py.truthy prev_tag && Py.truthy repo then
        sections ++
          [compare_link ("**Changes since**: [" +:+ prev_tag +:+ "]")
             repo prev_tag version]
      else sections in
    let sections := sections ++
      ["## Install" +:+ LF +:+ "```bash" +:+ LF
         +:+ "pipx install nwave-ai==" +:+ version +:+ " --pip-args="
         +:+ DQUOTE +:+ "--pre" +:+ DQUOTE +:+ LF
         +:+ "```" +:+ LF] in
    (sections, "No notable changes (internal improvements)" +:+ LF)
  else
    let sections := sections ++ ["# nWave Framework v" +:+ version +:+ LF] in
    let sections := sections ++ ["**Release Date**: " +:+ release_date +:+ LF] in
    let sections :=
      if Py.truthy source_tag then
        sections ++ ["**Promoted from**: `" +:+ source_tag +:+ "`" +:+ LF]
      else sections in
    let sections :=
      if Py.truthy prev_tag && Py.truthy repo then
        sections ++
          [compare_link
             ("**Full Changelog**: [" +:+ prev_tag +:+ "...v" +:+ version +:+ "]")
             repo prev_tag version]
      else sections in
    let sections := sections ++
      ["## Installation" +:+ LF +:+ "```bash" +:+ LF
         +:+ "pipx install nwave-ai" +:+ LF +:+ "```" +:+ LF] in
    (sections, "Patch release (internal improvements)" +:+ LF).

(** The list [sections] of [_render_markdown] just before it is joined. *)
Definition render_sections
    (stage version source_tag repo prev_tag : string)
    (categories : gmap string (list string)) (release_date : string)
    : list string :=
  let '(sections, empty_message) :=
    framing stage version source_tag repo prev_tag release_date in
  let breaking := get categories "breaking" in
  let features := get categories "features" in
  let fixes := get categories "fixes" in
  let other_items := get categories "other" in
  let sections :=
    if nonempty breaking
    then sections ++ ["## Breaking Changes" +:+ LF; Py.join LF breaking +:+ LF]
    else sections in
  let sections :=
    if nonempty features
    then sections ++ ["## Features" +:+ LF; Py.join LF features +:+ LF]
    else sections in
  let sections :=
    if nonempty fixes
    then sections ++ ["## Bug Fixes" +:+ LF; Py.join LF fixes +:+ LF]
    else sections in
  let sections :=
    if nonempty other_items
    then sections ++ ["## Other Changes" +:+ LF; Py.join LF other_items +:+ LF]
    else sections in
  let sections :=
    if negb (existsb nonempty [breaking; features; fixes; other_items])
    then sections ++ [empty_message]
    else sections in
  sections.

Definition _render_markdown
    (stage version source_tag repo prev_tag : string)
    (categories : gmap string (list string)) (release_date : string)
    : string :=
  Py.join LF
    (render_sections stage version source_tag repo prev_tag categories
       release_date).

End GenerateChangelog.

(* ===================================================================== *)
(** * Vocabulary of the properties *)
(* ===================================================================== *)

(** The laws of a three-way comparison that is a total order. *)
Class CmpLaws (A : Type) `{Cmp A} : Prop := {
  cmp_eq : forall a b : A, cmp a b = Eq -> a = b;
  cmp_refl : forall a : A, cmp a a = Eq;
  cmp_antisym : forall a b : A, cmp b a = CompOpp (cmp a b);
  cmp_trans : forall a b c : A, cmp a b = Lt -> cmp b c = Lt -> cmp a c = Lt
}.

Module Props.
Import Packaging DiscoverTag GenerateChangelog.

(** What a caller sees of a run: the payload printed and the exit status.
    A run that ends in an exception nobody catches prints no payload, and
    the interpreter exits with status 1. *)
Definition printed (o : outcome Exit) : option (gmap string json) :=
  match o with
  | Returns e => Some (payload e)
  | Raises _ => None
  end.
Definition exit_status (o : outcome Exit) : Z :=
  match o with
  | Returns e => exit_code e
  | Raises _ => 1%Z
  end.
Definition field (name : string) (o : outcome Exit) : option json :=
  match printed o with
  | Some p => p !! name
  | None => None
  end.
Definition found : outcome Exit -> option json := field "found".
Definition reported_tag : outcome Exit -> option json := field "tag".
Definition reported_version : outcome Exit -> option json := field "version".
Definition commits_behind : outcome Exit -> option json := field "commits_behind".
Definition error : outcome Exit -> option json := field "error".

(** The only exception the call can raise is [ValueError]. *)
Definition only_value_error {A : Type} (o : outcome A) : Prop :=
  forall e, o = Raises e -> e = ValueError.

(** The stage predicate [_filter_by_pattern] picks. *)
Definition matcher_of (pattern : string) : _Version -> bool :=
  if String.eqb pattern "dev" then _is_dev_tag else _is_rc_tag.

(** What one tag contributes to the candidates, when its parse returns. *)
Definition candidate (matcher : _Version -> bool) (tag : string)
    : outcome (list (string * _Version)) :=
  parsed ← _parse_tag tag;
  match parsed with
  | Some parsed => mret (if matcher parsed then [(tag, parsed)] else [])
  | None => mret []
  end.

(** The candidate [discover] settles on, out of a first and the rest. *)
Definition highest (first : string * _Version) (rest : list (string * _Version))
    : string * _Version :=
  Py.max_from gt snd first rest.

(** The parse of the tag does not come to [None]. *)
Definition parses (tag : string) : bool :=
  match _parse_tag tag with Returns None => false | _ => true end.

(** A release with a dev segment only, and one with an rc segment only. *)
Definition dev_release (release : list Z) (n : Z) : _Version :=
  {| epoch := 0; release := release; pre := None; post := None;
     dev := Some ("dev", n); local := None |}.
Definition rc_release (release : list Z) (n : Z) : _Version :=
  {| epoch := 0; release := release; pre := Some ("rc", n); post := None;
     dev := None; local := None |}.

(** The fixtures of [tests/release/conftest.py]. *)
Definition dev_tags_mixed_versions : list string :=
  ["v1.1.22.dev1"; "v1.1.22.dev2"; "v1.1.23.dev1"].
Definition dev_tags_digit_transition : list string :=
  map (fun n => "v1.1.23.dev" +:+ Py.str_int n)
    [1; 2; 3; 4; 5; 6; 7; 8; 9; 10; 11]%Z.
Definition rc_tags_digit_transition : list string :=
  map (fun n => "v1.1.23rc" +:+ Py.str_int n)
    [1; 2; 3; 4; 5; 6; 7; 8; 9; 10; 11]%Z.

(** A dev tag whose dev number has 4301 digits, one more than [int()]
    converts. *)
Definition overlong_tag : string :=
  "v1.0.0.dev1" +:+ Nat.iter 4300 (String "0") "".

(** A repository with the one tag [v1.1.23.dev1], [behind] commits before
    its head. *)
Definition tagged_repository (behind : Z) : Env :=
  fun cmd =>
    match cmd with
    | ["git"; "tag"; "-l"] =>
        {| returncode := 0; stdout := "v1.1.23.dev1" +:+ Py.LF |}
    | ["git"; "rev-list"; "--count"; "v1.1.23.dev1..HEAD"] =>
        {| returncode := 0; stdout := Py.str_int behind +:+ Py.LF |}
    | _ => {| returncode := 128; stdout := "" |}
    end.

(** An environment without a usable repository: every command fails. *)
Definition no_repository : Env :=
  fun _ => {| returncode := 128; stdout := "" |}.

(** Removing one leading [v], as the design document words the parse. *)
Definition strip_one_v (raw : string) : string :=
  match raw with
  | String "v" rest => rest
  | _ => raw
  end.

(** The headings of the four sections, in the order of the document. *)
Definition headings : list (string * string) :=
  [("breaking", "## Breaking Changes"); ("features", "## Features");
   ("fixes", "## Bug Fixes"); ("other", "## Other Changes")].

(** One section: nothing for no entries, else its heading and its
    entries, one per line. *)
Definition section_of (categories : gmap string (list string))
    (h : string * string) : list string :=
  match get categories (fst h) with
  | [] => []
  | entries => [snd h +:+ Py.LF; Py.join Py.LF entries +:+ Py.LF]
  end.

Definition all_empty (categories : gmap string (list string)) : bool :=
  forallb (fun h => negb (nonempty (get categories (fst h)))) headings.

(** A commit the classifier leaves out. *)
Definition excluded (subject : string) : bool :=
  Py.contains "chore(release):" subject || Py.contains "[skip ci]" subject.

(** Every entry of the four lists. *)
Definition all_entries (acc : Lists) : list string :=
  breaking acc ++ features acc ++ fixes acc ++ other acc.

(** An entry that stands for a commit that is not left out. *)
Definition kept_entry (line : string) : Prop :=
  exists subject sha, line = entry_line subject sha /\ excluded subject = false.

(** The subject matches the conventional-commit grammar. *)
Definition conventional (subject : string) : bool :=
  match _parse_conventional_commit subject with Some _ => true | None => false end.

(** The subject matches and carries the [!] marker. *)
Definition has_bang (subject : string) : bool :=
  match _parse_conventional_commit subject with
  | Some p => bang p
  | None => false
  end.

Definition type_of (subject : string) : option string :=
  type <$> _parse_conventional_commit subject.

(** One record of the log, as [git log] writes it. *)
Definition log_entry (subject body sha : string) : string :=
  subject +:+ Py.NUL +:+ body +:+ Py.NUL +:+ sha +:+ record_end.

End Props.

(* ===================================================================== *)
(** * scripts/release/generate_changelog.py: reading the history *)
(* ===================================================================== *)

Module ChangelogGit.
Import GenerateChangelog.

(** Here [subprocess.run] is called inside [try ... except OSError]: the
    answer to a command is a completed process, or [None] when the call
    raises [OSError]. *)
Definition EnvOS : Type := Cmd -> option CompletedProcess.

Definition RunOS (A : Type) : Type := EnvOS -> list Cmd -> A * list Cmd.

Global Instance runos_ret : MRet RunOS := fun A (x : A) _ log => (x, log).
Global Instance runos_bind : MBind RunOS :=
  fun A B (f : A -> RunOS B) (m : RunOS A) env log =>
    let '(a, log') := m env log in f a env log'.

Definition try_subprocess_run (cmd : Cmd) : RunOS (option CompletedProcess) :=
  fun env log => (env cmd, log ++ [cmd]).

(** [\d], below 256. *)
Definition digit : Re.re := Re.Chr Py.is_digit.

(** [^v\d+\.\d+\.\d+$] *)
Definition stable_tag_re : Re.re :=
  Re.cat_all [
    Re.Bol; Re.char "v"; Re.plus digit; Re.char "."; Re.plus digit;
    Re.char "."; Re.plus digit; Re.Eol].

(** [^v\d+\.\d+\.\d+rc\d+$] *)
Definition rc_tag_re : Re.re :=
  Re.cat_all [
    Re.Bol; Re.char "v"; Re.plus digit; Re.char "."; Re.plus digit;
    Re.char "."; Re.plus digit; Re.lit "rc"; Re.plus digit; Re.Eol].

(** [tag_re.match(t)] as a truth value. *)
Definition matches (tag_re : Re.re) (t : string) : bool :=
  match Re.match_ tag_re t with Some _ => true | None => false end.

Definition _find_previous_tag (stage current_version : string) : RunOS string :=
  if String.eqb stage "dev" then
    result ← try_subprocess_run
               ["git"; "describe"; "--tags"; "--abbrev=0"; "HEAD^"];
    match result with
    | None => mret ""
    | Some result =>
        if negb (returncode result =? 0)%Z then mret ""
        else mret (Py.strip (stdout result))
    end
  else
    result ← try_subprocess_run
               ["git"; "tag"; "--sort=-v:refname"; "--merged"; "HEAD"];
    match result with
    | None => mret ""
    | Some result =>
        if negb (returncode result =? 0)%Z then mret ""
        else
          let all_tags := Py.splitlines (Py.strip (stdout result)) in
          let tag_re :=
            if String.eqb stage "rc" then rc_tag_re else stable_tag_re in
          let current_tag := "v" +:+ current_version in
          mret (default ""
                  (head
                     (map Py.strip
                        (List.filter
                           (fun t =>
                              matches tag_re (Py.strip t)
                              && negb (String.eqb (Py.strip t) current_tag))
                           all_tags))))
    end.

Definition log_format : string :=
  "%s%x00%b%x00%h" +:+ record_end.

Definition _fetch_commits (prev_tag : string) : RunOS string :=
  let cmd := ["git"; "log"; "--no-merges"; "--pretty=format:" +:+ log_format] in
  let cmd :=
    if Py.truthy prev_tag
    then take 2 cmd ++ [prev_tag +:+ "..HEAD"] ++ drop 2 cmd
    else cmd in
  result ← try_subprocess_run cmd;
  match result with
  | None => mret ""
  | Some result =>
      if negb (returncode result =? 0)%Z then mret "" else mret (stdout result)
  end.

(** The notes [main] writes to the output file and prints: what it
    computes between reading the clock, which gave [release_date], and
    writing the file. *)
Definition release_notes
    (stage version source_tag repo release_date : string) : RunOS string :=
  prev_tag ← _find_previous_tag stage version;
  raw_log ← _fetch_commits prev_tag;
  let categories := _categorize_commits raw_log in
  mret (_render_markdown stage version source_tag repo prev_tag categories
          release_date).

End ChangelogGit.

(* ===================================================================== *)
(** * Further vocabulary *)
(* ===================================================================== *)

Module Props2.
Import Packaging DiscoverTag GenerateChangelog ChangelogGit Props.

(** No white space at either end. *)
Definition stripped (s : string) : Prop := Py.strip s = s.

(** The character occurs nowhere in the string. *)
Definition free_of (c : ascii) (s : string) : Prop := Py.mem_char c s = false.

(** The subject, the body and the hash a record of the log holds, when it
    has the three parts. *)
Definition parts_of (record : string) : option (string * string * string) :=
  match Py.split Py.NUL (Py.strip record) with
  | p0 :: p1 :: p2 :: _ => Some (Py.strip p0, Py.strip p1, Py.strip p2)
  | _ => None
  end.

(** The record is whole: it has the three parts, and neither its subject
    nor its hash is empty. *)
Definition whole (record : string) : bool :=
  match parts_of record with
  | Some (subject, _, sha) => Py.truthy subject && Py.truthy sha
  | None => false
  end.

(** The line is the entry of that record: the record is whole, its
    subject holds no exclusion marker, and the line is written from its
    subject and its hash. *)
Definition entry_of (record line : string) : Prop :=
  exists subject body sha,
    parts_of record = Some (subject, body, sha) /\
    subject <> "" /\ sha <> "" /\ excluded subject = false /\
    line = entry_line subject sha.

(** The command cannot be run, or fails. *)
Definition command_fails (env : EnvOS) (cmd : Cmd) : Prop :=
  match env cmd with
  | None => True
  | Some result => returncode result <> 0%Z
  end.

(** The test [_find_previous_tag] puts to a line of the tag listing. *)
Definition earlier_release (stage current_version line : string) : bool :=
  matches (if String.eqb stage "rc" then rc_tag_re else stable_tag_re)
    (Py.strip line)
  && negb (String.eqb (Py.strip line) ("v" +:+ current_version)).

(** A git that cannot be run at all, and one that fails every command. *)
Definition git_missing : EnvOS := fun _ => None.
Definition git_failing : EnvOS :=
  fun _ => Some {| returncode := 128; stdout := "" |}.

(** The tags a repository lists, newest first, for [git tag --merged]. *)
Definition merged_tags (lines : list string) : EnvOS :=
  fun cmd =>
    match cmd with
    | ["git"; "tag"; "--sort=-v:refname"; "--merged"; "HEAD"] =>
        Some {| returncode := 0; stdout := Py.join Py.LF lines +:+ Py.LF |}
    | _ => Some {| returncode := 128; stdout := "" |}
    end.

(** A text that [int()] converts: 4300 characters at most. *)
Definition short (s : string) : Prop :=
  (String.length s <= Py.int_max_str_digits)%nat.

(** A number that is read back from its text: not negative, and written
    with 4300 digits at most. *)
Definition convertible (n : Z) : Prop :=
  (0 <= n)%Z /\ short (Py.str_int n).

(** The canonical tag of a release with a dev number, and with an rc
    number: [v<major>.<minor>.<patch>.dev<n>] and [v<major>.<minor>.<patch>rc<n>]. *)
Definition dev_tag (major minor patch n : Z) : string :=
  "v" +:+ Py.str_int major +:+ "." +:+ Py.str_int minor +:+ "."
    +:+ Py.str_int patch +:+ ".dev" +:+ Py.str_int n.
Definition rc_tag (major minor patch n : Z) : string :=
  "v" +:+ Py.str_int major +:+ "." +:+ Py.str_int minor +:+ "."
    +:+ Py.str_int patch +:+ "rc" +:+ Py.str_int n.

(** The canonical tag of the stage a pattern selects, the release it
    stands for, and the tags that are written that way. *)
Definition stage_tag (pattern : string) : Z -> Z -> Z -> Z -> string :=
  if String.eqb pattern "dev" then dev_tag else rc_tag.
Definition stage_release (pattern : string) (release : list Z) (n : Z)
    : _Version :=
  if String.eqb pattern "dev" then dev_release release n
  else rc_release release n.
Definition canonical (pattern tag : string) : Prop :=
  exists major minor patch n : Z,
    (convertible major /\ convertible minor /\ convertible patch /\
     convertible n) /\
    tag = stage_tag pattern major minor patch n.

End Props2.

(* ===================================================================== *)
(** * Vocabulary for reasoning about a match *)
(* ===================================================================== *)

Module ReLogic.

(** The loop of [Re.run] on [Star], by name. *)
Definition star_iter
    (step : nat -> string -> Re.groups ->
            (nat -> string -> Re.groups -> option Re.groups) ->
            option Re.groups)
    (k : nat -> string -> Re.groups -> option Re.groups)
    : nat -> nat -> string -> Re.groups -> option Re.groups :=
  fix star (fuel pos : nat) (s : string) (g : Re.groups) {struct fuel}
      : option Re.groups :=
    match fuel with
    | O => k pos s g
    | S fuel' =>
        match step pos s g
                (fun pos' s' g' =>
                   if (pos <? pos')%nat then star fuel' pos' s' g'
                   else None) with
        | Some m => Some m
        | None => k pos s g
        end
    end.

(** [s'] is what is left of [s] after some prefix. *)
Definition suffix (s' s : string) : Prop := exists prefix, s = prefix +:+ s'.

(** The pattern cannot match at the start of [s], whatever follows it. *)
Definition Fails (r : Re.re) (s : string) : Prop :=
  forall pos g k, Re.run r pos s g k = None.

(** The pattern matches nothing at the start of [s] and hands [s] on. *)
Definition Skips (r : Re.re) (s : string) : Prop :=
  forall pos g k, Re.run r pos s g k = k pos s g.

(** The first thing the pattern tries at the start of [x +:+ rest] is to
    match [x], noting the groups [gs]: when what follows succeeds on
    [rest], that is the match. *)
Definition Commits (r : Re.re) (x rest : string) (gs : Re.groups) : Prop :=
  forall pos g k m,
    k (pos + String.length x)%nat rest (gs ++ g) = Some m ->
    Re.run r pos (x +:+ rest) g k = Some m.

(** The same for the loop of a star, with fuel to spare. *)
Definition CommitsStar (r : Re.re) (x rest : string) (gs : Re.groups) : Prop :=
  forall fuel pos g k m,
    (String.length (x +:+ rest) < fuel)%nat ->
    k (pos + String.length x)%nat rest (gs ++ g) = Some m ->
    star_iter (Re.run r) k fuel pos (x +:+ rest) g = Some m.

(** A non-empty run of the digits 0 to 9. *)
Definition digit_string (s : string) : Prop :=
  s <> "" /\ Packaging.all_chars Py.is_digit s = true.

(** The string is empty or starts with a character that fails the test. *)
Definition stops (p : ascii -> bool) (s : string) : Prop :=
  match s with
  | EmptyString => True
  | String c _ => p c = false
  end.

(** No group holds more than [bound] characters. *)
Definition groups_within (bound : nat) (g : Re.groups) : Prop :=
  Forall (fun p => (String.length (snd p) <= bound)%nat) g.

(** What a pattern means: [Matches r pos x rest] when [r], tried at offset
    [pos] with [x +:+ rest] left of the subject, can consume [x]. *)
Inductive Matches : Re.re -> nat -> string -> string -> Prop :=
| matches_eps pos rest : Matches Re.Eps pos "" rest
| matches_chr p c pos rest :
    p c = true -> Matches (Re.Chr p) pos (String c "") rest
| matches_cat r1 r2 pos x y rest :
    Matches r1 pos x (y +:+ rest) ->
    Matches r2 (pos + String.length x) y rest ->
    Matches (Re.Cat r1 r2) pos (x +:+ y) rest
| matches_alt_l r1 r2 pos x rest :
    Matches r1 pos x rest -> Matches (Re.Alt r1 r2) pos x rest
| matches_alt_r r1 r2 pos x rest :
    Matches r2 pos x rest -> Matches (Re.Alt r1 r2) pos x rest
| matches_star_nil r pos rest : Matches (Re.Star r) pos "" rest
| matches_star_cons r pos x y rest :
    Matches r pos x (y +:+ rest) -> x <> "" ->
    Matches (Re.Star r) (pos + String.length x) y rest ->
    Matches (Re.Star r) pos (x +:+ y) rest
| matches_group name r pos x rest :
    Matches r pos x rest -> Matches (Re.Group name r) pos x rest
| matches_bol rest : Matches Re.Bol 0 "" rest
| matches_eol pos rest :
    rest = "" \/ (exists c, rest = String c "" /\ Py.code c = 10%N) ->
    Matches Re.Eol pos "" rest.

End ReLogic.

(* ===================================================================== *)
(** * Tags and subjects of a given shape *)
(* ===================================================================== *)

Module Shapes.
Import GenerateChangelog ReLogic.

(** The shapes of a stable tag and of an rc tag:
    [v<digits>.<digits>.<digits>], and the same followed by [rc<digits>]. *)
Definition stable_shape (t : string) : Prop :=
  exists a b c,
    digit_string a /\ digit_string b /\ digit_string c /\
    t = "v" +:+ a +:+ "." +:+ b +:+ "." +:+ c.
Definition rc_shape (t : string) : Prop :=
  exists a b c n,
    digit_string a /\ digit_string b /\ digit_string c /\ digit_string n /\
    t = "v" +:+ a +:+ "." +:+ b +:+ "." +:+ c +:+ "rc" +:+ n.

(** A subject written after the conventional-commit grammar:
    [type(scope)!: desc], the scope and the bang being optional. *)
Definition conventional_subject (ctype : string) (scope : option string)
    (bang : bool) (desc : string) : string :=
  ctype +:+ match scope with Some s => "(" +:+ s +:+ ")" | None => "" end
    +:+ (if bang then "!" else "") +:+ ": " +:+ desc.

(** What the parts of such a subject have to be: a type of lower-case
    letters, a scope without a closing parenthesis, and a description on
    one line that starts with something other than white space. *)
Definition well_formed (ctype : string) (scope : option string)
    (desc : string) : Prop :=
  ctype <> "" /\ Packaging.all_chars Py.is_lower ctype = true /\
  (forall s, scope = Some s -> Props2.free_of ")" s) /\
  desc <> "" /\ stops Py.isspace desc /\
  Props2.free_of (Py.chr 10) desc.

End Shapes.

(* ===================================================================== *)
(** * The comparison of keys is a total order *)
(* ===================================================================== *)

Section Lex.

Lemma lex_eq c1 c2 : lex c1 c2 = Eq -> c1 = Eq /\ c2 = Eq.
Proof. destruct c1; simpl; intros; try discriminate; auto. Qed.

Lemma lex_opp c1 c2 : CompOpp (lex c1 c2) = lex (CompOpp c1) (CompOpp c2).
Proof. destruct c1; reflexivity. Qed.

Context {A : Type} `{CmpLaws A}.

(** One step of a lexicographic comparison is transitive as soon as the
    comparison of what follows is. *)
Lemma lex_trans (a b c : A) (x y z : comparison) :
  (x = Lt -> y = Lt -> z = Lt) ->
  lex (cmp a b) x = Lt -> lex (cmp b c) y = Lt -> lex (cmp a c) z = Lt.
Proof.
  intros Hxyz.
  destruct (cmp a b) eqn:Eab; simpl; [| | discriminate].
  - apply cmp_eq in Eab; subst b.
    destruct (cmp a c) eqn:Eac; simpl; auto; discriminate.
  - intros _.
    destruct (cmp b c) eqn:Ebc; simpl; [| | discriminate].
    + apply cmp_eq in Ebc; subst c. rewrite Eab. reflexivity.
    + rewrite (cmp_trans a b c Eab Ebc). reflexivity.
Qed.

End Lex.

Global Instance laws_Z : CmpLaws Z.
Proof.
  split; unfold cmp, cmp_Z.
  - apply Z.compare_eq.
  - apply Z.compare_refl.
  - intros a b. apply Z.compare_antisym.
  - intros a b c. rewrite !Z.compare_lt_iff. lia.
Qed.

Lemma code_inj (a b : ascii) : Py.code a = Py.code b -> a = b.
Proof.
  unfold Py.code. intros E.
  rewrite <- (ascii_N_embedding a), <- (ascii_N_embedding b), E. reflexivity.
Qed.

Global Instance laws_ascii : CmpLaws ascii.
Proof.
  split; unfold cmp, cmp_ascii.
  - intros a b E. apply N.compare_eq in E. apply code_inj, E.
  - intros a. apply N.compare_refl.
  - intros a b. apply N.compare_antisym.
  - intros a b c. rewrite !N.compare_lt_iff. lia.
Qed.

Global Instance laws_string : CmpLaws string.
Proof.
  split; unfold cmp, cmp_string.
  - intros a. induction a as [|x a IH]; intros [|y b]; simpl; try discriminate; auto.
    intros E. apply lex_eq in E as [E1 E2].
    apply cmp_eq in E1. apply IH in E2. congruence.
  - intros a. induction a as [|x a IH]; simpl; auto.
    rewrite cmp_refl. exact IH.
  - intros a. induction a as [|x a IH]; intros [|y b]; simpl; auto.
    rewrite lex_opp, <- IH, <- cmp_antisym. reflexivity.
  - intros a. induction a as [|x a IH]; intros [|y b] [|z c]; simpl;
      try discriminate; auto.
    apply lex_trans. apply IH.
Qed.

Global Instance laws_list {A} `{CmpLaws A} : CmpLaws (list A).
Proof.
  split; unfold cmp, cmp_list.
  - intros a. induction a as [|x a IH]; intros [|y b]; simpl; try discriminate; auto.
    intros E. apply lex_eq in E as [E1 E2].
    apply cmp_eq in E1. apply IH in E2. congruence.
  - intros a. induction a as [|x a IH]; simpl; auto.
    rewrite cmp_refl. exact IH.
  - intros a. induction a as [|x a IH]; intros [|y b]; simpl; auto.
    rewrite lex_opp, <- IH, <- cmp_antisym. reflexivity.
  - intros a. induction a as [|x a IH]; intros [|y b] [|z c]; simpl;
      try discriminate; auto.
    apply lex_trans. apply IH.
Qed.

Global Instance laws_pair {A B} `{CmpLaws A} `{CmpLaws B} : CmpLaws (A * B).
Proof.
  split; unfold cmp, cmp_pair.
  - intros [a1 a2] [b1 b2]; simpl. intros E. apply lex_eq in E as [E1 E2].
    apply cmp_eq in E1. apply cmp_eq in E2. congruence.
  - intros [a1 a2]; simpl. rewrite !cmp_refl. reflexivity.
  - intros [a1 a2] [b1 b2]; simpl.
    rewrite lex_opp, <- !cmp_antisym. reflexivity.
  - intros [a1 a2] [b1 b2] [c1 c2]; simpl. apply lex_trans. apply cmp_trans.
Qed.

Global Instance laws_bounded {A} `{CmpLaws A} : CmpLaws (Packaging.bounded A).
Proof.
  split; unfold cmp, Packaging.cmp_bounded.
  - intros [|a|] [|b|]; simpl; try discriminate; auto.
    intros E. apply cmp_eq in E. congruence.
  - intros [|a|]; simpl; auto. apply cmp_refl.
  - intros [|a|] [|b|]; simpl; auto. apply cmp_antisym.
  - intros [|a|] [|b|] [|c|]; simpl; try discriminate; auto. apply cmp_trans.
Qed.

(** The keys of versions are totally ordered. *)
Global Instance laws_CmpKey : CmpLaws Packaging.CmpKey.
Proof.
  unfold Packaging.CmpKey, Packaging.CmpPrePostDev, Packaging.CmpLocal.
  apply _.
Qed.

Section Order.
Context {K : Type} `{CmpLaws K}.

Lemma py_gt_irrefl (a : K) : py_gt a a = false.
Proof. unfold py_gt. rewrite cmp_refl. reflexivity. Qed.

Lemma py_gt_lt (a b : K) : py_gt a b = py_lt b a.
Proof. unfold py_gt, py_lt. rewrite (cmp_antisym a b). destruct (cmp a b); reflexivity. Qed.

(** [not (a > b)] is [a <= b]: it is transitive, and total. *)
Lemma not_gt_trans (a b c : K) :
  py_gt a b = false -> py_gt b c = false -> py_gt a c = false.
Proof.
  unfold py_gt.
  destruct (cmp a b) eqn:Eab; try discriminate;
    destruct (cmp b c) eqn:Ebc; try discriminate; intros _ _.
  - apply cmp_eq in Eab; subst. rewrite Ebc. reflexivity.
  - apply cmp_eq in Eab; subst. rewrite Ebc. reflexivity.
  - apply cmp_eq in Ebc; subst. rewrite Eab. reflexivity.
  - rewrite (cmp_trans a b c Eab Ebc). reflexivity.
Qed.

Lemma gt_not_gt (a b : K) : py_gt a b = true -> py_gt b a = false.
Proof.
  unfold py_gt. rewrite (cmp_antisym a b).
  destruct (cmp a b); simpl; auto; discriminate.
Qed.

Lemma py_gt_iff (a b : K) : py_gt a b = true <-> cmp b a = Lt.
Proof.
  unfold py_gt. rewrite (cmp_antisym b a).
  destruct (cmp b a); simpl; split; congruence.
Qed.

Lemma gt_trans (a b c : K) :
  py_gt a b = true -> py_gt b c = true -> py_gt a c = true.
Proof. rewrite !py_gt_iff. intros Hab Hbc. exact (cmp_trans c b a Hbc Hab). Qed.

Context {A : Type} (key : A -> K).

(** [max] returns one of the items, and no item is greater than it. *)
Lemma max_from_spec (items : list A) :
  forall best,
    let m := Py.max_from py_gt key best items in
    (m = best \/ In m items) /\
    py_gt (key best) (key m) = false /\
    (forall x, In x items -> py_gt (key x) (key m) = false).
Proof.
  induction items as [|x items IH]; intros best; simpl.
  - split; [auto|]. split; [apply py_gt_irrefl | tauto].
  - destruct (py_gt (key x) (key best)) eqn:E.
    + destruct (IH x) as (Hin & Hbest & Hall).
      split; [destruct Hin as [->|Hin]; auto|]. split.
      * eapply not_gt_trans; [apply gt_not_gt, E | exact Hbest].
      * intros y [<-|Hy]; auto.
    + destruct (IH best) as (Hin & Hbest & Hall).
      split; [destruct Hin as [->|Hin]; auto|]. split; [exact Hbest|].
      intros y [<-|Hy]; auto.
      eapply not_gt_trans; [exact E | exact Hbest].
Qed.

(** It is the first of the greatest: it is [best] or greater than it. *)
Lemma max_from_first (items : list A) :
  forall best,
    let m := Py.max_from py_gt key best items in
    py_gt (key m) (key best) = true \/ m = best.
Proof.
  induction items as [|x items IH]; intros best; simpl; auto.
  destruct (py_gt (key x) (key best)) eqn:E.
  - destruct (IH x) as [Hgt | ->]; auto.
    left. eapply gt_trans; eauto.
  - apply IH.
Qed.

End Order.

(* ===================================================================== *)
(** * Tag discovery *)
(* ===================================================================== *)

Import Packaging DiscoverTag Props.

Section Payload.
Variables (tag version error_text : string) (staleness : option Z).

Lemma success_found :
  found (Returns (_output_success tag version staleness)) = Some (JBool true).
Proof. reflexivity. Qed.

Lemma success_tag :
  reported_tag (Returns (_output_success tag version staleness))
  = Some (JStr tag).
Proof. reflexivity. Qed.

Lemma success_version :
  reported_version (Returns (_output_success tag version staleness))
  = Some (JStr version).
Proof. reflexivity. Qed.

Lemma success_commits_behind :
  commits_behind (Returns (_output_success tag version staleness))
  = Some (json_of_int staleness).
Proof. reflexivity. Qed.

Lemma success_no_error :
  error (Returns (_output_success tag version staleness)) = None.
Proof. reflexivity. Qed.

Lemma not_found_found :
  found (Returns (_output_not_found error_text)) = Some (JBool false).
Proof. reflexivity. Qed.

Lemma not_found_error :
  error (Returns (_output_not_found error_text)) = Some (JStr error_text).
Proof. reflexivity. Qed.

Lemma error_found : found (Returns (_output_error error_text)) = None.
Proof. reflexivity. Qed.

Lemma error_error :
  error (Returns (_output_error error_text)) = Some (JStr error_text).
Proof. reflexivity. Qed.
End Payload.

Section Candidates.

(** [InvalidVersion] is caught: what [_parse_tag] raises is [ValueError]. *)
Lemma parse_tag_raises (tag : string) (e : exception) :
  _parse_tag tag = Raises e -> e = ValueError.
Proof.
  unfold _parse_tag. cbv zeta.
  destruct (Version (Py.lstrip_chars "v" tag)) as [v|[|]]; intros [=];
    congruence.
Qed.

Lemma candidate_raises (matcher : _Version -> bool) (tag : string) e :
  candidate matcher tag = Raises e <-> _parse_tag tag = Raises e.
Proof.
  unfold candidate.
  destruct (_parse_tag tag) as [[v|]|e'];
    unfold mbind, outcome_bind, mret, outcome_ret;
    split; intros H; try discriminate H; injection H as ->; reflexivity.
Qed.

Lemma candidate_returns (matcher : _Version -> bool) (tag : string) c :
  candidate matcher tag = Returns c ->
  (forall t v,
      In (t, v) c <->
      t = tag /\ _parse_tag tag = Returns (Some v) /\ matcher v = true) /\
  exists o, _parse_tag tag = Returns o.
Proof.
  unfold candidate.
  destruct (_parse_tag tag) as [[p|]|e];
    unfold mbind, outcome_bind, mret, outcome_ret;
    [| |discriminate]; intros [= <-]; (split; [|eauto]); intros t v.
  - destruct (matcher p) eqn:M; simpl.
    + split.
      * intros [[= <- <-]|[]]. auto.
      * intros (-> & [= ->] & _). auto.
    + split; [intros [] | intros (_ & [= ->] & Hm); congruence].
  - split; [intros [] | intros (_ & [=] & _)].
Qed.

Lemma candidate_of_parse (matcher : _Version -> bool) (tag : string) o :
  _parse_tag tag = Returns o -> exists c, candidate matcher tag = Returns c.
Proof.
  unfold candidate. intros ->.
  unfold mbind, outcome_bind, mret, outcome_ret. destruct o; eauto.
Qed.

(** One turn of the loop adds what the tag contributes. *)
Lemma filter_loop_cons (matcher : _Version -> bool) tag tags acc :
  filter_loop matcher (tag :: tags) acc
  = c ← candidate matcher tag; filter_loop matcher tags (acc ++ c).
Proof.
  unfold candidate. simpl.
  destruct (_parse_tag tag) as [[p|]|e]; simpl; [| |reflexivity].
  - destruct (matcher p); [reflexivity | rewrite app_nil_r; reflexivity].
  - rewrite app_nil_r. reflexivity.
Qed.

Lemma filter_loop_returns (matcher : _Version -> bool) (tags : list string) :
  forall acc cs,
    filter_loop matcher tags acc = Returns cs ->
    (forall tag, In tag tags -> exists o, _parse_tag tag = Returns o) /\
    exists more,
      cs = acc ++ more /\
      forall t v,
        In (t, v) more <->
        In t tags /\ _parse_tag t = Returns (Some v) /\ matcher v = true.
Proof.
  induction tags as [|tag tags IH]; intros acc cs.
  - simpl. intros [= <-]. split; [intros ? []|].
    exists []. split; [symmetry; apply app_nil_r|].
    intros t v. split; [intros [] | intros ([] & _)].
  - rewrite filter_loop_cons.
    destruct (candidate matcher tag) as [c|e] eqn:C; simpl; [|discriminate].
    intros H. apply IH in H as (Hall & more & -> & Hmore).
    apply candidate_returns in C as (Hc & Hret).
    split; [intros t [<-|Ht]; auto|].
    exists (c ++ more). split; [symmetry; apply app_assoc|].
    intros t v. rewrite in_app_iff, Hc, Hmore. split.
    + intros [(-> & Hp & Hm) | (Hin & Hp & Hm)]; simpl; auto.
    + intros ([<-|Hin] & Hp & Hm); auto.
Qed.

Lemma filter_loop_total (matcher : _Version -> bool) (tags : list string) :
  (forall tag, In tag tags -> exists o, _parse_tag tag = Returns o) ->
  forall acc, exists cs, filter_loop matcher tags acc = Returns cs.
Proof.
  induction tags as [|tag tags IH]; intros Hall acc; [simpl; eauto|].
  rewrite filter_loop_cons.
  destruct (Hall tag) as (o & Ho); [left; reflexivity|].
  destruct (candidate_of_parse matcher tag o Ho) as (c & ->). simpl.
  apply IH. intros t Ht. apply Hall. right. exact Ht.
Qed.

Lemma filter_loop_raises (matcher : _Version -> bool) (tags : list string) :
  forall acc e,
    filter_loop matcher tags acc = Raises e ->
    e = ValueError /\
    exists tag, In tag tags /\ _parse_tag tag = Raises ValueError.
Proof.
  induction tags as [|tag tags IH]; intros acc e; [discriminate|].
  rewrite filter_loop_cons.
  destruct (candidate matcher tag) as [c|e'] eqn:C; simpl.
  - intros H. apply IH in H as (-> & t & Ht & Hp).
    split; [reflexivity|]. exists t. simpl. auto.
  - intros [= ->]. apply candidate_raises in C.
    pose proof (parse_tag_raises _ _ C) as ->.
    split; [reflexivity|]. exists tag. simpl. auto.
Qed.

(** The candidates are the tags that parse and satisfy the predicate of
    the stage, each with its parsed version. *)
Lemma in_filter_by_pattern tags pattern cs tag version :
  _filter_by_pattern tags pattern = Returns cs ->
  In (tag, version) cs <->
  In tag tags /\ _parse_tag tag = Returns (Some version) /\
  matcher_of pattern version = true.
Proof.
  intros H. apply filter_loop_returns in H as (_ & more & -> & Hmore).
  exact (Hmore tag version).
Qed.

(** The filter returns exactly when the parse of every tag returns;
    otherwise it raises [ValueError], as the parse of some tag does. *)
Lemma filter_by_pattern_returns_iff tags pattern :
  (exists cs, _filter_by_pattern tags pattern = Returns cs) <->
  (forall tag, In tag tags -> exists o, _parse_tag tag = Returns o).
Proof.
  split.
  - intros (cs & H). apply filter_loop_returns in H as (Hall & _). exact Hall.
  - intros Hall. apply filter_loop_total, Hall.
Qed.

Lemma filter_by_pattern_raises tags pattern e :
  _filter_by_pattern tags pattern = Raises e ->
  e = ValueError /\
  exists tag, In tag tags /\ _parse_tag tag = Raises ValueError.
Proof. apply filter_loop_raises. Qed.

(** Tags that contribute nothing may be left out. *)
Lemma filter_loop_drop (matcher : _Version -> bool) (keep : string -> bool)
    (tags : list string) :
  (forall tag, In tag tags -> keep tag = false ->
               candidate matcher tag = Returns []) ->
  forall acc,
    filter_loop matcher (List.filter keep tags) acc
    = filter_loop matcher tags acc.
Proof.
  induction tags as [|t tags IH]; intros Hkeep acc; [reflexivity|].
  cbn [List.filter]. destruct (keep t) eqn:K.
  - rewrite !filter_loop_cons.
    destruct (candidate matcher t); simpl; [|reflexivity].
    apply IH. intros; apply Hkeep; simpl; auto.
  - rewrite filter_loop_cons, (Hkeep t); simpl; auto.
    rewrite app_nil_r. apply IH. intros; apply Hkeep; simpl; auto.
Qed.

Lemma candidate_of_none (matcher : _Version -> bool) (tag : string) :
  _parse_tag tag = Returns None -> candidate matcher tag = Returns [].
Proof. unfold candidate. intros ->. reflexivity. Qed.

(** Tags that do not parse contribute nothing. *)
Lemma filter_by_pattern_drop (keep : string -> bool) tags pattern :
  (forall tag, In tag tags -> keep tag = false ->
               _parse_tag tag = Returns None) ->
  _filter_by_pattern (List.filter keep tags) pattern
  = _filter_by_pattern tags pattern.
Proof.
  intros Hkeep. apply filter_loop_drop.
  intros tag Hin K. apply candidate_of_none, Hkeep; assumption.
Qed.

End Candidates.

Section Discover.

Lemma max_from_key {A B K : Type} (g : K -> K -> bool) (f : B -> K)
    (key : A -> B) (items : list A) :
  forall best,
    Py.max_from (fun a b => g (f a) (f b)) key best items
    = Py.max_from g (fun x => f (key x)) best items.
Proof.
  induction items as [|x items IH]; intros best; simpl; [reflexivity|].
  rewrite !IH. reflexivity.
Qed.

Lemma highest_spec first rest :
  In (highest first rest) (first :: rest) /\
  forall c, In c (first :: rest) -> gt (snd c) (snd (highest first rest)) = false.
Proof.
  unfold highest, gt.
  rewrite (max_from_key py_gt _key snd).
  destruct (max_from_spec (fun c : string * _Version => _key (snd c)) rest first)
    as (Hin & Hbest & Hall).
  split.
  - destruct Hin as [->|Hin]; simpl; auto.
  - intros c [<-|Hc]; [exact Hbest | apply Hall, Hc].
Qed.

Lemma discover_none tags pattern use_git env log :
  _filter_by_pattern tags pattern = Returns [] ->
  discover tags pattern use_git env log
  = (Returns (_output_not_found (_stage_guidance pattern)), log).
Proof. intros E. unfold discover. rewrite E. reflexivity. Qed.

Lemma discover_some tags pattern use_git env log first rest :
  _filter_by_pattern tags pattern = Returns (first :: rest) ->
  let version := snd (highest first rest) in
  let tag_str := "v" +:+ to_str version in
  discover tags pattern use_git env log
  = if use_git
    then (Returns (_output_success tag_str (to_str version)
                     (fst (_commits_behind tag_str env log))),
          snd (_commits_behind tag_str env log))
    else (Returns (_output_success tag_str (to_str version) None), log).
Proof.
  intros E. unfold discover, highest. rewrite E.
  destruct (Py.max_from gt snd first rest) as [t v]. simpl.
  destruct use_git; [|reflexivity].
  unfold mbind, run_bind, mret, run_ret.
  destruct (_commits_behind _ env log); reflexivity.
Qed.

(** An exception of the filter goes through [discover], which runs
    nothing. *)
Lemma discover_raises tags pattern use_git env log e :
  _filter_by_pattern tags pattern = Raises e ->
  discover tags pattern use_git env log = (Raises e, log).
Proof. intros E. unfold discover. rewrite E. reflexivity. Qed.

End Discover.

Section NumericOrder.

(** Between two releases with a dev segment only, the release numbers
    decide, compared number by number, and then the dev numbers. *)
Lemma dev_releases_compare_numerically (r1 r2 : list Z) (n1 n2 : Z) :
  cmp (_key (dev_release r1 n1)) (_key (dev_release r2 n2))
  = lex (cmp (strip_trailing_zeros r1) (strip_trailing_zeros r2))
        (Z.compare n1 n2).
Proof.
  change (cmp (_key (dev_release r1 n1)) (_key (dev_release r2 n2)))
    with (lex (lex (lex (lex (lex Eq
            (cmp (strip_trailing_zeros r1) (strip_trailing_zeros r2)))
            Eq) Eq) (Z.compare n1 n2)) Eq).
  destruct (cmp (strip_trailing_zeros r1) (strip_trailing_zeros r2));
    destruct (Z.compare n1 n2); reflexivity.
Qed.

(** The same between two releases with an rc segment only. *)
Lemma rc_releases_compare_numerically (r1 r2 : list Z) (n1 n2 : Z) :
  cmp (_key (rc_release r1 n1)) (_key (rc_release r2 n2))
  = lex (cmp (strip_trailing_zeros r1) (strip_trailing_zeros r2))
        (Z.compare n1 n2).
Proof.
  change (cmp (_key (rc_release r1 n1)) (_key (rc_release r2 n2)))
    with (lex (lex (lex (lex (lex Eq
            (cmp (strip_trailing_zeros r1) (strip_trailing_zeros r2)))
            (Z.compare n1 n2)) Eq) Eq) Eq).
  destruct (cmp (strip_trailing_zeros r1) (strip_trailing_zeros r2));
    destruct (Z.compare n1 n2); reflexivity.
Qed.

End NumericOrder.

(** C1. Whenever the filter returns candidates and there is one,
    [discover] reports a candidate version that no candidate exceeds in
    the order of the version keys, which compares release numbers and
    suffix numbers as integers.  Of the dev tags with suffixes 1 to 11 it
    reports suffix 11, although as a string the tag with suffix 9 is the
    greater one; of [v1.1.22.dev2] and [v1.1.23.dev1] it reports
    [v1.1.23.dev1]. *)
Theorem discover_selects_numeric_maximum :
  (forall tags pattern use_git env candidates,
      pattern = "dev" \/ pattern = "rc" ->
      _filter_by_pattern tags pattern = Returns candidates ->
      candidates <> [] ->
      exists tag version,
        In (tag, version) candidates /\
        (forall tag' version',
            In (tag', version') candidates -> gt version' version = false) /\
        found (result_of (discover tags pattern use_git) env) = Some (JBool true) /\
        reported_version (result_of (discover tags pattern use_git) env)
        = Some (JStr (to_str version))) /\
  (forall env,
      result_of (discover dev_tags_digit_transition "dev" false) env
      = Returns (_output_success "v1.1.23.dev11" "1.1.23.dev11" None)) /\
  cmp "v1.1.23.dev9" "v1.1.23.dev11" = Gt /\
  (forall env,
      result_of (discover ["v1.1.22.dev2"; "v1.1.23.dev1"] "dev" false) env
      = Returns (_output_success "v1.1.23.dev1" "1.1.23.dev1" None)).
Proof.
  split; [|split; [|split]].
  - intros tags pattern use_git env candidates _ E Hne.
    destruct candidates as [|first rest]; [congruence|].
    destruct (highest_spec first rest) as (Hin & Hmax).
    exists (fst (highest first rest)), (snd (highest first rest)).
    rewrite <- surjective_pairing. split; [exact Hin|]. split.
    + intros tag' version' H'. apply (Hmax (tag', version') H').
    + unfold result_of. rewrite (discover_some _ _ _ _ _ _ _ E).
      destruct use_git; simpl; split; reflexivity.
  - intros env. vm_compute. reflexivity.
  - reflexivity.
  - intros env. vm_compute. reflexivity.
Qed.

Lemma discover_selects_numeric_maximum_witness :
  exists tag version,
    In (tag, version)
       [("v1.1.22.dev1", dev_release [1; 1; 22]%Z 1);
        ("v1.1.22.dev2", dev_release [1; 1; 22]%Z 2);
        ("v1.1.23.dev1", dev_release [1; 1; 23]%Z 1)] /\
    (forall tag' version',
        In (tag', version')
           [("v1.1.22.dev1", dev_release [1; 1; 22]%Z 1);
            ("v1.1.22.dev2", dev_release [1; 1; 22]%Z 2);
            ("v1.1.23.dev1", dev_release [1; 1; 23]%Z 1)] ->
        gt version' version = false) /\
    found (result_of (discover dev_tags_mixed_versions "dev" false) no_repository)
    = Some (JBool true) /\
    reported_version
      (result_of (discover dev_tags_mixed_versions "dev" false) no_repository)
    = Some (JStr (to_str version)).
Proof.
  apply (proj1 discover_selects_numeric_maximum
           dev_tags_mixed_versions "dev" false no_repository).
  - left. reflexivity.
  - vm_compute. reflexivity.
  - discriminate.
Defined.

(** C2, as stated, fails: from the collection that holds the one tag
    [1.1.23.dev1], dev discovery reports [v1.1.23.dev1], which is not in
    the collection. *)
Lemma discover_reports_a_tag_not_supplied :
  _filter_by_pattern ["1.1.23.dev1"] "dev"
  = Returns [("1.1.23.dev1", dev_release [1; 1; 23]%Z 1)] /\
  reported_tag (result_of (discover ["1.1.23.dev1"] "dev" false) no_repository)
  = Some (JStr "v1.1.23.dev1") /\
  ~ In "v1.1.23.dev1" ["1.1.23.dev1"].
Proof.
  split; [vm_compute; reflexivity|]. split; [vm_compute; reflexivity|].
  intros [H|[]]. discriminate H.
Qed.

(** C2, amended. Whenever the filter returns candidates and there is one,
    the tag [discover] reports is the letter v followed by the canonical
    text of a version; that version is the parse of a member of the
    collection that satisfies the predicate of the stage, and the parse of
    no such member exceeds it. *)
Theorem discover_reports_canonical_tag_of_maximum :
  forall tags pattern use_git env candidates,
    pattern = "dev" \/ pattern = "rc" ->
    _filter_by_pattern tags pattern = Returns candidates ->
    candidates <> [] ->
    exists tag version,
      In tag tags /\ _parse_tag tag = Returns (Some version) /\
      matcher_of pattern version = true /\
      (forall tag' version',
          In tag' tags -> _parse_tag tag' = Returns (Some version') ->
          matcher_of pattern version' = true -> gt version' version = false) /\
      reported_tag (result_of (discover tags pattern use_git) env)
      = Some (JStr ("v" +:+ to_str version)) /\
      reported_version (result_of (discover tags pattern use_git) env)
      = Some (JStr (to_str version)).
Proof.
  intros tags pattern use_git env candidates _ E Hne.
  destruct candidates as [|first rest]; [congruence|].
  destruct (highest_spec first rest) as (Hin & Hmax).
  destruct (highest first rest) as [tag version] eqn:Eh.
  apply (in_filter_by_pattern _ _ _ _ _ E) in Hin as (Htag & Hparse & Hmatch).
  exists tag, version. repeat (split; [assumption|]). split.
  - intros tag' version' Hin' Hparse' Hmatch'.
    apply (Hmax (tag', version')).
    apply (in_filter_by_pattern _ _ _ _ _ E). auto.
  - unfold result_of. rewrite (discover_some _ _ _ _ _ _ _ E), Eh.
    destruct use_git; simpl; split; reflexivity.
Qed.

Lemma discover_reports_canonical_tag_of_maximum_witness :
  exists tag version,
    In tag ["1.1.23.dev1"] /\ _parse_tag tag = Returns (Some version) /\
    matcher_of "dev" version = true /\
    (forall tag' version',
        In tag' ["1.1.23.dev1"] -> _parse_tag tag' = Returns (Some version') ->
        matcher_of "dev" version' = true -> gt version' version = false) /\
    reported_tag (result_of (discover ["1.1.23.dev1"] "dev" false) no_repository)
    = Some (JStr ("v" +:+ to_str version)) /\
    reported_version (result_of (discover ["1.1.23.dev1"] "dev" false) no_repository)
    = Some (JStr (to_str version)).
Proof.
  apply (discover_reports_canonical_tag_of_maximum
           ["1.1.23.dev1"] "dev" false no_repository
           [("1.1.23.dev1", dev_release [1; 1; 23]%Z 1)]).
  - left. reflexivity.
  - vm_compute. reflexivity.
  - discriminate.
Defined.

Section Raising.

Lemma only_value_error_ret {A : Type} (a : A) : only_value_error (mret a).
Proof. intros e [=]. Qed.

Lemma only_value_error_bind {A B : Type} (m : outcome A) (f : A -> outcome B) :
  only_value_error m -> (forall a, only_value_error (f a)) ->
  only_value_error (m ≫= f).
Proof.
  intros Hm Hf e. destruct m as [a|e']; simpl.
  - apply Hf.
  - intros [= <-]. apply Hm. reflexivity.
Qed.

Lemma only_value_error_int_digits (s : string) :
  only_value_error (Py.int_digits s).
Proof.
  intros e. unfold Py.int_digits.
  destruct (Py.int_max_str_digits <? String.length s)%nat; intros [=].
  congruence.
Qed.

Lemma only_value_error_mapM {A B : Type} (f : A -> outcome B) (l : list A) :
  (forall x, only_value_error (f x)) -> only_value_error (mapM f l).
Proof.
  intros Hf. induction l as [|x l IH]; simpl.
  - apply only_value_error_ret.
  - apply only_value_error_bind; [apply Hf|]. intros y.
    apply only_value_error_bind; [exact IH|]. intros ys.
    apply only_value_error_ret.
Qed.

Lemma only_value_error_letter (letter number : option string) :
  only_value_error (_parse_letter_version letter number).
Proof.
  unfold _parse_letter_version.
  destruct (is_truthy letter).
  - apply only_value_error_bind; [|intros; apply only_value_error_ret].
    destruct number; [apply only_value_error_int_digits
                     | apply only_value_error_ret].
  - destruct (is_truthy number); [|apply only_value_error_ret].
    apply only_value_error_bind; [apply only_value_error_int_digits|].
    intros; apply only_value_error_ret.
Qed.

Lemma only_value_error_local (local : option string) :
  only_value_error (_parse_local_version local).
Proof.
  unfold _parse_local_version.
  destruct local as [l|]; [|apply only_value_error_ret].
  apply only_value_error_bind; [|intros; apply only_value_error_ret].
  apply only_value_error_mapM. intros part.
  destruct (isdigit part); [|apply only_value_error_ret].
  apply only_value_error_bind; [apply only_value_error_int_digits|].
  intros; apply only_value_error_ret.
Qed.

(** [Version] raises [InvalidVersion] when the pattern does not match,
    and nothing but [ValueError] when it does. *)
Lemma version_raises (version : string) (e : exception) :
  Version version = Raises e ->
  (e = InvalidVersion /\ Re.search _regex version = None) \/
  (e = ValueError /\ Re.search _regex version <> None).
Proof.
  unfold Version. destruct (Re.search _regex version) as [m|].
  - intros H. right. split; [|discriminate]. revert e H.
    match goal with
    | |- forall e, ?o = Raises e -> _ => change (only_value_error o)
    end.
    apply only_value_error_bind.
    { destruct (is_truthy _); [apply only_value_error_int_digits
                              | apply only_value_error_ret]. }
    intros ?. apply only_value_error_bind.
    { apply only_value_error_mapM, only_value_error_int_digits. }
    intros ?. apply only_value_error_bind; [apply only_value_error_letter|].
    intros ?. apply only_value_error_bind; [apply only_value_error_letter|].
    intros ?. apply only_value_error_bind; [apply only_value_error_letter|].
    intros ?. apply only_value_error_bind; [apply only_value_error_local|].
    intros ?. apply only_value_error_ret.
  - intros [= <-]. left. split; reflexivity.
Qed.

End Raising.

Section Parsing.

Lemma parse_tag_leading_v (tag : string) :
  _parse_tag (String "v" tag) = _parse_tag tag.
Proof. reflexivity. Qed.

Lemma parse_tag_none_iff (tag : string) :
  _parse_tag tag = Returns None <->
  Re.search _regex (Py.lstrip_chars "v" tag) = None.
Proof.
  unfold _parse_tag. cbv zeta.
  destruct (Version (Py.lstrip_chars "v" tag)) as [v|e] eqn:E.
  - split; [discriminate|]. intros H. unfold Version in E.
    rewrite H in E. discriminate E.
  - destruct (version_raises _ _ E) as [(-> & H) | (-> & H)].
    + split; [intros _; exact H | reflexivity].
    + split; [discriminate | intros H'; contradiction].
Qed.

Lemma discover_drop (keep : string -> bool) tags pattern use_git :
  (forall tag, In tag tags -> keep tag = false ->
               _parse_tag tag = Returns None) ->
  discover (List.filter keep tags) pattern use_git
  = discover tags pattern use_git.
Proof.
  intros Hkeep. unfold discover.
  rewrite (filter_by_pattern_drop keep tags pattern Hkeep). reflexivity.
Qed.

End Parsing.

(** C5, as stated, fails: with one leading v removed, [vvv1.0.0.dev1] is
    [vv1.0.0.dev1], which the version grammar rejects, and yet the tag
    parses, to the version 1.0.0.dev1. *)
Lemma parse_strips_more_than_one_v :
  Version (strip_one_v "vvv1.0.0.dev1") = Raises InvalidVersion /\
  _parse_tag "vvv1.0.0.dev1" = Returns (Some (dev_release [1; 0; 0]%Z 1)).
Proof. split; vm_compute; reflexivity. Qed.

(** C5, amended. [_parse_tag] removes every leading v; it yields [None],
    and nothing else, exactly when what is left does not match the version
    grammar; so [discover] gives the same result, and runs the same
    commands, on a collection and on that collection without some of its
    tags that do not parse, such as [not-a-version] and [garbage]. *)
Theorem parse_tolerates_invalid_tags :
  (forall tag, _parse_tag (String "v" tag) = _parse_tag tag) /\
  (forall tag,
      _parse_tag tag = Returns None <->
      Re.search _regex (Py.lstrip_chars "v" tag) = None) /\
  (forall keep tags pattern use_git,
      (forall tag, In tag tags -> keep tag = false ->
                   _parse_tag tag = Returns None) ->
      discover (List.filter keep tags) pattern use_git
      = discover tags pattern use_git) /\
  _parse_tag "not-a-version" = Returns None /\
  _parse_tag "garbage" = Returns None /\
  (forall pattern use_git,
      discover ["not-a-version"; "v1.1.22.dev1"; "garbage"; "v1.1.23.dev1"]
        pattern use_git
      = discover ["v1.1.22.dev1"; "v1.1.23.dev1"] pattern use_git).
Proof.
  split; [exact parse_tag_leading_v|].
  split; [exact parse_tag_none_iff|].
  split; [exact discover_drop|].
  split; [vm_compute; reflexivity|].
  split; [vm_compute; reflexivity|].
  intros pattern use_git.
  apply (discover_drop parses
           ["not-a-version"; "v1.1.22.dev1"; "garbage"; "v1.1.23.dev1"]).
  intros tag _. unfold parses.
  destruct (_parse_tag tag) as [[v|]|e]; [discriminate | reflexivity | discriminate].
Qed.

Lemma parse_tolerates_invalid_tags_witness :
  discover (List.filter parses ["garbage"; "v1.1.23.dev1"]) "dev" false
  = discover ["garbage"; "v1.1.23.dev1"] "dev" false.
Proof.
  apply (proj1 (proj2 (proj2 parse_tolerates_invalid_tags))
           parses ["garbage"; "v1.1.23.dev1"] "dev" false).
  intros tag [<-|[<-|[]]]; vm_compute; congruence.
Defined.

Section Validate.

Lemma tag_in_list (target : string) (tags : list string) :
  existsb (String.eqb target) tags = true <-> In target tags.
Proof.
  rewrite existsb_exists. split.
  - intros (x & Hx & E). apply String.eqb_eq in E. subst. exact Hx.
  - intros Hin. exists target. split; [exact Hin | apply String.eqb_refl].
Qed.

Lemma tag_not_in_list (target : string) (tags : list string) :
  existsb (String.eqb target) tags = false <-> ~ In target tags.
Proof.
  rewrite <- tag_in_list. destruct (existsb (String.eqb target) tags);
    split; congruence.
Qed.

(** What [validate] comes to, by the membership of the target and the
    outcome of its parse. *)
Lemma validate_member tags target :
  In target tags ->
  validate tags target
  = match _parse_tag target with
    | Returns (Some parsed) =>
        Returns (_output_success target (to_str parsed) None)
    | Returns None =>
        Returns (_output_not_found
                   ("Tag '" +:+ target +:+ "' not found in tag list."))
    | Raises e => Raises e
    end.
Proof.
  intros Hin. apply tag_in_list in Hin. unfold validate. rewrite Hin.
  destruct (_parse_tag target) as [[v|]|e]; reflexivity.
Qed.

Lemma validate_stranger tags target :
  ~ In target tags ->
  validate tags target
  = Returns (_output_not_found
               ("Tag '" +:+ target +:+ "' not found in tag list.")).
Proof.
  intros Hin. apply tag_not_in_list in Hin. unfold validate. rewrite Hin.
  reflexivity.
Qed.

End Validate.

(** C6. A target that is in the collection and holds a number of more
    than 4300 digits makes [validate] end in the [ValueError] of [int()],
    which [_parse_tag] does not catch: the run reports neither found nor
    not-found, prints no payload, and its exit status is 1. *)
Theorem validate_raises_on_overlong_number :
  In overlong_tag [overlong_tag] /\
  validate [overlong_tag] overlong_tag = Raises ValueError /\
  printed (validate [overlong_tag] overlong_tag) = None /\
  found (validate [overlong_tag] overlong_tag) = None /\
  exit_status (validate [overlong_tag] overlong_tag) = 1%Z.
Proof.
  assert (H : validate [overlong_tag] overlong_tag = Raises ValueError)
    by (vm_compute; reflexivity).
  split; [left; reflexivity|]. rewrite H. repeat split.
Qed.

Section Main.

Lemma pattern_rejected (pattern : string) :
  pattern <> "dev" -> pattern <> "rc" ->
  existsb (String.eqb pattern) ["dev"; "rc"] = false.
Proof.
  intros Hd Hr. simpl.
  apply String.eqb_neq in Hd. apply String.eqb_neq in Hr.
  rewrite Hd, Hr. reflexivity.
Qed.

(** With an explicit list nothing is run, and the list alone decides. *)
Lemma main_explicit args tag_list env log :
  args_tag_list args = Some tag_list ->
  main args env log
  = (if negb (existsb (String.eqb (args_pattern args)) ["dev"; "rc"])
     then Returns
            (_output_error
               ("Invalid pattern '" +:+ args_pattern args
                  +:+ "'. Must be 'dev' or 'rc'."))
     else match args_validate args with
          | Some target => validate (_split_tag_list tag_list) target
          | None =>
              fst (discover (_split_tag_list tag_list) (args_pattern args)
                     false env log)
          end,
     log).
Proof.
  intros E. unfold main. rewrite E.
  destruct (negb (existsb (String.eqb (args_pattern args)) ["dev"; "rc"]));
    [reflexivity|].
  unfold mbind, run_bind, mret, run_ret.
  destruct (args_validate args) as [target|]; [reflexivity|].
  destruct (_filter_by_pattern (_split_tag_list tag_list) (args_pattern args))
    as [[|first rest]|e] eqn:F.
  - rewrite (discover_none _ _ _ _ _ F). reflexivity.
  - rewrite (discover_some _ _ _ _ _ _ _ F). reflexivity.
  - rewrite (discover_raises _ _ _ _ _ _ F). reflexivity.
Qed.

Lemma validate_staleness tags target :
  found (validate tags target) = Some (JBool true) ->
  commits_behind (validate tags target) = Some JNull /\
  exit_status (validate tags target) = 0%Z /\
  error (validate tags target) = None.
Proof.
  unfold validate.
  destruct (existsb (String.eqb target) tags); [|discriminate].
  destruct (_parse_tag target) as [[v|]|e]; [|discriminate|discriminate].
  intros _. repeat split.
Qed.

Lemma discover_explicit_staleness tags pattern env log :
  let e := fst (discover tags pattern false env log) in
  found e = Some (JBool true) ->
  commits_behind e = Some JNull /\ exit_status e = 0%Z /\ error e = None.
Proof.
  destruct (_filter_by_pattern tags pattern) as [[|first rest]|e] eqn:F; simpl.
  - rewrite (discover_none _ _ _ _ _ F). discriminate.
  - rewrite (discover_some _ _ _ _ _ _ _ F). intros _. repeat split.
  - rewrite (discover_raises _ _ _ _ _ _ F). discriminate.
Qed.

End Main.

(** C7. When the filter returns no candidate, [discover] reports
    not-found with the guidance of the stage, and the guidance for dev
    differs from that for rc.  A pattern other than dev and rc makes
    [main] report an error without running anything and without parsing a
    tag: the exit status is 2 instead of 1, and the payload has no [found]
    field. *)
Theorem empty_and_invalid_requests_are_told_apart :
  (forall tags pattern use_git env,
      _filter_by_pattern tags pattern = Returns [] ->
      result_of (discover tags pattern use_git) env
      = Returns (_output_not_found (_stage_guidance pattern))) /\
  _stage_guidance "dev" <> _stage_guidance "rc" /\
  (forall args env,
      args_pattern args <> "dev" -> args_pattern args <> "rc" ->
      result_of (main args) env
      = Returns (_output_error ("Invalid pattern '" +:+ args_pattern args
                                  +:+ "'. Must be 'dev' or 'rc'.")) /\
      commands_of (main args) env = []) /\
  (forall text text',
      exit_status (Returns (_output_not_found text)) = 1%Z /\
      exit_status (Returns (_output_error text')) = 2%Z /\
      found (Returns (_output_not_found text)) = Some (JBool false) /\
      found (Returns (_output_error text')) = None /\
      error (Returns (_output_not_found text)) = Some (JStr text)).
Proof.
  split; [|split; [|split]].
  - intros tags pattern use_git env E. unfold result_of.
    rewrite (discover_none _ _ _ _ _ E). reflexivity.
  - vm_compute. discriminate.
  - intros args env Hd Hr. unfold result_of, commands_of, main.
    rewrite (pattern_rejected _ Hd Hr). split; reflexivity.
  - intros text text'. repeat split.
Qed.

Lemma empty_and_invalid_requests_are_told_apart_witness :
  result_of (discover ["v1.1.23rc1"; "garbage"] "dev" false) no_repository
  = Returns (_output_not_found (_stage_guidance "dev")) /\
  result_of
    (main {| args_pattern := "stable"; args_validate := None;
             args_tag_list := Some "v1.0.0" |}) no_repository
  = Returns (_output_error "Invalid pattern 'stable'. Must be 'dev' or 'rc'.").
Proof.
  split.
  - apply (proj1 empty_and_invalid_requests_are_told_apart
             ["v1.1.23rc1"; "garbage"] "dev" false no_repository).
    vm_compute. reflexivity.
  - apply (proj1 (proj2 (proj2 empty_and_invalid_requests_are_told_apart))
             {| args_pattern := "stable"; args_validate := None;
                args_tag_list := Some "v1.0.0" |} no_repository);
      simpl; discriminate.
Defined.

Section LivePath.

Lemma git_tags_log env log :
  snd (_git_tags env log) = log ++ [["git"; "tag"; "-l"]].
Proof.
  unfold _git_tags, mbind, run_bind, subprocess_run.
  destruct (negb _); reflexivity.
Qed.

Lemma commits_behind_log tag env log :
  snd (_commits_behind tag env log)
  = log ++ [["git"; "rev-list"; "--count"; tag +:+ "..HEAD"]].
Proof.
  unfold _commits_behind, mbind, run_bind, subprocess_run.
  destruct (negb _); reflexivity.
Qed.

(** A run only ever adds to the log. *)
Lemma discover_log tags pattern use_git env log :
  exists more, snd (discover tags pattern use_git env log) = log ++ more.
Proof.
  destruct (_filter_by_pattern tags pattern) as [[|first rest]|e] eqn:F.
  - rewrite (discover_none _ _ _ _ _ F). exists []. symmetry. apply app_nil_r.
  - rewrite (discover_some _ _ _ _ _ _ _ F). destruct use_git; simpl.
    + rewrite commits_behind_log. eauto.
    + exists []. symmetry. apply app_nil_r.
  - rewrite (discover_raises _ _ _ _ _ _ F). exists []. symmetry.
    apply app_nil_r.
Qed.

End LivePath.

(** C9. When the caller supplies the tag list, [main] runs no git command,
    and a result that reports a tag as found carries [null] as its
    [commits_behind], with exit status 0 and no error.  When the caller
    supplies none, the first thing [main] does is ask git for the tags. *)
Theorem explicit_tag_list_leaves_staleness_unavailable :
  (forall args tag_list env,
      args_tag_list args = Some tag_list ->
      commands_of (main args) env = [] /\
      (found (result_of (main args) env) = Some (JBool true) ->
       commits_behind (result_of (main args) env) = Some JNull /\
       exit_status (result_of (main args) env) = 0%Z /\
       error (result_of (main args) env) = None)) /\
  (forall args env,
      args_tag_list args = None ->
      args_pattern args = "dev" \/ args_pattern args = "rc" ->
      exists more,
        commands_of (main args) env = ["git"; "tag"; "-l"] :: more).
Proof.
  split.
  - intros args tag_list env E. unfold commands_of, result_of.
    rewrite (main_explicit _ _ _ _ E). split; [reflexivity|]. cbn [fst].
    destruct (negb (existsb (String.eqb (args_pattern args)) ["dev"; "rc"]));
      [discriminate|].
    destruct (args_validate args) as [target|].
    + apply validate_staleness.
    + apply discover_explicit_staleness.
  - intros args env E Hp. unfold commands_of, main. rewrite E.
    assert (Hok : existsb (String.eqb (args_pattern args)) ["dev"; "rc"] = true)
      by (destruct Hp as [-> | ->]; reflexivity).
    rewrite Hok. simpl. unfold mbind, run_bind.
    pose proof (git_tags_log env []) as Hlog.
    destruct (_git_tags env []) as [tags log]. simpl in Hlog. subst log.
    destruct (args_validate args) as [target|].
    + exists []. reflexivity.
    + destruct (discover_log tags (args_pattern args) true env
                  [["git"; "tag"; "-l"]]) as (more & ->).
      exists more. reflexivity.
Qed.

Lemma explicit_tag_list_leaves_staleness_unavailable_witness :
  commits_behind
    (result_of
       (main {| args_pattern := "dev"; args_validate := None;
                args_tag_list := Some "v1.1.22.dev1,v1.1.22.dev2,v1.1.23.dev1" |})
       no_repository)
  = Some JNull.
Proof.
  apply (proj1 explicit_tag_list_leaves_staleness_unavailable
           {| args_pattern := "dev"; args_validate := None;
              args_tag_list := Some "v1.1.22.dev1,v1.1.22.dev2,v1.1.23.dev1" |}
           "v1.1.22.dev1,v1.1.22.dev2,v1.1.23.dev1" no_repository).
  - reflexivity.
  - vm_compute. reflexivity.
Defined.

(** C10. The tag [v1.0.0rc1.dev1] parses to a version for which both
    [_is_dev_tag] and [_is_rc_tag] hold, so that in any collection that
    holds it the tag is a candidate of the dev stage and of the rc stage. *)
Theorem dev_and_rc_predicates_overlap :
  exists version,
    _parse_tag "v1.0.0rc1.dev1" = Returns (Some version) /\
    _is_dev_tag version = true /\
    _is_rc_tag version = true /\
    forall tags,
      In "v1.0.0rc1.dev1" tags ->
      (forall candidates,
          _filter_by_pattern tags "dev" = Returns candidates ->
          In ("v1.0.0rc1.dev1", version) candidates) /\
      (forall candidates,
          _filter_by_pattern tags "rc" = Returns candidates ->
          In ("v1.0.0rc1.dev1", version) candidates).
Proof.
  eexists. split; [vm_compute; reflexivity|].
  split; [reflexivity|]. split; [reflexivity|].
  intros tags Hin.
  split; intros candidates E; apply (in_filter_by_pattern _ _ _ _ _ E);
    (split; [exact Hin|]); split; vm_compute; reflexivity.
Qed.

Lemma dev_and_rc_predicates_overlap_witness :
  exists version,
    (forall candidates,
        _filter_by_pattern ["v1.0.0"; "v1.0.0rc1.dev1"] "dev"
        = Returns candidates ->
        In ("v1.0.0rc1.dev1", version) candidates) /\
    (forall candidates,
        _filter_by_pattern ["v1.0.0"; "v1.0.0rc1.dev1"] "rc"
        = Returns candidates ->
        In ("v1.0.0rc1.dev1", version) candidates).
Proof.
  destruct dev_and_rc_predicates_overlap as (version & _ & _ & _ & H).
  exists version. apply (H ["v1.0.0"; "v1.0.0rc1.dev1"]).
  simpl. auto.
Defined.

(* ===================================================================== *)
(** * Commit classification and rendering *)
(* ===================================================================== *)

Import GenerateChangelog.

Section Classification.

Lemma app_one_neq {A} (l : list A) (x : A) : l ++ [x] <> l.
Proof.
  intros E. apply (f_equal (@length A)) in E.
  rewrite length_app in E. simpl in E. lia.
Qed.

(** The four ways of adding an entry differ. *)
Lemma features_not_breaking acc line line' :
  features_append acc line <> breaking_append acc line'.
Proof.
  intros E. apply (f_equal breaking) in E. simpl in E.
  symmetry in E. exact (app_one_neq _ _ E).
Qed.

Lemma fixes_not_breaking acc line line' :
  fixes_append acc line <> breaking_append acc line'.
Proof.
  intros E. apply (f_equal breaking) in E. simpl in E.
  symmetry in E. exact (app_one_neq _ _ E).
Qed.

Lemma other_not_breaking acc line line' :
  other_append acc line <> breaking_append acc line'.
Proof.
  intros E. apply (f_equal breaking) in E. simpl in E.
  symmetry in E. exact (app_one_neq _ _ E).
Qed.

Lemma has_bang_conventional subject :
  has_bang subject = true -> conventional subject = true.
Proof.
  unfold has_bang, conventional.
  destruct (_parse_conventional_commit subject); [reflexivity | discriminate].
Qed.

(** Where a commit that is not left out goes. *)
Lemma categorize_commit_cases acc subject body sha :
  excluded subject = false ->
  categorize_commit acc subject body sha
  = if has_bang subject || Py.contains "BREAKING CHANGE:" body
    then breaking_append acc (entry_line subject sha)
    else match type_of subject with
         | Some "feat" => features_append acc (entry_line subject sha)
         | Some "fix" => fixes_append acc (entry_line subject sha)
         | _ => other_append acc (entry_line subject sha)
         end.
Proof.
  unfold excluded, categorize_commit, has_bang, type_of. intros ->.
  destruct (_parse_conventional_commit subject) as [p|]; simpl.
  - destruct (bang p || Py.contains "BREAKING CHANGE:" body); [reflexivity|].
    destruct (String.eqb (type p) "feat") eqn:F.
    + apply String.eqb_eq in F. rewrite F. reflexivity.
    + destruct (String.eqb (type p) "fix") eqn:X.
      * apply String.eqb_eq in X. rewrite X. reflexivity.
      * apply String.eqb_neq in F. apply String.eqb_neq in X.
        destruct (string_dec (type p) "feat"); [contradiction|].
        destruct (string_dec (type p) "fix"); [contradiction|].
        clear F X. revert n n0. generalize (type p). intros t Hf Hx.
        repeat (match goal with
                | |- context [match ?s with EmptyString => _ | String _ _ => _ end] =>
                    destruct s; try reflexivity
                | |- context [match ?a with Ascii _ _ _ _ _ _ _ _ => _ end] =>
                    destruct a
                | |- context [if ?b then _ else _] => destruct b; try reflexivity
                end); congruence.
  - destruct (Py.contains "BREAKING CHANGE:" body); reflexivity.
Qed.

End Classification.

(** C3, as stated, fails: the subject [updated readme] does not match the
    grammar, and with a body that holds [BREAKING CHANGE:] the commit is
    still entered under breaking, not under other. *)
Lemma breaking_body_on_unconventional_subject :
  excluded "updated readme" = false /\
  conventional "updated readme" = false /\
  categorize_commit no_lists "updated readme"
    "BREAKING CHANGE: the old endpoints are gone" "abc1234"
  = breaking_append no_lists (entry_line "updated readme" "abc1234").
Proof. repeat split. Qed.

(** C3, amended. A commit that is not left out is entered under breaking
    if and only if its subject matches the grammar with the [!] marker or
    its body holds [BREAKING CHANGE:], whether or not the subject matches.
    So [feat!: x] is entered under breaking, and a subject that does not
    match, with a body without the marker, is entered under other. *)
Theorem breaking_iff_bang_or_body_marker :
  forall acc subject body sha,
    excluded subject = false ->
    (categorize_commit acc subject body sha
     = breaking_append acc (entry_line subject sha) <->
     (conventional subject = true /\ has_bang subject = true) \/
     Py.contains "BREAKING CHANGE:" body = true) /\
    (conventional subject = false ->
     Py.contains "BREAKING CHANGE:" body = false ->
     categorize_commit acc subject body sha
     = other_append acc (entry_line subject sha)) /\
    categorize_commit acc "feat!: x" body sha
    = breaking_append acc (entry_line "feat!: x" sha).
Proof.
  intros acc subject body sha Hex.
  rewrite (categorize_commit_cases acc subject body sha Hex).
  split; [|split].
  - destruct (has_bang subject) eqn:B; simpl.
    + split; [|reflexivity]. intros _. left.
      split; [apply has_bang_conventional, B | reflexivity].
    + destruct (Py.contains "BREAKING CHANGE:" body) eqn:M.
      * split; [auto | reflexivity].
      * split.
        -- intros E. exfalso. revert E. unfold type_of.
           destruct (_parse_conventional_commit subject) as [p|]; simpl;
             [|apply other_not_breaking].
           destruct (string_dec (type p) "feat") as [-> | Hf];
             [apply features_not_breaking|].
           destruct (string_dec (type p) "fix") as [-> | Hx];
             [apply fixes_not_breaking|].
           intros E.
           repeat (match type of E with
                   | context [match ?s with EmptyString => _ | String _ _ => _ end] =>
                       destruct s
                   | context [match ?a with Ascii _ _ _ _ _ _ _ _ => _ end] =>
                       destruct a
                   | context [if ?b then _ else _] => destruct b
                   end;
                   try (exact (other_not_breaking _ _ _ E));
                   try congruence).
        -- intros [[_ [=]] | [=]].
  - intros Hc Hm. unfold has_bang, type_of. unfold conventional in Hc.
    destruct (_parse_conventional_commit subject); [discriminate|].
    simpl. rewrite Hm. reflexivity.
  - reflexivity.
Qed.

Lemma breaking_iff_bang_or_body_marker_witness :
  categorize_commit no_lists "feat(api)!: new endpoints" "" "abc1234"
  = breaking_append no_lists (entry_line "feat(api)!: new endpoints" "abc1234").
Proof.
  apply (proj1 (breaking_iff_bang_or_body_marker no_lists
                  "feat(api)!: new endpoints" "" "abc1234" eq_refl)).
  left. split; reflexivity.
Defined.

Section Exclusion.

Lemma categorize_commit_excluded acc subject body sha :
  excluded subject = true -> categorize_commit acc subject body sha = acc.
Proof. unfold excluded, categorize_commit. intros ->. reflexivity. Qed.

Lemma categorize_commit_appends acc subject body sha :
  excluded subject = false ->
  In (categorize_commit acc subject body sha)
     [breaking_append acc (entry_line subject sha);
      features_append acc (entry_line subject sha);
      fixes_append acc (entry_line subject sha);
      other_append acc (entry_line subject sha)].
Proof.
  unfold excluded, categorize_commit. intros ->. simpl.
  destruct (_parse_conventional_commit subject) as [p|]; simpl.
  - destruct (bang p || Py.contains "BREAKING CHANGE:" body); [auto|].
    destruct (String.eqb (type p) "feat"); [auto|].
    destruct (String.eqb (type p) "fix"); auto.
  - destruct (Py.contains "BREAKING CHANGE:" body); auto.
Qed.

Lemma in_all_entries_append acc acc' line entry :
  In acc' [breaking_append acc entry; features_append acc entry;
           fixes_append acc entry; other_append acc entry] ->
  In line (all_entries acc') -> In line (all_entries acc) \/ line = entry.
Proof.
  unfold all_entries.
  intros [<-|[<-|[<-|[<-|[]]]]]; simpl; rewrite !in_app_iff; simpl;
    rewrite ?in_app_iff; simpl; intuition.
Qed.

Lemma categorize_commit_entries acc subject body sha line :
  In line (all_entries (categorize_commit acc subject body sha)) ->
  In line (all_entries acc) \/ kept_entry line.
Proof.
  destruct (excluded subject) eqn:E.
  - rewrite (categorize_commit_excluded _ _ _ _ E). auto.
  - intros Hin.
    destruct (in_all_entries_append _ _ _ _
                (categorize_commit_appends acc subject body sha E) Hin)
      as [H | ->]; [auto|].
    right. exists subject, sha. auto.
Qed.

Lemma categorize_record_entries acc record line :
  In line (all_entries (categorize_record acc record)) ->
  In line (all_entries acc) \/ kept_entry line.
Proof.
  unfold categorize_record.
  destruct (negb (Py.truthy (Py.strip record))); [auto|].
  destruct (Py.split Py.NUL (Py.strip record)) as [|p0 [|p1 [|p2 ps]]]; auto.
  destruct (negb (Py.truthy (Py.strip p0)) || negb (Py.truthy (Py.strip p2)));
    [auto|].
  apply categorize_commit_entries.
Qed.

(** Every entry of the lists stands for a commit that was not left out:
    an invariant of the loop over the records. *)
Lemma fold_records_entries records :
  forall acc line,
    In line (all_entries (fold_left categorize_record records acc)) ->
    In line (all_entries acc) \/ kept_entry line.
Proof.
  induction records as [|r records IH]; intros acc line; simpl; [auto|].
  intros Hin. destruct (IH _ _ Hin) as [H|H]; [|auto].
  apply (categorize_record_entries _ _ _ H).
Qed.

Lemma categorize_log_entries raw_log line :
  In line (all_entries (categorize_log raw_log)) -> kept_entry line.
Proof.
  unfold categorize_log. intros Hin.
  destruct (fold_records_entries _ _ _ Hin) as [[]|H]. exact H.
Qed.

(** The dictionary holds the four lists and nothing else. *)
Lemma categorize_commits_get raw_log key line :
  In line (get (_categorize_commits raw_log) key) ->
  In line (all_entries (categorize_log raw_log)).
Proof.
  unfold get, _categorize_commits, all_entries.
  rewrite !lookup_insert, lookup_empty. rewrite !in_app_iff.
  repeat case_decide; simpl; tauto.
Qed.

End Exclusion.

(** C4. A commit whose subject holds [chore(release):] or [[skip ci]]
    leaves the four lists as they were, whatever its body, its type and its
    markers; and every entry of the four lists that
    [_categorize_commits] returns, which are the entries that get rendered,
    stands for a commit whose subject holds neither. *)
Theorem excluded_commits_reach_no_section :
  (forall acc subject body sha,
      Py.contains "chore(release):" subject = true \/
      Py.contains "[skip ci]" subject = true ->
      categorize_commit acc subject body sha = acc) /\
  (forall raw_log key line,
      In line (get (_categorize_commits raw_log) key) -> kept_entry line) /\
  categorize_log (log_entry "chore(release): v1.0.0 [skip ci]" "" "abc1234")
  = no_lists /\
  categorize_log
    (log_entry "feat!: drop the old API [skip ci]" "BREAKING CHANGE: yes" "abc1234")
  = no_lists.
Proof.
  split; [|split; [|split]].
  - intros acc subject body sha H. apply categorize_commit_excluded.
    unfold excluded. destruct H as [-> | ->]; [reflexivity | apply orb_true_r].
  - intros raw_log key line Hin.
    apply (categorize_log_entries raw_log), (categorize_commits_get _ key), Hin.
  - vm_compute. reflexivity.
  - vm_compute. reflexivity.
Qed.

Lemma excluded_commits_reach_no_section_witness :
  categorize_commit no_lists "fix!: repair the build [skip ci]"
    "BREAKING CHANGE: yes" "abc1234"
  = no_lists.
Proof.
  apply (proj1 excluded_commits_reach_no_section).
  right. vm_compute. reflexivity.
Defined.

Section Rendering.

Lemma render_sections_shape
    stage version source_tag repo prev_tag categories release_date :
  render_sections stage version source_tag repo prev_tag categories release_date
  = fst (framing stage version source_tag repo prev_tag release_date)
    ++ flat_map (section_of categories) headings
    ++ (if all_empty categories
        then [snd (framing stage version source_tag repo prev_tag release_date)]
        else []).
Proof.
  unfold render_sections, all_empty, headings, section_of.
  destruct (framing stage version source_tag repo prev_tag release_date)
    as [opening empty_message].
  cbn [fst snd flat_map forallb existsb].
  destruct (get categories "breaking"), (get categories "features"),
    (get categories "fixes"), (get categories "other");
    cbn [nonempty negb orb andb app];
    rewrite <- ?app_assoc, ?app_nil_r; reflexivity.
Qed.

End Rendering.

(** C8. After the framing of the stage, the rendered sections are, for any
    stage, those of the four categories that have entries, each as its
    heading and its entries, in the order Breaking Changes, Features, Bug
    Fixes, Other Changes; a category without entries contributes nothing;
    and the empty-state text of the stage follows if and only if all four
    categories are without entries. *)
Theorem sections_in_fixed_order :
  forall stage version source_tag repo prev_tag categories release_date,
    let opening := fst (framing stage version source_tag repo prev_tag release_date) in
    let empty_message :=
      snd (framing stage version source_tag repo prev_tag release_date) in
    _render_markdown stage version source_tag repo prev_tag categories release_date
    = Py.join Py.LF
        (opening
           ++ flat_map (section_of categories)
                [("breaking", "## Breaking Changes"); ("features", "## Features");
                 ("fixes", "## Bug Fixes"); ("other", "## Other Changes")]
           ++ (if all_empty categories then [empty_message] else [])) /\
    (forall key heading,
        section_of categories (key, heading) = [] <-> get categories key = []) /\
    (all_empty categories = true <->
     get categories "breaking" = [] /\ get categories "features" = [] /\
     get categories "fixes" = [] /\ get categories "other" = []) /\
    empty_message
    = (if String.eqb stage "dev" || String.eqb stage "rc"
       then "No notable changes (internal improvements)"
       else "Patch release (internal improvements)") +:+ Py.LF.
Proof.
  intros stage version source_tag repo prev_tag categories release_date.
  cbv zeta. split; [|split; [|split]].
  - unfold _render_markdown. rewrite render_sections_shape. reflexivity.
  - intros key heading. unfold section_of. cbn [fst snd].
    destruct (get categories key); split; congruence.
  - unfold all_empty, headings. cbn [forallb fst].
    destruct (get categories "breaking"), (get categories "features"),
      (get categories "fixes"), (get categories "other");
      cbn [nonempty negb andb]; split; try discriminate; try reflexivity;
      try (intros (? & ? & ? & ?); discriminate); auto.
  - unfold framing.
    destruct (String.eqb stage "dev"); [reflexivity|].
    destruct (String.eqb stage "rc"); reflexivity.
Qed.

(* ===================================================================== *)
(** * The scenarios of the test suite *)
(* ===================================================================== *)

Section Scenarios.

Let live (pattern : string) : Namespace :=
  {| args_pattern := pattern; args_validate := None; args_tag_list := None |}.

Example parse_examples :
  to_str <$> Version "1.1.23.dev11" = Returns "1.1.23.dev11" /\
  to_str <$> Version "1.1.23rc1" = Returns "1.1.23rc1" /\
  to_str <$> Version " V1!01.2.0-RC-3.post4_dev+Ubuntu.01-x "
    = Returns "1!1.2.0rc3.post4.dev0+ubuntu.1.x" /\
  to_str <$> Version "1.0-1" = Returns "1.0.post1" /\
  Version "1..0" = Raises InvalidVersion /\
  Version "1.0.dev1x" = Raises InvalidVersion /\
  Version "" = Raises InvalidVersion.
Proof. repeat split. Qed.

(** A number of 4300 digits is converted; one digit more, and [int()]
    raises [ValueError], which goes through [_parse_tag], the filter and
    [discover]. *)
Example digit_limit :
  (exists version,
      _parse_tag ("v1.0.0.dev" +:+ Nat.iter 4300 (String "0") "")
      = Returns (Some version)) /\
  _parse_tag overlong_tag = Raises ValueError /\
  _filter_by_pattern ["v1.0.0.dev1"; overlong_tag] "dev" = Raises ValueError /\
  result_of (discover ["v1.0.0.dev1"; overlong_tag] "dev" false) no_repository
  = Raises ValueError.
Proof.
  split; [eexists; vm_compute; reflexivity|].
  repeat split; vm_compute; reflexivity.
Qed.

Example rc_digit_transition :
  result_of (discover rc_tags_digit_transition "rc" false) no_repository
  = Returns (_output_success "v1.1.23rc11" "1.1.23rc11" None).
Proof. vm_compute. reflexivity. Qed.

Example final_release_is_no_candidate :
  _filter_by_pattern ["v1.0.0"; "v1.0.0a1"; "v1.0.0.post1"] "dev" = Returns [] /\
  _filter_by_pattern ["v1.0.0"; "v1.0.0a1"; "v1.0.0.post1"] "rc" = Returns [].
Proof. split; vm_compute; reflexivity. Qed.

(** A tag at the head of the history is zero commits behind, which is not
    the [null] of a run on an explicit list. *)
Example tag_at_head :
  commits_behind (result_of (main (live "dev")) (tagged_repository 0))
  = Some (JInt 0) /\
  commands_of (main (live "dev")) (tagged_repository 0)
  = [["git"; "tag"; "-l"];
     ["git"; "rev-list"; "--count"; "v1.1.23.dev1..HEAD"]].
Proof. split; vm_compute; reflexivity. Qed.

Example tag_behind_head :
  result_of (main (live "dev")) (tagged_repository 3)
  = Returns (_output_success "v1.1.23.dev1" "1.1.23.dev1" (Some 3%Z)).
Proof. vm_compute. reflexivity. Qed.

Example no_repository_no_tags :
  result_of (main (live "rc")) no_repository
  = Returns
      (_output_not_found "No rc tags found. Run Stage 2 (RC Release) first.").
Proof. vm_compute. reflexivity. Qed.

Example conventional_subjects :
  type_of "feat: add login" = Some "feat" /\
  type_of "fix(parser): resolve crash" = Some "fix" /\
  has_bang "feat(api)!: new endpoints" = true /\
  conventional "updated readme" = false /\
  conventional "Feat: capital letter" = false /\
  conventional "fix:" = false.
Proof. repeat split. Qed.

Example categorized_log :
  categorize_log
    (log_entry "feat!: new API" "" "a000001" +:+ Py.LF
     +:+ log_entry "feat: add login" "" "a000002" +:+ Py.LF
     +:+ log_entry "fix: resolve crash" "" "a000003" +:+ Py.LF
     +:+ log_entry "chore(release): v1.0.0 [skip ci]" "" "a000004" +:+ Py.LF
     +:+ log_entry "updated readme" "" "a000005")
  = {| breaking := ["- feat!: new API (`a000001`)"];
       features := ["- feat: add login (`a000002`)"];
       fixes := ["- fix: resolve crash (`a000003`)"];
       other := ["- updated readme (`a000005`)"] |}.
Proof. vm_compute. reflexivity. Qed.

Example rendered_stable_release :
  render_sections "stable" "1.1.23" "" "" ""
    (_categorize_commits
       (log_entry "docs: explain" "" "a4" +:+ log_entry "fix: y" "" "a3"
        +:+ log_entry "feat: x" "" "a2" +:+ log_entry "feat!: z" "" "a1"))
    "2026-01-01"
  = ["# nWave Framework v1.1.23" +:+ Py.LF;
     "**Release Date**: 2026-01-01" +:+ Py.LF;
     "## Installation" +:+ Py.LF +:+ "```bash" +:+ Py.LF
       +:+ "pipx install nwave-ai" +:+ Py.LF +:+ "```" +:+ Py.LF;
     "## Breaking Changes" +:+ Py.LF; "- feat!: z (`a1`)" +:+ Py.LF;
     "## Features" +:+ Py.LF; "- feat: x (`a2`)" +:+ Py.LF;
     "## Bug Fixes" +:+ Py.LF; "- fix: y (`a3`)" +:+ Py.LF;
     "## Other Changes" +:+ Py.LF; "- docs: explain (`a4`)" +:+ Py.LF].
Proof. vm_compute. reflexivity. Qed.

Example rendered_empty_dev_snapshot :
  _render_markdown "dev" "1.1.23.dev1" "" "" ""
    (_categorize_commits (log_entry "chore(release): v1.1.22 [skip ci]" "" "a1"))
    "2026-01-01"
  = "**Dev snapshot** `1.1.23.dev1` (2026-01-01)" +:+ Py.LF +:+ Py.LF
    +:+ "No notable changes (internal improvements)" +:+ Py.LF.
Proof. vm_compute. reflexivity. Qed.

End Scenarios.

Import ChangelogGit Props2.

(* ===================================================================== *)
(** * Facts about the string primitives *)
(* ===================================================================== *)

Section Strings.

Lemma sapp_cons (c : ascii) (s t : string) :
  String c s +:+ t = String c (s +:+ t).
Proof. reflexivity. Qed.

Lemma sapp_nil_l (t : string) : "" +:+ t = t.
Proof. reflexivity. Qed.

Lemma sapp_nil_r (s : string) : s +:+ "" = s.
Proof.
  induction s as [|c s IH]; [reflexivity|].
  rewrite sapp_cons, IH. reflexivity.
Qed.

Lemma sapp_assoc (s t u : string) : (s +:+ t) +:+ u = s +:+ (t +:+ u).
Proof.
  induction s as [|c s IH]; [reflexivity|].
  rewrite !sapp_cons, IH. reflexivity.
Qed.

Lemma slength_app (s t : string) :
  String.length (s +:+ t) = (String.length s + String.length t)%nat.
Proof.
  induction s as [|c s IH]; [reflexivity|].
  rewrite sapp_cons. simpl. rewrite IH. reflexivity.
Qed.

Lemma rev_onto_app (s acc : string) : Py.rev_onto s acc = Py.rev s +:+ acc.
Proof.
  unfold Py.rev. revert acc.
  induction s as [|c s IH]; intros acc; simpl; [reflexivity|].
  rewrite (IH (String c acc)), (IH (String c "")), sapp_assoc. reflexivity.
Qed.

Lemma rev_cons (c : ascii) (s : string) :
  Py.rev (String c s) = Py.rev s +:+ String c "".
Proof. unfold Py.rev at 1. simpl. apply rev_onto_app. Qed.

Lemma rev_app (s t : string) : Py.rev (s +:+ t) = Py.rev t +:+ Py.rev s.
Proof.
  induction s as [|c s IH].
  - change (Py.rev t = Py.rev t +:+ ""). symmetry. apply sapp_nil_r.
  - rewrite sapp_cons, !rev_cons, IH, sapp_assoc. reflexivity.
Qed.

Lemma rev_involutive (s : string) : Py.rev (Py.rev s) = s.
Proof.
  induction s as [|c s IH]; [reflexivity|].
  rewrite rev_cons, rev_app, IH. reflexivity.
Qed.

(** What [drop_while] leaves is empty or starts with a character that
    fails the test, and dropping again changes nothing. *)
Lemma drop_while_head (p : ascii -> bool) (s : string) :
  match Py.drop_while p s with
  | EmptyString => True
  | String c _ => p c = false
  end.
Proof.
  induction s as [|c s IH]; simpl; [exact I|].
  destruct (p c) eqn:E; [exact IH | exact E].
Qed.

Lemma drop_while_fixed (p : ascii -> bool) (s : string) :
  match s with EmptyString => True | String c _ => p c = false end ->
  Py.drop_while p s = s.
Proof. destruct s as [|c s]; simpl; [reflexivity|]. intros ->. reflexivity. Qed.

Lemma drop_while_idem (p : ascii -> bool) (s : string) :
  Py.drop_while p (Py.drop_while p s) = Py.drop_while p s.
Proof. apply drop_while_fixed, drop_while_head. Qed.

(** [drop_while] takes a prefix away. *)
Lemma drop_while_suffix (p : ascii -> bool) (s : string) :
  exists prefix, s = prefix +:+ Py.drop_while p s.
Proof.
  induction s as [|c s (prefix & IH)]; simpl; [exists ""; reflexivity|].
  destruct (p c).
  - exists (String c prefix). rewrite sapp_cons, <- IH. reflexivity.
  - exists "". reflexivity.
Qed.

(** The first character of a non-empty string that ends with [t], where
    [t] is not empty, ... the head of an append. *)
Lemma head_app (s t : string) :
  match s with
  | EmptyString => True
  | String c _ => exists rest, s +:+ t = String c rest
  end.
Proof. destruct s as [|c s]; simpl; eauto. Qed.

(** Dropping from the front keeps the end of a string in place. *)
Lemma drop_while_keeps_last (p : ascii -> bool) (s : string) (c : ascii) :
  p c = false ->
  Py.drop_while p (s +:+ String c "") = Py.drop_while p s +:+ String c "".
Proof.
  intros Hc. induction s as [|d s IH].
  - change (Py.drop_while p (String c "") = String c "").
    simpl. rewrite Hc. reflexivity.
  - rewrite sapp_cons. simpl. destruct (p d); [exact IH | reflexivity].
Qed.

(** [strip] is idempotent: a stripped string has nothing left to strip. *)
Lemma strip_idem (s : string) : Py.strip (Py.strip s) = Py.strip s.
Proof.
  unfold Py.strip.
  set (a := Py.drop_while Py.isspace s).
  set (b := Py.drop_while Py.isspace (Py.rev a)).
  assert (Hb : match b with
               | EmptyString => True
               | String c _ => Py.isspace c = false
               end) by apply drop_while_head.
  destruct b as [|c b'] eqn:Eb.
  - reflexivity.
  - (* the stripped string ends with [c], which is no white space, and
       starts as [a] does *)
    assert (Ha : match a with
                 | EmptyString => True
                 | String d _ => Py.isspace d = false
                 end) by apply drop_while_head.
    destruct (drop_while_suffix Py.isspace (Py.rev a)) as (pre & Hpre).
    fold b in Hpre. rewrite Eb in Hpre.
    assert (Hra : a = Py.rev b' +:+ String c (Py.rev pre)).
    { rewrite <- (rev_involutive a), Hpre, rev_app, rev_cons, sapp_assoc.
      reflexivity. }
    assert (Hfront : Py.drop_while Py.isspace (Py.rev (String c b'))
                     = Py.rev (String c b')).
    { rewrite rev_cons. apply drop_while_fixed.
      destruct (Py.rev b') as [|d r] eqn:Er; simpl; [exact Hb|].
      rewrite Hra in Ha. simpl in Ha. exact Ha. }
    rewrite Hfront, rev_involutive. simpl. rewrite Hb. reflexivity.
Qed.

(** A string without white space at its ends is its own [strip]. *)
Lemma strip_fixed (c : ascii) (s : string) (d : ascii) :
  Py.isspace c = false -> Py.isspace d = false ->
  Py.strip (String c s +:+ String d "") = String c s +:+ String d "".
Proof.
  intros Hc Hd. unfold Py.strip.
  rewrite (drop_while_fixed Py.isspace (String c s +:+ String d "")) by exact Hc.
  rewrite rev_app.
  change (Py.rev (String d "") +:+ Py.rev (String c s))
    with (String d (Py.rev (String c s))).
  rewrite (drop_while_fixed Py.isspace (String d _)) by exact Hd.
  rewrite rev_cons, rev_involutive. reflexivity.
Qed.

Lemma strip_single (c : ascii) :
  Py.isspace c = false -> Py.strip (String c "") = String c "".
Proof. intros Hc. unfold Py.strip. simpl. rewrite Hc. simpl. rewrite Hc. reflexivity. Qed.

Lemma strip_empty : Py.strip "" = "".
Proof. reflexivity. Qed.

End Strings.

(* ===================================================================== *)
(** * More on tag discovery *)
(* ===================================================================== *)

Section OrderMore.
Context {K : Type} `{CmpLaws K}.

Lemma not_gt_both_eq (a b : K) :
  py_gt a b = false -> py_gt b a = false -> a = b.
Proof.
  unfold py_gt. rewrite (cmp_antisym a b).
  destruct (cmp a b) eqn:E; simpl; try discriminate.
  intros _ _. apply cmp_eq, E.
Qed.

Lemma gt_of_gt_not_gt (m b x : K) :
  py_gt m b = true -> py_gt x b = false -> py_gt m x = true.
Proof.
  rewrite !py_gt_iff. unfold py_gt. intros Hbm Hxb.
  destruct (cmp x b) eqn:E; try discriminate.
  - apply cmp_eq in E. subst. exact Hbm.
  - eapply cmp_trans; eauto.
Qed.

Context {A : Type} (key : A -> K).

(** [max] splits the items around its answer: what comes before is
    smaller, and nothing that comes after is greater. *)
Lemma max_from_split (items : list A) :
  forall best,
    let m := Py.max_from py_gt key best items in
    exists before after,
      best :: items = before ++ m :: after /\
      (forall x, In x before -> py_gt (key m) (key x) = true) /\
      (forall x, In x after -> py_gt (key x) (key m) = false).
Proof.
  induction items as [|x items IH]; intros best; simpl.
  - exists [], []. repeat split; intros ? [].
  - destruct (py_gt (key x) (key best)) eqn:E.
    + destruct (IH x) as (before & after & Hsplit & Hb & Ha).
      exists (best :: before), after. split; [simpl; f_equal; exact Hsplit|].
      split; [|exact Ha].
      intros y [<-|Hy]; [|apply Hb, Hy].
      destruct before as [|b before].
      * simpl in Hsplit. injection Hsplit as <- _. exact E.
      * simpl in Hsplit. injection Hsplit as <- _.
        eapply gt_trans; [apply Hb; left; reflexivity | exact E].
    + destruct (IH best) as (before & after & Hsplit & Hb & Ha).
      destruct before as [|b before].
      * simpl in Hsplit. injection Hsplit as Hm <-.
        exists [], (x :: items). rewrite <- Hm.
        split; [reflexivity|]. split; [intros ? []|].
        intros y [<-|Hy]; [exact E|].
        pose proof (Ha y Hy) as H1. rewrite <- Hm in H1. exact H1.
      * simpl in Hsplit. injection Hsplit as <- Hitems.
        exists (best :: x :: before), after.
        split; [simpl; do 2 f_equal; exact Hitems|].
        split; [|exact Ha].
        intros y [<-|[<-|Hy]].
        -- apply Hb. left. reflexivity.
        -- eapply gt_of_gt_not_gt; [apply Hb; left; reflexivity | exact E].
        -- apply Hb. right. exact Hy.
Qed.

End OrderMore.

(** X1. The order [discover] takes the maximum in is a strict total order
    of the version keys: no version exceeds itself, of two versions at
    most one exceeds the other, exceeding is transitive, and two versions
    neither of which exceeds the other have the same key. *)
Theorem version_order_is_total :
  forall v1 v2 v3 : _Version,
    gt v1 v1 = false /\
    (gt v1 v2 = true -> gt v2 v1 = false) /\
    (gt v1 v2 = true -> gt v2 v3 = true -> gt v1 v3 = true) /\
    (gt v1 v2 = false -> gt v2 v1 = false -> _key v1 = _key v2).
Proof.
  intros v1 v2 v3. unfold gt. split; [apply py_gt_irrefl|].
  split; [apply gt_not_gt|]. split; [apply gt_trans | apply not_gt_both_eq].
Qed.

Lemma version_order_is_total_witness :
  gt (dev_release [1; 1; 23]%Z 11) (dev_release [1; 1; 22]%Z 2) = true.
Proof.
  apply (proj1 (proj2 (proj2 (version_order_is_total
           (dev_release [1; 1; 23]%Z 11) (dev_release [1; 1; 23]%Z 9)
           (dev_release [1; 1; 22]%Z 2)))));
    vm_compute; reflexivity.
Defined.

(** X2. Of several candidates that share the greatest key, [discover]
    reports the one that comes first in the collection: every candidate
    before the reported one is exceeded by it, and none after it exceeds
    it. *)
Theorem discover_reports_the_earliest_maximum :
  forall tags pattern use_git env first rest,
    _filter_by_pattern tags pattern = Returns (first :: rest) ->
    exists before tag version after,
      first :: rest = before ++ (tag, version) :: after /\
      (forall c, In c before -> gt version (snd c) = true) /\
      (forall c, In c after -> gt (snd c) version = false) /\
      reported_version (result_of (discover tags pattern use_git) env)
      = Some (JStr (to_str version)).
Proof.
  intros tags pattern use_git env first rest E.
  destruct (max_from_split (fun c : string * _Version => _key (snd c)) rest first)
    as (before & after & Hsplit & Hb & Ha).
  rewrite <- (max_from_key py_gt _key snd) in Hsplit, Hb, Ha.
  change (Py.max_from (fun a b => py_gt (_key a) (_key b)) snd first rest)
    with (highest first rest) in Hsplit, Hb, Ha.
  exists before, (fst (highest first rest)), (snd (highest first rest)), after.
  rewrite <- surjective_pairing.
  split; [exact Hsplit|]. split; [exact Hb|]. split; [exact Ha|].
  unfold result_of. rewrite (discover_some _ _ _ _ _ _ _ E).
  destruct use_git; reflexivity.
Qed.

Lemma discover_reports_the_earliest_maximum_witness :
  exists before tag version after,
    [("v1.0.dev1", dev_release [1; 0]%Z 1);
     ("v1.0.0.dev1", dev_release [1; 0; 0]%Z 1)]
    = before ++ (tag, version) :: after /\
    (forall c, In c before -> gt version (snd c) = true) /\
    (forall c, In c after -> gt (snd c) version = false) /\
    reported_version
      (result_of (discover ["v1.0.dev1"; "v1.0.0.dev1"] "dev" false) no_repository)
    = Some (JStr (to_str version)).
Proof.
  apply (discover_reports_the_earliest_maximum
           ["v1.0.dev1"; "v1.0.0.dev1"] "dev" false no_repository).
  vm_compute. reflexivity.
Defined.

Section Independence.

Lemma filter_by_pattern_same_members tags tags' pattern cs cs' :
  (forall t, In t tags <-> In t tags') ->
  _filter_by_pattern tags pattern = Returns cs ->
  _filter_by_pattern tags' pattern = Returns cs' ->
  forall c, In c cs <-> In c cs'.
Proof.
  intros Hsame E E' [t v].
  rewrite (in_filter_by_pattern _ _ _ _ _ E),
    (in_filter_by_pattern _ _ _ _ _ E'), Hsame.
  reflexivity.
Qed.

(** Two collections with the same members raise together. *)
Lemma filter_by_pattern_raise_together tags tags' pattern e :
  (forall t, In t tags <-> In t tags') ->
  _filter_by_pattern tags pattern = Raises e ->
  e = ValueError /\ _filter_by_pattern tags' pattern = Raises ValueError.
Proof.
  intros Hsame E.
  apply filter_by_pattern_raises in E as (-> & t & Hin & Hp).
  split; [reflexivity|].
  destruct (_filter_by_pattern tags' pattern) as [cs'|e'] eqn:E'.
  - exfalso.
    assert (Hret : exists cs, _filter_by_pattern tags' pattern = Returns cs)
      by eauto.
    pose proof (proj1 (filter_by_pattern_returns_iff tags' pattern) Hret)
      as Hall.
    destruct (Hall t) as (o & Ho); [apply Hsame, Hin | congruence].
  - apply filter_by_pattern_raises in E' as (-> & _). reflexivity.
Qed.

Lemma highest_same_key first rest first' rest' :
  (forall c, In c (first :: rest) <-> In c (first' :: rest')) ->
  _key (snd (highest first rest)) = _key (snd (highest first' rest')).
Proof.
  intros Hsame.
  destruct (highest_spec first rest) as (Hin & Hmax).
  destruct (highest_spec first' rest') as (Hin' & Hmax').
  apply not_gt_both_eq.
  - apply (Hmax' (highest first rest)), Hsame, Hin.
  - apply (Hmax (highest first' rest')), Hsame, Hin'.
Qed.

End Independence.

(** X3. The order of the collection, and repetitions in it, do not change
    which key wins: two collections with the same members end in the same
    [ValueError] together, or give not-found together, or both report a
    version, and the two versions have the same key. *)
Theorem discover_is_independent_of_the_order :
  forall tags tags' pattern use_git env,
    (forall t, In t tags <-> In t tags') ->
    (result_of (discover tags pattern use_git) env = Raises ValueError /\
     result_of (discover tags' pattern use_git) env = Raises ValueError) \/
    (result_of (discover tags pattern use_git) env
     = Returns (_output_not_found (_stage_guidance pattern)) /\
     result_of (discover tags' pattern use_git) env
     = Returns (_output_not_found (_stage_guidance pattern))) \/
    (exists version version',
        reported_version (result_of (discover tags pattern use_git) env)
        = Some (JStr (to_str version)) /\
        reported_version (result_of (discover tags' pattern use_git) env)
        = Some (JStr (to_str version')) /\
        _key version = _key version').
Proof.
  intros tags tags' pattern use_git env Hsame.
  assert (Hsame' : forall t, In t tags' <-> In t tags)
    by (intros t; symmetry; apply Hsame).
  unfold result_of.
  destruct (_filter_by_pattern tags pattern) as [cs|e] eqn:E.
  - destruct (_filter_by_pattern tags' pattern) as [cs'|e'] eqn:E'.
    + pose proof (filter_by_pattern_same_members _ _ _ _ _ Hsame E E') as Hc.
      destruct cs as [|first rest]; destruct cs' as [|first' rest'].
      * right. left.
        rewrite (discover_none _ _ _ _ _ E), (discover_none _ _ _ _ _ E').
        split; reflexivity.
      * exfalso. apply (proj2 (Hc first')). left. reflexivity.
      * exfalso. apply (proj1 (Hc first)). left. reflexivity.
      * right. right.
        exists (snd (highest first rest)), (snd (highest first' rest')).
        rewrite (discover_some _ _ _ _ _ _ _ E),
          (discover_some _ _ _ _ _ _ _ E').
        split; [destruct use_git; reflexivity|].
        split; [destruct use_git; reflexivity|].
        apply highest_same_key, Hc.
    + exfalso.
      destruct (filter_by_pattern_raise_together _ _ _ _ Hsame' E')
        as (_ & E''). congruence.
  - destruct (filter_by_pattern_raise_together _ _ _ _ Hsame E) as (-> & E').
    left.
    rewrite (discover_raises _ _ _ _ _ _ E), (discover_raises _ _ _ _ _ _ E').
    split; reflexivity.
Qed.

Lemma discover_is_independent_of_the_order_witness :
  (result_of (discover ["v1.1.22.dev2"; "v1.1.23.dev1"] "dev" false) no_repository
   = Raises ValueError /\
   result_of
     (discover ["v1.1.23.dev1"; "v1.1.22.dev2"; "v1.1.23.dev1"] "dev" false)
     no_repository
   = Raises ValueError) \/
  (result_of (discover ["v1.1.22.dev2"; "v1.1.23.dev1"] "dev" false) no_repository
   = Returns (_output_not_found (_stage_guidance "dev")) /\
   result_of
     (discover ["v1.1.23.dev1"; "v1.1.22.dev2"; "v1.1.23.dev1"] "dev" false)
     no_repository
   = Returns (_output_not_found (_stage_guidance "dev"))) \/
  (exists version version',
      reported_version
        (result_of (discover ["v1.1.22.dev2"; "v1.1.23.dev1"] "dev" false)
           no_repository)
      = Some (JStr (to_str version)) /\
      reported_version
        (result_of
           (discover ["v1.1.23.dev1"; "v1.1.22.dev2"; "v1.1.23.dev1"] "dev" false)
           no_repository)
      = Some (JStr (to_str version')) /\
      _key version = _key version').
Proof.
  apply (discover_is_independent_of_the_order
           ["v1.1.22.dev2"; "v1.1.23.dev1"]
           ["v1.1.23.dev1"; "v1.1.22.dev2"; "v1.1.23.dev1"]
           "dev" false no_repository).
  intros t. simpl. tauto.
Defined.

(** X4. Measuring the staleness never changes what is discovered: with
    and without git, [discover] reports the same tag, version, found flag,
    error and exit status, also when [git rev-list] fails or prints
    something that is no number. *)
Theorem staleness_never_changes_the_discovery :
  forall tags pattern env,
    let live := result_of (discover tags pattern true) env in
    let explicit := result_of (discover tags pattern false) env in
    reported_tag live = reported_tag explicit /\
    reported_version live = reported_version explicit /\
    found live = found explicit /\
    error live = error explicit /\
    exit_status live = exit_status explicit.
Proof.
  intros tags pattern env. unfold result_of.
  destruct (_filter_by_pattern tags pattern) as [[|first rest]|e] eqn:E;
    cbv zeta.
  - rewrite !(discover_none _ _ _ _ _ E). repeat split.
  - rewrite !(discover_some _ _ _ _ _ _ _ E). repeat split.
  - rewrite !(discover_raises _ _ _ _ _ _ E). repeat split.
Qed.

(** X5. [discover] itself has no guard on the pattern: every pattern
    other than dev is taken for rc, in the filter and in the guidance. *)
Theorem discover_takes_any_other_pattern_for_rc :
  forall tags pattern use_git,
    pattern <> "dev" ->
    discover tags pattern use_git = discover tags "rc" use_git.
Proof.
  intros tags pattern use_git Hne. apply String.eqb_neq in Hne.
  unfold discover, _filter_by_pattern, _stage_guidance. rewrite Hne.
  reflexivity.
Qed.

Lemma discover_takes_any_other_pattern_for_rc_witness :
  discover ["v1.1.23rc1"] "stable" false = discover ["v1.1.23rc1"] "rc" false.
Proof.
  apply (discover_takes_any_other_pattern_for_rc ["v1.1.23rc1"] "stable" false).
  discriminate.
Defined.

(** X6. Tags whose parse returns and that are no candidates of the
    stage, the tags of the other stage and the final releases among them,
    may be taken out of the collection without changing what [discover]
    does. *)
Theorem discover_ignores_non_candidates :
  forall keep tags pattern use_git,
    (forall tag, In tag tags -> keep tag = false ->
                 candidate (matcher_of pattern) tag = Returns []) ->
    discover (List.filter keep tags) pattern use_git
    = discover tags pattern use_git.
Proof.
  intros keep tags pattern use_git Hkeep. unfold discover.
  replace (_filter_by_pattern (List.filter keep tags) pattern)
    with (_filter_by_pattern tags pattern); [reflexivity|].
  symmetry. apply filter_loop_drop. exact Hkeep.
Qed.

Lemma discover_ignores_non_candidates_witness :
  discover
    (List.filter (fun t => negb (String.eqb t "v1.1.23rc1"))
       ["v1.1.23rc1"; "v1.1.23.dev1"]) "dev" false
  = discover ["v1.1.23rc1"; "v1.1.23.dev1"] "dev" false.
Proof.
  apply (discover_ignores_non_candidates
           (fun t => negb (String.eqb t "v1.1.23rc1"))
           ["v1.1.23rc1"; "v1.1.23.dev1"] "dev" false).
  intros tag [<-|[<-|[]]]; vm_compute; congruence.
Defined.

Section Split.

Lemma split_char_cons (sep c : ascii) (s : string) :
  Py.split (String sep "") (String c s)
  = if Ascii.eqb c sep then "" :: Py.split (String sep "") s
    else Py.cons_first c (Py.split (String sep "") s).
Proof.
  unfold Py.split. simpl. destruct (ascii_dec sep c) as [->|Hne].
  - rewrite Ascii.eqb_refl. destruct s; reflexivity.
  - destruct (Ascii.eqb c sep) eqn:E; [|reflexivity].
    apply Ascii.eqb_eq in E. congruence.
Qed.

Lemma split_char_nil (sep : ascii) : Py.split (String sep "") "" = [""].
Proof. reflexivity. Qed.

(** A string without the separator is one piece. *)
Lemma split_char_whole (sep : ascii) (t : string) :
  free_of sep t -> Py.split (String sep "") t = [t].
Proof.
  unfold free_of. induction t as [|c t IH]; [reflexivity|].
  simpl. rewrite Ascii.eqb_sym. intros Hfree. apply orb_false_iff in Hfree as [Hc Ht].
  rewrite split_char_cons, Hc, (IH Ht). reflexivity.
Qed.

(** The first piece ends at the first separator. *)
Lemma split_char_app (sep : ascii) (t rest : string) :
  free_of sep t ->
  Py.split (String sep "") (t +:+ String sep rest)
  = t :: Py.split (String sep "") rest.
Proof.
  unfold free_of. induction t as [|c t IH].
  - intros _. change ("" +:+ String sep rest) with (String sep rest).
    rewrite split_char_cons, Ascii.eqb_refl. reflexivity.
  - simpl. rewrite Ascii.eqb_sym. intros Hfree.
    apply orb_false_iff in Hfree as [Hc Ht].
    rewrite sapp_cons, split_char_cons, Hc, (IH Ht). reflexivity.
Qed.

(** Joining with a separator and splitting at it gives the pieces back. *)
Lemma split_join (sep : ascii) (pieces : list string) :
  pieces <> [] ->
  (forall t, In t pieces -> free_of sep t) ->
  Py.split (String sep "") (Py.join (String sep "") pieces) = pieces.
Proof.
  induction pieces as [|x pieces IH]; [congruence|]. intros _ Hfree.
  destruct pieces as [|y pieces].
  - simpl. apply split_char_whole, Hfree. left. reflexivity.
  - change (Py.join (String sep "") (x :: y :: pieces))
      with (x +:+ String sep "" +:+ Py.join (String sep "") (y :: pieces)).
    change (String sep "" +:+ Py.join (String sep "") (y :: pieces))
      with (String sep (Py.join (String sep "") (y :: pieces))).
    rewrite split_char_app by (apply Hfree; left; reflexivity).
    rewrite IH; [reflexivity | discriminate |].
    intros t Ht. apply Hfree. right. exact Ht.
Qed.

Lemma filter_all {A} (P : A -> Prop) `{forall x, Decision (P x)} (l : list A) :
  (forall x, In x l -> P x) -> filter P l = l.
Proof.
  induction l as [|x l IH]; intros Hall; [reflexivity|].
  rewrite filter_cons_True by (apply Hall; left; reflexivity).
  rewrite IH; [reflexivity|]. intros y Hy. apply Hall. right. exact Hy.
Qed.

Lemma map_fixed {A} (f : A -> A) (l : list A) :
  (forall x, In x l -> f x = x) -> map f l = l.
Proof.
  induction l as [|x l IH]; intros Hall; [reflexivity|]. simpl.
  rewrite Hall by (left; reflexivity).
  rewrite IH; [reflexivity|]. intros y Hy. apply Hall. right. exact Hy.
Qed.

Lemma truthy_nonempty (s : string) : Is_true (Py.truthy s) <-> s <> "".
Proof.
  destruct s as [|c s]; simpl.
  - split; [intros [] | congruence].
  - split; [discriminate | intros _; exact I].
Qed.

(** What [strip] and the test for emptiness let through. *)
Lemma clean_pieces (pieces : list string) (t : string) :
  In t (map Py.strip
          (filter (fun tag => Is_true (Py.truthy (Py.strip tag))) pieces)) ->
  t <> "" /\ stripped t /\ exists raw, In raw pieces /\ t = Py.strip raw.
Proof.
  rewrite in_map_iff. intros (raw & <- & Hin).
  apply list_elem_of_In, list_elem_of_filter in Hin as [Htrue Hraw].
  split; [apply truthy_nonempty, Htrue|]. split; [apply strip_idem|].
  exists raw. split; [apply list_elem_of_In, Hraw | reflexivity].
Qed.

End Split.

(** X7. [_split_tag_list] never yields an empty tag or a tag with white
    space around it, and it undoes the join with commas: a collection of
    tags that are not empty and hold no comma and no white space at their
    ends comes back as it was, the empty collection included. *)
Theorem split_tag_list_inverts_the_join :
  (forall tag_list_str tag,
      In tag (_split_tag_list tag_list_str) -> tag <> "" /\ stripped tag) /\
  (forall tags,
      (forall tag, In tag tags -> tag <> "" /\ stripped tag /\ free_of "," tag) ->
      _split_tag_list (Py.join "," tags) = tags).
Proof.
  split.
  - intros tag_list_str tag Hin.
    destruct (clean_pieces _ _ Hin) as (Hne & Hs & _). auto.
  - intros tags Hclean. unfold _split_tag_list.
    destruct tags as [|x tags]; [reflexivity|].
    rewrite (split_join ","%char (x :: tags));
      [|discriminate | intros t Ht; apply (Hclean t Ht)].
    rewrite filter_all.
    + apply map_fixed. intros t Ht. apply (Hclean t Ht).
    + intros t Ht. destruct (Hclean t Ht) as (Hne & Hs & _).
      rewrite Hs. apply truthy_nonempty, Hne.
Qed.

Lemma split_tag_list_inverts_the_join_witness :
  _split_tag_list (Py.join "," dev_tags_mixed_versions) = dev_tags_mixed_versions.
Proof.
  apply (proj2 split_tag_list_inverts_the_join dev_tags_mixed_versions).
  intros tag [<-|[<-|[<-|[]]]]; vm_compute; repeat split; discriminate.
Defined.

Section MainShape.

Lemma git_tags_failed env log :
  (returncode (env ["git"; "tag"; "-l"]) =? 0)%Z = false ->
  _git_tags env log = ([], log ++ [["git"; "tag"; "-l"]]).
Proof.
  intros Hrc. unfold _git_tags, mbind, run_bind, subprocess_run.
  rewrite Hrc. reflexivity.
Qed.

Lemma filter_by_pattern_nil pattern :
  _filter_by_pattern [] pattern = Returns [].
Proof. reflexivity. Qed.

(** What [main] does when the tags are asked of git. *)
Lemma main_live args env log :
  args_tag_list args = None ->
  main args env log
  = if negb (existsb (String.eqb (args_pattern args)) ["dev"; "rc"])
    then (Returns
            (_output_error
               ("Invalid pattern '" +:+ args_pattern args
                  +:+ "'. Must be 'dev' or 'rc'.")), log)
    else match args_validate args with
         | Some target =>
             (validate (fst (_git_tags env log)) target,
              log ++ [["git"; "tag"; "-l"]])
         | None =>
             discover (fst (_git_tags env log)) (args_pattern args) true env
               (log ++ [["git"; "tag"; "-l"]])
         end.
Proof.
  intros E. unfold main. rewrite E.
  destruct (negb (existsb (String.eqb (args_pattern args)) ["dev"; "rc"]));
    [reflexivity|].
  unfold mbind, run_bind.
  pose proof (git_tags_log env log) as Hlog.
  destruct (_git_tags env log) as [tags log']. simpl in Hlog. subst log'.
  destruct (args_validate args); reflexivity.
Qed.

End MainShape.

Section MainOutcome.

Lemma pattern_accepted (pattern : string) :
  existsb (String.eqb pattern) ["dev"; "rc"] = true <->
  pattern = "dev" \/ pattern = "rc".
Proof.
  simpl. rewrite !orb_true_iff, !String.eqb_eq. intuition discriminate.
Qed.

Lemma validate_outcome tags target :
  validate tags target = Raises ValueError \/
  (exists version,
      validate tags target
      = Returns (_output_success target (to_str version) None)) \/
  validate tags target
  = Returns (_output_not_found
               ("Tag '" +:+ target +:+ "' not found in tag list.")).
Proof.
  unfold validate. destruct (existsb _ tags); [|right; right; reflexivity].
  destruct (_parse_tag target) as [[v|]|e] eqn:E.
  - right. left. exists v. reflexivity.
  - right. right. reflexivity.
  - left. rewrite (parse_tag_raises _ _ E). reflexivity.
Qed.

Lemma discover_outcome tags pattern use_git env log :
  fst (discover tags pattern use_git env log) = Raises ValueError \/
  (exists tag version staleness,
      fst (discover tags pattern use_git env log)
      = Returns (_output_success tag version staleness)) \/
  fst (discover tags pattern use_git env log)
  = Returns (_output_not_found (_stage_guidance pattern)).
Proof.
  destruct (_filter_by_pattern tags pattern) as [[|first rest]|e] eqn:E.
  - rewrite (discover_none _ _ _ _ _ E). right. right. reflexivity.
  - rewrite (discover_some _ _ _ _ _ _ _ E). right. left.
    destruct use_git.
    + exists ("v" +:+ to_str (snd (highest first rest))),
        (to_str (snd (highest first rest))),
        (fst (_commits_behind ("v" +:+ to_str (snd (highest first rest)))
                env log)).
      reflexivity.
    + exists ("v" +:+ to_str (snd (highest first rest))),
        (to_str (snd (highest first rest))), None.
      reflexivity.
  - rewrite (discover_raises _ _ _ _ _ _ E). left.
    apply filter_by_pattern_raises in E as (-> & _). reflexivity.
Qed.

(** What [main] computes, whichever way the tags come. *)
Lemma main_shape args env :
  result_of (main args) env
  = if negb (existsb (String.eqb (args_pattern args)) ["dev"; "rc"])
    then Returns
           (_output_error
              ("Invalid pattern '" +:+ args_pattern args
                 +:+ "'. Must be 'dev' or 'rc'."))
    else match args_validate args with
         | Some target =>
             validate
               (match args_tag_list args with
                | Some tag_list => _split_tag_list tag_list
                | None => fst (_git_tags env [])
                end) target
         | None =>
             fst (discover
                    (match args_tag_list args with
                     | Some tag_list => _split_tag_list tag_list
                     | None => fst (_git_tags env [])
                     end) (args_pattern args)
                    (match args_tag_list args with
                     | Some _ => false
                     | None => true
                     end) env
                    (match args_tag_list args with
                     | Some _ => []
                     | None => [["git"; "tag"; "-l"]]
                     end))
         end.
Proof.
  unfold result_of. destruct (args_tag_list args) as [tag_list|] eqn:E.
  - rewrite (main_explicit _ _ _ _ E). cbn [fst].
    destruct (negb _); [reflexivity|].
    destruct (args_validate args); reflexivity.
  - rewrite (main_live _ _ _ E).
    destruct (negb _); [reflexivity|].
    destruct (args_validate args); reflexivity.
Qed.

(** [main] prints an error exactly for a pattern it does not know;
    otherwise it prints a found or a not-found payload, unless the parse
    of a tag raises [ValueError]. *)
Lemma main_outcome args env :
  (~ (args_pattern args = "dev" \/ args_pattern args = "rc") /\
   exists text, result_of (main args) env = Returns (_output_error text)) \/
  ((args_pattern args = "dev" \/ args_pattern args = "rc") /\
   (result_of (main args) env = Raises ValueError \/
    (exists tag version staleness,
        result_of (main args) env
        = Returns (_output_success tag version staleness)) \/
    exists text, result_of (main args) env = Returns (_output_not_found text))).
Proof.
  rewrite main_shape.
  destruct (existsb (String.eqb (args_pattern args)) ["dev"; "rc"]) eqn:P; simpl.
  - right. split; [apply pattern_accepted, P|].
    destruct (args_validate args) as [target|].
    + destruct (validate_outcome
                  (match args_tag_list args with
                   | Some tag_list => _split_tag_list tag_list
                   | None => fst (_git_tags env [])
                   end) target) as [-> | [(v & ->)| ->]].
      * left. reflexivity.
      * right. left. exists target, (to_str v), None. reflexivity.
      * right. right.
        exists ("Tag '" +:+ target +:+ "' not found in tag list.").
        reflexivity.
    + match goal with
      | |- context [fst (discover ?t ?p ?u ?e ?l)] =>
          destruct (discover_outcome t p u e l)
            as [-> | [(tg & v & s & ->)| ->]]
      end.
      * left. reflexivity.
      * right. left. exists tg, v, s. reflexivity.
      * right. right. exists (_stage_guidance (args_pattern args)).
        reflexivity.
  - left. split.
    + intros Hp. apply pattern_accepted in Hp. congruence.
    + exists ("Invalid pattern '" +:+ args_pattern args
                +:+ "'. Must be 'dev' or 'rc'.").
      reflexivity.
Qed.

End MainOutcome.

(** X8. Whenever [main] prints a payload, the exit status and the payload
    agree: status 0 goes with [found] true, a tag, a version and no error;
    status 1 with [found] false, a null tag and an error text; status 2
    with an error text alone, and it is the status of exactly the payloads
    printed for a pattern that is neither dev nor rc.  No payload comes
    with another status. *)
Theorem exit_status_matches_payload :
  forall args env exit,
    result_of (main args) env = Returns exit ->
    let r := Returns exit in
    (exit_code exit = 0%Z /\ found r = Some (JBool true) /\ error r = None /\
     (exists tag, reported_tag r = Some (JStr tag)) /\
     (exists version, reported_version r = Some (JStr version)) /\
     (args_pattern args = "dev" \/ args_pattern args = "rc")) \/
    (exit_code exit = 1%Z /\ found r = Some (JBool false) /\
     reported_tag r = Some JNull /\ reported_version r = Some JNull /\
     (exists text, error r = Some (JStr text)) /\
     (args_pattern args = "dev" \/ args_pattern args = "rc")) \/
    (exit_code exit = 2%Z /\ found r = None /\ reported_tag r = None /\
     (exists text, error r = Some (JStr text)) /\
     ~ (args_pattern args = "dev" \/ args_pattern args = "rc")).
Proof.
  intros args env exit Hr. cbv zeta.
  destruct (main_outcome args env)
    as [(Hp & text & H) |
        (Hp & [H | [(tag & version & s & H) | (text & H)]])];
    rewrite Hr in H; [| discriminate H | |]; injection H as ->.
  - right. right. repeat split; eauto.
  - left. repeat split; eauto.
  - right. left. repeat split; eauto.
Qed.

Lemma exit_status_matches_payload_witness :
  let exit := _output_success "v1.1.23.dev1" "1.1.23.dev1" (Some 3%Z) in
  let r := Returns exit in
  (exit_code exit = 0%Z /\ found r = Some (JBool true) /\ error r = None /\
   (exists tag, reported_tag r = Some (JStr tag)) /\
   (exists version, reported_version r = Some (JStr version)) /\
   ("dev" = "dev" \/ "dev" = "rc")) \/
  (exit_code exit = 1%Z /\ found r = Some (JBool false) /\
   reported_tag r = Some JNull /\ reported_version r = Some JNull /\
   (exists text, error r = Some (JStr text)) /\
   ("dev" = "dev" \/ "dev" = "rc")) \/
  (exit_code exit = 2%Z /\ found r = None /\ reported_tag r = None /\
   (exists text, error r = Some (JStr text)) /\
   ~ ("dev" = "dev" \/ "dev" = "rc")).
Proof.
  apply (exit_status_matches_payload
           {| args_pattern := "dev"; args_validate := None;
              args_tag_list := None |} (tagged_repository 3)).
  vm_compute. reflexivity.
Defined.

(** X9. Validating a tag never measures the staleness, with or without an
    explicit tag list: the only command that can be run is [git tag -l],
    a confirmed tag comes back as it was given with a null
    [commits_behind], and it makes no difference whether the pattern is dev
    or rc. *)
Theorem validation_never_measures_staleness :
  forall args env target,
    args_validate args = Some target ->
    args_pattern args = "dev" \/ args_pattern args = "rc" ->
    let r := result_of (main args) env in
    commands_of (main args) env
    = match args_tag_list args with
      | None => [["git"; "tag"; "-l"]]
      | Some _ => []
      end /\
    (found r = Some (JBool true) ->
     reported_tag r = Some (JStr target) /\ commits_behind r = Some JNull) /\
    (forall pattern',
        pattern' = "dev" \/ pattern' = "rc" ->
        result_of
          (main {| args_pattern := pattern'; args_validate := Some target;
                   args_tag_list := args_tag_list args |}) env
        = r).
Proof.
  intros args env target Hv Hp. cbv zeta.
  apply pattern_accepted in Hp.
  assert (Hmain : forall pattern',
             existsb (String.eqb pattern') ["dev"; "rc"] = true ->
             main {| args_pattern := pattern'; args_validate := Some target;
                     args_tag_list := args_tag_list args |} env []
             = (validate
                  (match args_tag_list args with
                   | Some tag_list => _split_tag_list tag_list
                   | None => fst (_git_tags env [])
                   end) target,
                match args_tag_list args with
                | None => [["git"; "tag"; "-l"]]
                | Some _ => []
                end)).
  { intros pattern' Hp'.
    destruct (args_tag_list args) as [tag_list|] eqn:E.
    - rewrite (main_explicit _ tag_list) by reflexivity. simpl args_pattern.
      rewrite Hp'. reflexivity.
    - rewrite main_live by reflexivity. simpl args_pattern.
      rewrite Hp'. reflexivity. }
  assert (Hargs : main args env []
                  = main {| args_pattern := args_pattern args;
                            args_validate := Some target;
                            args_tag_list := args_tag_list args |} env []).
  { destruct args as [p v t]. simpl in *. subst v. reflexivity. }
  unfold commands_of, result_of. rewrite Hargs, (Hmain _ Hp). cbn [fst snd].
  split; [reflexivity|]. split.
  - destruct (validate_outcome
                (match args_tag_list args with
                 | Some tag_list => _split_tag_list tag_list
                 | None => fst (_git_tags env [])
                 end) target) as [-> | [(v & ->)| ->]];
      [discriminate | auto | discriminate].
  - intros pattern' Hp'. apply pattern_accepted in Hp'.
    rewrite (Hmain _ Hp'). reflexivity.
Qed.

Lemma validation_never_measures_staleness_witness :
  commands_of
    (main {| args_pattern := "rc"; args_validate := Some "v1.1.23.dev1";
             args_tag_list := None |}) (tagged_repository 3)
  = [["git"; "tag"; "-l"]].
Proof.
  apply (validation_never_measures_staleness
           {| args_pattern := "rc"; args_validate := Some "v1.1.23.dev1";
              args_tag_list := None |} (tagged_repository 3) "v1.1.23.dev1").
  - reflexivity.
  - right. reflexivity.
Defined.

(** X10. Where [git tag -l] fails, as outside a repository, [main] treats
    the collection as empty: it asks nothing more of git and reports
    not-found, with the guidance of the stage or, when validating, with the
    tag that is missing; the exit status is 1. *)
Theorem failing_git_means_no_tags :
  forall args env,
    args_tag_list args = None ->
    args_pattern args = "dev" \/ args_pattern args = "rc" ->
    returncode (env ["git"; "tag"; "-l"]) <> 0%Z ->
    commands_of (main args) env = [["git"; "tag"; "-l"]] /\
    result_of (main args) env
    = Returns
        (_output_not_found
           (match args_validate args with
            | Some target => "Tag '" +:+ target +:+ "' not found in tag list."
            | None => _stage_guidance (args_pattern args)
            end)).
Proof.
  intros args env E Hp Hrc. apply pattern_accepted in Hp.
  apply Z.eqb_neq in Hrc.
  unfold commands_of, result_of. rewrite (main_live _ _ _ E), Hp.
  rewrite (git_tags_failed _ _ Hrc). cbn [negb fst].
  destruct (args_validate args) as [target|]; [split; reflexivity|].
  rewrite (discover_none _ _ _ _ _ (filter_by_pattern_nil _)).
  split; reflexivity.
Qed.

Lemma failing_git_means_no_tags_witness :
  result_of
    (main {| args_pattern := "dev"; args_validate := None;
             args_tag_list := None |}) no_repository
  = Returns (_output_not_found (_stage_guidance "dev")).
Proof.
  apply (failing_git_means_no_tags
           {| args_pattern := "dev"; args_validate := None;
              args_tag_list := None |} no_repository).
  - reflexivity.
  - left. reflexivity.
  - simpl. discriminate.
Defined.

(* ===================================================================== *)
(** * More on classification and rendering *)
(* ===================================================================== *)

(** X11. For a commit that is neither left out nor breaking, the type of
    its subject decides the list: feat goes to features, fix to fixes, and
    every other type, like a subject without a type, to other. *)
Theorem type_decides_the_list :
  forall acc subject body sha,
    excluded subject = false ->
    has_bang subject = false ->
    Py.contains "BREAKING CHANGE:" body = false ->
    (type_of subject = Some "feat" ->
     categorize_commit acc subject body sha
     = features_append acc (entry_line subject sha)) /\
    (type_of subject = Some "fix" ->
     categorize_commit acc subject body sha
     = fixes_append acc (entry_line subject sha)) /\
    (type_of subject <> Some "feat" -> type_of subject <> Some "fix" ->
     categorize_commit acc subject body sha
     = other_append acc (entry_line subject sha)).
Proof.
  intros acc subject body sha Hex Hbang Hbody.
  unfold excluded in Hex. unfold has_bang in Hbang.
  unfold categorize_commit, type_of. rewrite Hex, Hbody.
  destruct (_parse_conventional_commit subject) as [p|]; simpl.
  - rewrite Hbang. simpl.
    destruct (String.eqb (type p) "feat") eqn:F.
    + apply String.eqb_eq in F. split; [reflexivity|]. split.
      * intros [= H]. rewrite F in H. discriminate H.
      * intros H. exfalso. apply H. rewrite F. reflexivity.
    + apply String.eqb_neq in F.
      destruct (String.eqb (type p) "fix") eqn:X.
      * apply String.eqb_eq in X. split; [intros [= H]; contradiction|].
        split; [reflexivity|].
        intros _ H. exfalso. apply H. rewrite X. reflexivity.
      * apply String.eqb_neq in X. split; [intros [= H]; contradiction|].
        split; [intros [= H]; contradiction | reflexivity].
  - repeat split; try reflexivity; intros; discriminate.
Qed.

Lemma type_decides_the_list_witness :
  categorize_commit no_lists "fix(parser): resolve crash" "" "abc1234"
  = fixes_append no_lists (entry_line "fix(parser): resolve crash" "abc1234").
Proof.
  apply (proj1 (proj2 (type_decides_the_list no_lists
           "fix(parser): resolve crash" "" "abc1234" eq_refl eq_refl eq_refl))).
  reflexivity.
Defined.

Section Entries.

(** The loop body, by the parts of the record. *)
Lemma categorize_record_parts acc record :
  categorize_record acc record
  = match parts_of record with
    | Some (subject, body, sha) =>
        if Py.truthy subject && Py.truthy sha
        then categorize_commit acc subject body sha
        else acc
    | None => acc
    end.
Proof.
  unfold categorize_record, parts_of.
  destruct (Py.strip record) as [|c r] eqn:E; [reflexivity|].
  cbn [Py.truthy negb].
  destruct (Py.split Py.NUL (String c r)) as [|p0 [|p1 [|p2 ps]]];
    try reflexivity.
  destruct (Py.truthy (Py.strip p0)), (Py.truthy (Py.strip p2)); reflexivity.
Qed.

Lemma categorize_record_origin acc record line :
  In line (all_entries (categorize_record acc record)) ->
  In line (all_entries acc) \/ entry_of record line.
Proof.
  rewrite categorize_record_parts. unfold entry_of.
  destruct (parts_of record) as [[[subject body] sha]|]; [|auto].
  destruct (Py.truthy subject) eqn:Ts; [|auto].
  destruct (Py.truthy sha) eqn:Th; [|auto]. cbn [andb].
  destruct (excluded subject) eqn:E.
  - rewrite (categorize_commit_excluded _ _ _ _ E). auto.
  - intros Hin.
    destruct (in_all_entries_append _ _ _ _
                (categorize_commit_appends acc subject body sha E) Hin)
      as [H | ->]; [auto|].
    right. exists subject, body, sha.
    split; [reflexivity|].
    split; [apply truthy_nonempty; rewrite Ts; exact I|].
    split; [apply truthy_nonempty; rewrite Th; exact I|].
    split; [exact E | reflexivity].
Qed.

Lemma fold_records_origin records :
  forall acc line,
    In line (all_entries (fold_left categorize_record records acc)) ->
    In line (all_entries acc) \/
    exists record, In record records /\ entry_of record line.
Proof.
  induction records as [|r records IH]; intros acc line; simpl; [auto|].
  intros Hin. destruct (IH _ _ Hin) as [H | (record & Hr & He)].
  - destruct (categorize_record_origin _ _ _ H) as [H' | H']; [auto|].
    right. exists r. auto.
  - right. exists record. auto.
Qed.

(** What one record does to the lists: nothing, or one entry at the end
    of one of them. *)
Lemma categorize_record_step acc record :
  categorize_record acc record = acc \/
  exists line,
    In (categorize_record acc record)
       [breaking_append acc line; features_append acc line;
        fixes_append acc line; other_append acc line].
Proof.
  unfold categorize_record.
  destruct (negb (Py.truthy (Py.strip record))); [auto|].
  destruct (Py.split Py.NUL (Py.strip record)) as [|p0 [|p1 [|p2 ps]]]; auto.
  destruct (negb (Py.truthy (Py.strip p0)) || negb (Py.truthy (Py.strip p2)));
    [auto|].
  destruct (excluded (Py.strip p0)) eqn:E.
  - left. apply categorize_commit_excluded, E.
  - right. eexists. apply categorize_commit_appends, E.
Qed.

End Entries.

(** X12. Every entry of the lists [_categorize_commits] returns is the
    entry of a record of the log: a record with the three parts whose
    subject and hash are not empty, whose subject holds no exclusion
    marker, and from whose subject and hash the entry is written as
    [- <subject> (`<hash>`)].  A record that is not whole, because a part
    is missing or its subject or its hash is empty, leaves the four lists
    as they were. *)
Theorem entries_come_from_whole_records :
  (forall raw_log key line,
      In line (get (_categorize_commits raw_log) key) ->
      exists record,
        In record (Py.split record_end raw_log) /\ entry_of record line) /\
  (forall acc record,
      whole record = false -> categorize_record acc record = acc) /\
  (forall record line, entry_of record line -> whole record = true).
Proof.
  split; [|split].
  - intros raw_log key line Hin.
    apply categorize_commits_get in Hin. unfold categorize_log in Hin.
    destruct (fold_records_origin _ _ _ Hin) as [[]|H]. exact H.
  - intros acc record Hw. rewrite categorize_record_parts.
    unfold whole in Hw.
    destruct (parts_of record) as [[[subject body] sha]|]; [|reflexivity].
    rewrite Hw. reflexivity.
  - intros record line (subject & body & sha & Hp & Hs & Hh & _).
    unfold whole. rewrite Hp.
    destruct subject; [congruence|]. destruct sha; [congruence|].
    reflexivity.
Qed.

Lemma entries_come_from_whole_records_witness :
  exists record,
    In record
       (Py.split record_end
          (log_entry " feat: add login " "" "abc1234 "
           +:+ log_entry "fix: lost" "" "")) /\
    entry_of record "- feat: add login (`abc1234`)".
Proof.
  apply (proj1 entries_come_from_whole_records
           (log_entry " feat: add login " "" "abc1234 "
            +:+ log_entry "fix: lost" "" "") "features").
  vm_compute. left. reflexivity.
Defined.

(** X13. The loop over the records only ever adds to the end of a list,
    and one record adds at most one entry to the four lists together: the
    entries of the records seen so far stay where they are, in the order
    of the log, and there are never more entries than records. *)
Theorem lists_grow_by_one_entry_at_most :
  forall records acc,
    let r := fold_left categorize_record records acc in
    exists b f x o,
      breaking r = breaking acc ++ b /\ features r = features acc ++ f /\
      fixes r = fixes acc ++ x /\ other r = other acc ++ o /\
      (length b + length f + length x + length o <= length records)%nat.
Proof.
  induction records as [|record records IH]; intros acc; cbv zeta; simpl.
  - exists [], [], [], []. rewrite !app_nil_r. repeat split. simpl. lia.
  - destruct (IH (categorize_record acc record)) as (b & f & x & o & Hb & Hf & Hx & Ho & Hn).
    cbv zeta in Hb, Hf, Hx, Ho. rewrite Hb, Hf, Hx, Ho.
    destruct (categorize_record_step acc record)
      as [-> | (line & [<-|[<-|[<-|[<-|[]]]]])]; simpl.
    + exists b, f, x, o. repeat split. lia.
    + exists (line :: b), f, x, o. rewrite <- !app_assoc. repeat split.
      simpl. lia.
    + exists b, (line :: f), x, o. rewrite <- !app_assoc. repeat split.
      simpl. lia.
    + exists b, f, (line :: x), o. rewrite <- !app_assoc. repeat split.
      simpl. lia.
    + exists b, f, x, (line :: o). rewrite <- !app_assoc. repeat split.
      simpl. lia.
Qed.

Section Characters.

Lemma mem_char_app (x : ascii) (s t : string) :
  Py.mem_char x (s +:+ t) = Py.mem_char x s || Py.mem_char x t.
Proof.
  induction s as [|c s IH]; [reflexivity|].
  rewrite sapp_cons. simpl. rewrite IH, orb_assoc. reflexivity.
Qed.

Lemma mem_char_rev (x : ascii) (s : string) :
  Py.mem_char x (Py.rev s) = Py.mem_char x s.
Proof.
  induction s as [|c s IH]; [reflexivity|].
  rewrite rev_cons, mem_char_app, IH. simpl.
  rewrite orb_false_r. apply orb_comm.
Qed.

Lemma free_of_drop_while (x : ascii) (p : ascii -> bool) (s : string) :
  free_of x s -> free_of x (Py.drop_while p s).
Proof.
  unfold free_of. induction s as [|c s IH]; simpl; [auto|].
  intros H. apply orb_false_iff in H as [Hc Hs].
  destruct (p c); [apply IH, Hs|]. simpl. rewrite Hc, Hs. reflexivity.
Qed.

Lemma free_of_strip (x : ascii) (s : string) :
  free_of x s -> free_of x (Py.strip s).
Proof.
  unfold Py.strip. intros H. unfold free_of. rewrite mem_char_rev.
  apply free_of_drop_while. unfold free_of. rewrite mem_char_rev.
  apply free_of_drop_while, H.
Qed.

Lemma free_of_cons_first (x c : ascii) (pieces : list string) (piece : string) :
  Ascii.eqb x c = false ->
  (forall p, In p pieces -> free_of x p) ->
  In piece (Py.cons_first c pieces) -> free_of x piece.
Proof.
  intros Hc Hall. destruct pieces as [|p ps]; simpl.
  - intros [<-|[]]. unfold free_of. simpl. rewrite Hc. reflexivity.
  - intros [<-|Hin].
    + unfold free_of. simpl. rewrite Hc. apply Hall. left. reflexivity.
    + apply Hall. right. exact Hin.
Qed.

Lemma split_go_cons (sep : string) (c : ascii) (s : string) :
  Py.split_go sep (String c s) 0
  = if String.prefix sep (String c s)
    then "" :: Py.split_go sep s (String.length sep - 1)
    else Py.cons_first c (Py.split_go sep s 0).
Proof. reflexivity. Qed.

Lemma split_go_skip (sep : string) (c : ascii) (s : string) (k : nat) :
  Py.split_go sep (String c s) (S k) = Py.split_go sep s k.
Proof. reflexivity. Qed.

(** The pieces of a split hold no character the string did not hold. *)
Lemma free_of_split_go (x : ascii) (sep s : string) :
  free_of x s ->
  forall skip piece, In piece (Py.split_go sep s skip) -> free_of x piece.
Proof.
  unfold free_of at 1. induction s as [|c s IH]; intros Hs skip piece.
  - destruct skip; simpl; intros [<-|[]]; reflexivity.
  - simpl in Hs. apply orb_false_iff in Hs as [Hc Hs].
    destruct skip as [|k].
    + rewrite split_go_cons.
      destruct (String.prefix sep (String c s)).
      * intros [<-|Hin]; [reflexivity | apply (IH Hs _ _ Hin)].
      * apply free_of_cons_first; [exact Hc | apply (IH Hs)].
    + rewrite split_go_skip. apply (IH Hs).
Qed.

Lemma free_of_split (x : ascii) (sep s piece : string) :
  free_of x s -> In piece (Py.split sep s) -> free_of x piece.
Proof. intros Hs. apply (free_of_split_go x sep s Hs). Qed.

End Characters.

Section NoRecords.

Lemma categorize_record_without_nul acc record :
  free_of (Py.chr 0) record -> categorize_record acc record = acc.
Proof.
  intros Hfree. unfold categorize_record.
  destruct (negb (Py.truthy (Py.strip record))); [reflexivity|].
  change Py.NUL with (String (Py.chr 0) "").
  rewrite (split_char_whole (Py.chr 0)) by (apply free_of_strip, Hfree).
  reflexivity.
Qed.

Lemma fold_records_without_nul records :
  (forall record, In record records -> free_of (Py.chr 0) record) ->
  forall acc, fold_left categorize_record records acc = acc.
Proof.
  induction records as [|r records IH]; intros Hall acc; simpl; [reflexivity|].
  rewrite categorize_record_without_nul by (apply Hall; left; reflexivity).
  apply IH. intros r' Hr'. apply Hall. right. exact Hr'.
Qed.

(** The rendering reads the four lists, and nothing else, off the
    dictionary. *)
Lemma render_reads_four_lists
    stage version source_tag repo prev_tag release_date
    (categories categories' : gmap string (list string)) :
  (forall h, In h headings -> get categories (fst h) = get categories' (fst h)) ->
  _render_markdown stage version source_tag repo prev_tag categories release_date
  = _render_markdown stage version source_tag repo prev_tag categories'
      release_date.
Proof.
  intros Hsame. unfold _render_markdown. rewrite !render_sections_shape.
  assert (Hb : get categories "breaking" = get categories' "breaking")
    by (apply (Hsame ("breaking", "## Breaking Changes")); simpl; auto 10).
  assert (Hf : get categories "features" = get categories' "features")
    by (apply (Hsame ("features", "## Features")); simpl; auto 10).
  assert (Hx : get categories "fixes" = get categories' "fixes")
    by (apply (Hsame ("fixes", "## Bug Fixes")); simpl; auto 10).
  assert (Ho : get categories "other" = get categories' "other")
    by (apply (Hsame ("other", "## Other Changes")); simpl; auto 10).
  unfold all_empty, headings, section_of. cbn [flat_map forallb fst snd].
  rewrite Hb, Hf, Hx, Ho. reflexivity.
Qed.

Lemma render_without_entries
    stage version source_tag repo prev_tag release_date
    (categories : gmap string (list string)) :
  (forall h, In h headings -> get categories (fst h) = []) ->
  _render_markdown stage version source_tag repo prev_tag categories release_date
  = Py.join Py.LF
      (fst (framing stage version source_tag repo prev_tag release_date)
         ++ [snd (framing stage version source_tag repo prev_tag release_date)]).
Proof.
  intros Hnone. unfold _render_markdown. rewrite render_sections_shape.
  assert (Hb : get categories "breaking" = [])
    by (apply (Hnone ("breaking", "## Breaking Changes")); simpl; auto 10).
  assert (Hf : get categories "features" = [])
    by (apply (Hnone ("features", "## Features")); simpl; auto 10).
  assert (Hx : get categories "fixes" = [])
    by (apply (Hnone ("fixes", "## Bug Fixes")); simpl; auto 10).
  assert (Ho : get categories "other" = [])
    by (apply (Hnone ("other", "## Other Changes")); simpl; auto 10).
  unfold all_empty, headings, section_of. cbn [flat_map forallb fst snd].
  rewrite Hb, Hf, Hx, Ho. reflexivity.
Qed.

End NoRecords.

(** X14. A log that holds no NUL character, the empty log among them,
    gives no entry at all, and the notes rendered from it are the framing
    of the stage followed by its empty-state text. *)
Theorem log_without_separators_renders_empty :
  forall raw_log stage version source_tag repo prev_tag release_date,
    free_of (Py.chr 0) raw_log ->
    categorize_log raw_log = no_lists /\
    _render_markdown stage version source_tag repo prev_tag
      (_categorize_commits raw_log) release_date
    = Py.join Py.LF
        (fst (framing stage version source_tag repo prev_tag release_date)
           ++ [snd (framing stage version source_tag repo prev_tag release_date)]).
Proof.
  intros raw_log stage version source_tag repo prev_tag release_date Hfree.
  assert (Hlog : categorize_log raw_log = no_lists).
  { unfold categorize_log. apply fold_records_without_nul.
    intros record Hin. apply (free_of_split _ _ _ _ Hfree Hin). }
  split; [exact Hlog|].
  apply render_without_entries. unfold _categorize_commits. rewrite Hlog.
  intros h [<-|[<-|[<-|[<-|[]]]]]; reflexivity.
Qed.

Lemma log_without_separators_renders_empty_witness :
  categorize_log "fatal: not a git repository" = no_lists.
Proof.
  apply (log_without_separators_renders_empty
           "fatal: not a git repository" "dev" "1.1.23.dev1" "" "" "" "2026-01-01").
  reflexivity.
Defined.

(** X15. [_render_markdown] takes every stage other than dev and rc for
    stable. *)
Theorem render_takes_any_other_stage_for_stable :
  forall stage version source_tag repo prev_tag categories release_date,
    stage <> "dev" -> stage <> "rc" ->
    _render_markdown stage version source_tag repo prev_tag categories
      release_date
    = _render_markdown "stable" version source_tag repo prev_tag categories
        release_date.
Proof.
  intros stage version source_tag repo prev_tag categories release_date Hd Hr.
  apply String.eqb_neq in Hd. apply String.eqb_neq in Hr.
  unfold _render_markdown, render_sections, framing. rewrite Hd, Hr.
  reflexivity.
Qed.

Lemma render_takes_any_other_stage_for_stable_witness :
  _render_markdown "final" "1.1.23" "" "" "" ∅ "2026-01-01"
  = _render_markdown "stable" "1.1.23" "" "" "" ∅ "2026-01-01".
Proof.
  apply (render_takes_any_other_stage_for_stable
           "final" "1.1.23" "" "" "" ∅ "2026-01-01"); discriminate.
Defined.

(** X16. The optional lines of the framing: without a previous tag or
    without a repository there is no compare link, whatever the other of
    the two is, and the notes of a dev snapshot never name a source tag. *)
Theorem optional_lines_of_the_framing :
  forall stage version source_tag repo prev_tag categories release_date,
    (prev_tag = "" \/ repo = "" ->
     _render_markdown stage version source_tag repo prev_tag categories
       release_date
     = _render_markdown stage version source_tag "" "" categories release_date) /\
    _render_markdown "dev" version source_tag repo prev_tag categories
      release_date
    = _render_markdown "dev" version "" repo prev_tag categories release_date.
Proof.
  intros stage version source_tag repo prev_tag categories release_date.
  split; [|reflexivity].
  intros Hnone. unfold _render_markdown, render_sections, framing.
  assert (Hlink : Py.truthy prev_tag && Py.truthy repo = false).
  { destruct Hnone as [-> | ->]; [reflexivity | apply andb_false_r]. }
  rewrite Hlink. reflexivity.
Qed.

Lemma optional_lines_of_the_framing_witness :
  _render_markdown "rc" "1.1.23rc1" "" "nwave-ai/nwave-dev" "" ∅ "2026-01-01"
  = _render_markdown "rc" "1.1.23rc1" "" "" "" ∅ "2026-01-01".
Proof.
  apply (proj1 (optional_lines_of_the_framing
                  "rc" "1.1.23rc1" "" "nwave-ai/nwave-dev" "" ∅ "2026-01-01")).
  left. reflexivity.
Defined.

(** X17. [_render_markdown] reads the dictionary through its four keys
    only: a key that is missing counts as a list without entries, and any
    other key is ignored. *)
Theorem render_reads_the_four_keys_only :
  forall stage version source_tag repo prev_tag release_date
         (categories categories' : gmap string (list string)),
    (forall key, In key ["breaking"; "features"; "fixes"; "other"] ->
                 default [] (categories !! key) = default [] (categories' !! key)) ->
    _render_markdown stage version source_tag repo prev_tag categories
      release_date
    = _render_markdown stage version source_tag repo prev_tag categories'
        release_date.
Proof.
  intros stage version source_tag repo prev_tag release_date c c' Hsame.
  apply render_reads_four_lists.
  intros h [<-|[<-|[<-|[<-|[]]]]]; apply Hsame; simpl; auto.
Qed.

Lemma render_reads_the_four_keys_only_witness :
  _render_markdown "dev" "1.1.23.dev1" "" "" ""
    (<["features" := ["- feat: x (`a1`)"]]> ∅) "2026-01-01"
  = _render_markdown "dev" "1.1.23.dev1" "" "" ""
      (<["features" := ["- feat: x (`a1`)"]]>
         (<["fixes" := []]> (<["reverts" := ["- revert: y (`a2`)"]]> ∅)))
      "2026-01-01".
Proof.
  apply render_reads_the_four_keys_only.
  intros key [<-|[<-|[<-|[<-|[]]]]]; reflexivity.
Defined.

(* ===================================================================== *)
(** * Reading the history for the changelog *)
(* ===================================================================== *)

Section History.

Lemma head_of_filter {A B} (f : A -> B) (p : A -> bool) (l : list A) (y : B) :
  head (map f (List.filter p l)) = Some y ->
  exists x, In x l /\ p x = true /\ y = f x.
Proof.
  induction l as [|x l IH]; simpl; [discriminate|].
  destruct (p x) eqn:E; simpl.
  - intros [= <-]. exists x. auto.
  - intros H. destruct (IH H) as (x' & Hin & Hp & ->). exists x'. auto.
Qed.

Lemma find_previous_tag_run stage current_version env log :
  stage <> "dev" ->
  _find_previous_tag stage current_version env log
  = (match env ["git"; "tag"; "--sort=-v:refname"; "--merged"; "HEAD"] with
     | None => ""
     | Some result =>
         if negb (returncode result =? 0)%Z then ""
         else default ""
                (head
                   (map Py.strip
                      (List.filter (earlier_release stage current_version)
                         (Py.splitlines (Py.strip (stdout result))))))
     end,
     log ++ [["git"; "tag"; "--sort=-v:refname"; "--merged"; "HEAD"]]).
Proof.
  intros Hne. apply String.eqb_neq in Hne.
  unfold _find_previous_tag. rewrite Hne.
  unfold mbind, runos_bind, try_subprocess_run, mret, runos_ret.
  destruct (env _) as [result|]; [|reflexivity].
  destruct (negb _); reflexivity.
Qed.

Lemma find_previous_tag_dev current_version env log :
  _find_previous_tag "dev" current_version env log
  = (match env ["git"; "describe"; "--tags"; "--abbrev=0"; "HEAD^"] with
     | None => ""
     | Some result =>
         if negb (returncode result =? 0)%Z then ""
         else Py.strip (stdout result)
     end,
     log ++ [["git"; "describe"; "--tags"; "--abbrev=0"; "HEAD^"]]).
Proof.
  unfold _find_previous_tag. rewrite String.eqb_refl.
  unfold mbind, runos_bind, try_subprocess_run, mret, runos_ret.
  destruct (env _) as [result|]; [|reflexivity].
  destruct (negb _); reflexivity.
Qed.

Lemma fetch_commits_run prev_tag env log :
  exists cmd,
    _fetch_commits prev_tag env log
    = (match env cmd with
       | None => ""
       | Some result =>
           if negb (returncode result =? 0)%Z then "" else stdout result
       end, log ++ [cmd]) /\
    cmd = if Py.truthy prev_tag
          then ["git"; "log"; prev_tag +:+ "..HEAD"; "--no-merges";
                "--pretty=format:" +:+ log_format]
          else ["git"; "log"; "--no-merges"; "--pretty=format:" +:+ log_format].
Proof.
  unfold _fetch_commits.
  unfold mbind, runos_bind, try_subprocess_run, mret, runos_ret.
  eexists. split; [|reflexivity].
  destruct (Py.truthy prev_tag); cbn [take drop app].
  - destruct (env _) as [result|]; [|reflexivity].
    destruct (negb _); reflexivity.
  - destruct (env _) as [result|]; [|reflexivity].
    destruct (negb _); reflexivity.
Qed.

Lemma failed_command env cmd :
  command_fails env cmd ->
  match env cmd with
  | None => ""
  | Some result =>
      if negb (returncode result =? 0)%Z then "" else stdout result
  end = "".
Proof.
  unfold command_fails. destruct (env cmd) as [result|]; [|reflexivity].
  intros Hrc. apply Z.eqb_neq in Hrc. rewrite Hrc. reflexivity.
Qed.

Lemma failed_command_strip env cmd :
  command_fails env cmd ->
  match env cmd with
  | None => ""
  | Some result =>
      if negb (returncode result =? 0)%Z then ""
      else Py.strip (stdout result)
  end = "".
Proof.
  unfold command_fails. destruct (env cmd) as [result|]; [|reflexivity].
  intros Hrc. apply Z.eqb_neq in Hrc. rewrite Hrc. reflexivity.
Qed.

End History.

(** X18. For the rc and the stable stage, [_find_previous_tag] runs one
    command, the listing of the merged tags, and returns the empty string
    or a line of that listing, stripped, that has the shape of a tag of the
    stage and is not the tag of the version being released; it returns the
    empty string when the command cannot be run or fails. *)
Theorem previous_tag_is_never_the_current_one :
  forall stage current_version env,
    stage <> "dev" ->
    let listing := ["git"; "tag"; "--sort=-v:refname"; "--merged"; "HEAD"] in
    let previous := fst (_find_previous_tag stage current_version env []) in
    snd (_find_previous_tag stage current_version env []) = [listing] /\
    (previous = "" \/
     exists result line,
       env listing = Some result /\
       In line (Py.splitlines (Py.strip (stdout result))) /\
       previous = Py.strip line /\
       previous <> "v" +:+ current_version /\
       matches (if String.eqb stage "rc" then rc_tag_re else stable_tag_re)
         previous = true) /\
    (command_fails env listing -> previous = "").
Proof.
  intros stage current_version env Hne. cbv zeta.
  rewrite (find_previous_tag_run _ _ _ _ Hne). cbn [fst snd].
  split; [reflexivity|]. split.
  - destruct (env _) as [result|] eqn:E; [|auto].
    destruct (negb _); [auto|].
    destruct (head _) as [t|] eqn:Eh; [|auto]. right.
    apply head_of_filter in Eh as (line & Hin & Hp & ->).
    unfold earlier_release in Hp. apply andb_true_iff in Hp as [Hm Hcur].
    apply negb_true_iff, String.eqb_neq in Hcur.
    exists result, line. simpl. auto.
  - unfold command_fails. destruct (env _) as [result|]; [|reflexivity].
    intros Hrc. apply Z.eqb_neq in Hrc. rewrite Hrc. reflexivity.
Qed.

Lemma previous_tag_is_never_the_current_one_witness :
  fst (_find_previous_tag "rc" "1.1.23rc2"
         (merged_tags ["v1.1.23rc2"; "v1.1.23.dev4"; "v1.1.23rc1"; "v1.1.22"]) [])
  <> "v" +:+ "1.1.23rc2".
Proof.
  destruct (proj1 (proj2 (previous_tag_is_never_the_current_one
             "rc" "1.1.23rc2"
             (merged_tags ["v1.1.23rc2"; "v1.1.23.dev4"; "v1.1.23rc1"; "v1.1.22"])
             ltac:(discriminate))))
    as [H | (result & line & _ & _ & _ & H & _)].
  - rewrite H. discriminate.
  - exact H.
Defined.

(** X19. When no git command can be run or every one fails, the notes are
    still produced, from two attempts: there is no previous tag, so no
    compare link, and no entry, so the notes are the framing of the stage
    followed by its empty-state text. *)
Theorem notes_survive_a_failing_git :
  forall stage version source_tag repo release_date env,
    (forall cmd, command_fails env cmd) ->
    fst (release_notes stage version source_tag repo release_date env [])
    = Py.join Py.LF
        (fst (framing stage version source_tag repo "" release_date)
           ++ [snd (framing stage version source_tag repo "" release_date)]) /\
    length (snd (release_notes stage version source_tag repo release_date env []))
    = 2%nat.
Proof.
  intros stage version source_tag repo release_date env Hfail.
  assert (Hprev : exists cmd,
             _find_previous_tag stage version env [] = ("", [cmd])).
  { destruct (String.eqb stage "dev") eqn:E.
    - apply String.eqb_eq in E. subst stage.
      rewrite find_previous_tag_dev. eexists.
      rewrite (failed_command_strip env _ (Hfail _)). reflexivity.
    - apply String.eqb_neq in E.
      rewrite (find_previous_tag_run _ _ _ _ E). eexists.
      pose proof (Hfail ["git"; "tag"; "--sort=-v:refname"; "--merged"; "HEAD"])
        as Hf. unfold command_fails in Hf.
      destruct (env _) as [result|]; [|reflexivity].
      apply Z.eqb_neq in Hf. rewrite Hf. reflexivity. }
  destruct Hprev as (cmd1 & Hprev).
  destruct (fetch_commits_run "" env [cmd1]) as (cmd2 & Hfetch & _).
  rewrite (failed_command env cmd2 (Hfail cmd2)) in Hfetch.
  unfold release_notes, mbind, runos_bind, mret, runos_ret.
  rewrite Hprev, Hfetch. cbn [fst snd].
  split; [|reflexivity].
  apply render_without_entries.
  intros h [<-|[<-|[<-|[<-|[]]]]]; reflexivity.
Qed.

Lemma notes_survive_a_failing_git_witness :
  fst (release_notes "stable" "1.1.23" "" "" "2026-01-01" git_missing [])
  = Py.join Py.LF
      (fst (framing "stable" "1.1.23" "" "" "" "2026-01-01")
         ++ [snd (framing "stable" "1.1.23" "" "" "" "2026-01-01")]).
Proof.
  apply (notes_survive_a_failing_git
           "stable" "1.1.23" "" "" "2026-01-01" git_missing).
  intros cmd. exact I.
Defined.

(** X20. The type of a conventional subject is in lower case from its
    first character on: a subject that is empty or starts with anything
    but one of the letters a to z does not match the grammar, so that,
    unless it is left out or its body holds the breaking marker, its
    commit is entered under other. *)
Theorem subject_must_start_in_lower_case :
  forall subject,
    match subject with
    | EmptyString => True
    | String c _ => Py.is_lower c = false
    end ->
    conventional subject = false /\
    forall acc body sha,
      excluded subject = false ->
      Py.contains "BREAKING CHANGE:" body = false ->
      categorize_commit acc subject body sha
      = other_append acc (entry_line subject sha).
Proof.
  intros subject Hstart.
  assert (Hparse : _parse_conventional_commit subject = None).
  { unfold _parse_conventional_commit, Re.match_, _CONVENTIONAL_RE.
    destruct subject as [|c s]; [reflexivity|].
    cbn [Re.cat_all Re.run Re.plus Nat.eqb]. rewrite Hstart. reflexivity. }
  split; [unfold conventional; rewrite Hparse; reflexivity|].
  intros acc body sha Hex Hbody. unfold excluded in Hex.
  unfold categorize_commit. rewrite Hex, Hparse, Hbody. reflexivity.
Qed.

Lemma subject_must_start_in_lower_case_witness :
  conventional "Feat: add login" = false.
Proof.
  apply (subject_must_start_in_lower_case "Feat: add login"). reflexivity.
Defined.

(* ===================================================================== *)
(** * Following a match through a pattern *)
(* ===================================================================== *)

Import ReLogic.

Section Matching.

Lemma run_star (r : Re.re) pos s g k :
  Re.run (Re.Star r) pos s g k
  = star_iter (Re.run r) k (S (String.length s)) pos s g.
Proof. reflexivity. Qed.

Lemma run_cat (r1 r2 : Re.re) pos s g k :
  Re.run (Re.Cat r1 r2) pos s g k
  = Re.run r1 pos s g (fun pos' s' g' => Re.run r2 pos' s' g' k).
Proof. reflexivity. Qed.

Lemma suffix_refl s : suffix s s.
Proof. exists "". reflexivity. Qed.

Lemma suffix_tail c s : suffix s (String c s).
Proof. exists (String c ""). reflexivity. Qed.

Lemma suffix_trans s1 s2 s3 : suffix s1 s2 -> suffix s2 s3 -> suffix s1 s3.
Proof.
  intros (p1 & ->) (p2 & ->). exists (p2 +:+ p1). symmetry. apply sapp_assoc.
Qed.

(** The continuation only ever sees what is left of the subject: when it
    fails on all of that, the match fails. *)
Lemma run_suffix_none (r : Re.re) :
  forall pos s g k,
    (forall pos' s' g', suffix s' s -> k pos' s' g' = None) ->
    Re.run r pos s g k = None.
Proof.
  induction r as [|p|r1 IH1 r2 IH2|r1 IH1 r2 IH2|r IH|name r IH| |];
    intros pos s g k Hk.
  - apply Hk, suffix_refl.
  - destruct s as [|c s]; [reflexivity|]. simpl.
    destruct (p c); [apply Hk, suffix_tail | reflexivity].
  - rewrite run_cat. apply IH1. intros pos' s' g' Hs'. apply IH2.
    intros pos'' s'' g'' Hs''. apply Hk. eapply suffix_trans; eauto.
  - simpl. rewrite IH1, IH2 by exact Hk. reflexivity.
  - rewrite run_star. generalize (S (String.length s)). intros fuel.
    assert (Hall : forall fuel pos' s' g',
               suffix s' s -> star_iter (Re.run r) k fuel pos' s' g' = None).
    { clear fuel. induction fuel as [|fuel IHf]; intros pos' s' g' Hs'; simpl.
      - apply Hk, Hs'.
      - rewrite IH.
        + apply Hk, Hs'.
        + intros pos'' s'' g'' Hs''. destruct (pos' <? pos'')%nat; [|reflexivity].
          apply IHf. eapply suffix_trans; eauto. }
    apply Hall, suffix_refl.
  - simpl. apply IH. intros pos' s' g' Hs'. apply Hk, Hs'.
  - simpl. destruct (pos =? 0)%nat; [apply Hk, suffix_refl | reflexivity].
  - simpl. destruct s as [|c [|d s]]; try reflexivity.
    + apply Hk, suffix_refl.
    + destruct (Py.code c =? 10)%N; [apply Hk, suffix_refl | reflexivity].
Qed.

(** ** Patterns that fail *)

Lemma fails_chr (p : ascii -> bool) (s : string) :
  stops p s -> Fails (Re.Chr p) s.
Proof.
  intros Hs pos g k. destruct s as [|c s]; [reflexivity|].
  simpl in *. rewrite Hs. reflexivity.
Qed.

Lemma fails_cat_l (r1 r2 : Re.re) (s : string) :
  Fails r1 s -> Fails (Re.Cat r1 r2) s.
Proof. intros H pos g k. rewrite run_cat. apply H. Qed.

Lemma fails_cat_suffix (r1 r2 : Re.re) (s : string) :
  (forall s', suffix s' s -> Fails r2 s') -> Fails (Re.Cat r1 r2) s.
Proof.
  intros H pos g k. rewrite run_cat. apply run_suffix_none.
  intros pos' s' g' Hs'. apply (H s' Hs').
Qed.

Lemma fails_group (name : string) (r : Re.re) (s : string) :
  Fails r s -> Fails (Re.Group name r) s.
Proof. intros H pos g k. simpl. apply H. Qed.

(** ** Patterns that are passed over *)

Lemma skips_opt (r : Re.re) (s : string) : Fails r s -> Skips (Re.opt r) s.
Proof. intros H pos g k. unfold Re.opt. simpl. rewrite H. reflexivity. Qed.

Lemma skips_star (r : Re.re) (s : string) : Fails r s -> Skips (Re.Star r) s.
Proof. intros H pos g k. rewrite run_star. simpl. rewrite H. reflexivity. Qed.

Lemma run_cat_skip (r1 r2 : Re.re) pos s g k :
  Skips r1 s -> Re.run (Re.Cat r1 r2) pos s g k = Re.run r2 pos s g k.
Proof. intros H. rewrite run_cat. apply H. Qed.

(** ** Patterns that match a given prefix *)

Lemma take_exact (x rest : string) (n : nat) :
  n = String.length x -> Re.take n (x +:+ rest) = x.
Proof.
  intros ->. induction x as [|c x IH].
  - reflexivity.
  - rewrite sapp_cons. simpl. rewrite IH. reflexivity.
Qed.

Lemma commits_chr (p : ascii -> bool) (c : ascii) (rest : string) :
  p c = true -> Commits (Re.Chr p) (String c "") rest [].
Proof.
  intros Hc pos g k m Hk. change (String c "" +:+ rest) with (String c rest).
  simpl. rewrite Hc. simpl in Hk. rewrite Nat.add_1_r in Hk. exact Hk.
Qed.

Lemma commits_cat (r1 r2 : Re.re) (x y rest : string) (g1 g2 : Re.groups) :
  Commits r1 x (y +:+ rest) g1 -> Commits r2 y rest g2 ->
  Commits (Re.Cat r1 r2) (x +:+ y) rest (g2 ++ g1).
Proof.
  intros H1 H2 pos g k m Hk. rewrite run_cat, sapp_assoc.
  apply H1, H2. rewrite slength_app, Nat.add_assoc, <- app_assoc in Hk.
  exact Hk.
Qed.

Lemma commits_alt_l (r1 r2 : Re.re) (x rest : string) (gs : Re.groups) :
  Commits r1 x rest gs -> Commits (Re.Alt r1 r2) x rest gs.
Proof. intros H pos g k m Hk. simpl. rewrite (H _ _ _ _ Hk). reflexivity. Qed.

Lemma commits_alt_r (r1 r2 : Re.re) (x rest : string) (gs : Re.groups) :
  Fails r1 (x +:+ rest) -> Commits r2 x rest gs ->
  Commits (Re.Alt r1 r2) x rest gs.
Proof. intros Hf H pos g k m Hk. simpl. rewrite Hf. apply H, Hk. Qed.

Lemma commits_opt (r : Re.re) (x rest : string) (gs : Re.groups) :
  Commits r x rest gs -> Commits (Re.opt r) x rest gs.
Proof. apply commits_alt_l. Qed.

Lemma commits_group (name : string) (r : Re.re) (x rest : string)
    (gs : Re.groups) :
  Commits r x rest gs -> Commits (Re.Group name r) x rest ((name, x) :: gs).
Proof.
  intros H pos g k m Hk. simpl. apply H.
  rewrite take_exact by lia. exact Hk.
Qed.

Lemma commits_star_nil (r : Re.re) (rest : string) :
  Fails r rest -> CommitsStar r "" rest [].
Proof.
  intros Hf fuel pos g k m Hfuel Hk.
  change ("" +:+ rest) with rest in *. simpl in Hk. rewrite Nat.add_0_r in Hk.
  destruct fuel as [|fuel]; simpl; [exact Hk|]. rewrite Hf. exact Hk.
Qed.

Lemma commits_star_cons (r : Re.re) (x y rest : string) (g1 g2 : Re.groups) :
  Commits r x (y +:+ rest) g1 -> x <> "" -> CommitsStar r y rest g2 ->
  CommitsStar r (x +:+ y) rest (g2 ++ g1).
Proof.
  intros H1 Hx H2 fuel pos g k m Hfuel Hk.
  rewrite sapp_assoc in *. rewrite slength_app in Hfuel.
  assert (Hlen : (0 < String.length x)%nat)
    by (destruct x; [congruence | simpl; lia]).
  destruct fuel as [|fuel]; [lia|]. simpl.
  rewrite (H1 pos g _ m); [reflexivity|].
  assert (Hlt : (pos <? pos + String.length x)%nat = true)
    by (apply Nat.ltb_lt; lia).
  rewrite Hlt. apply H2; [lia|].
  rewrite slength_app, Nat.add_assoc, <- app_assoc in Hk. exact Hk.
Qed.

Lemma commits_star (r : Re.re) (x rest : string) (gs : Re.groups) :
  CommitsStar r x rest gs -> Commits (Re.Star r) x rest gs.
Proof. intros H pos g k m Hk. rewrite run_star. apply H; [lia | exact Hk]. Qed.

(** A run of characters of a class, up to a character that is not in it. *)
Lemma commits_star_chars (p : ascii -> bool) (x rest : string) :
  Packaging.all_chars p x = true -> stops p rest ->
  CommitsStar (Re.Chr p) x rest [].
Proof.
  intros Hall Hrest. induction x as [|c x IH].
  - apply commits_star_nil, fails_chr, Hrest.
  - simpl in Hall. apply andb_true_iff in Hall as [Hc Hx].
    apply (commits_star_cons (Re.Chr p) (String c "") x rest [] []).
    + apply commits_chr, Hc.
    + discriminate.
    + apply IH, Hx.
Qed.

Lemma commits_plus_chars (p : ascii -> bool) (x rest : string) :
  x <> "" -> Packaging.all_chars p x = true -> stops p rest ->
  Commits (Re.plus (Re.Chr p)) x rest [].
Proof.
  intros Hne Hall Hrest. destruct x as [|c x]; [congruence|].
  simpl in Hall. apply andb_true_iff in Hall as [Hc Hx].
  apply (commits_cat (Re.Chr p) (Re.Star (Re.Chr p)) (String c "") x rest [] []).
  - apply commits_chr, Hc.
  - apply commits_star, commits_star_chars; assumption.
Qed.

Lemma commits_digits (x rest : string) :
  digit_string x -> stops Py.is_digit rest -> Commits digits x rest [].
Proof. intros [Hne Hall]. apply commits_plus_chars; assumption. Qed.

Lemma run_cat_commit (r1 r2 : Re.re) (x rest : string) (gs : Re.groups)
    pos g k m :
  Commits r1 x rest gs ->
  Re.run r2 (pos + String.length x)%nat rest (gs ++ g) k = Some m ->
  Re.run (Re.Cat r1 r2) pos (x +:+ rest) g k = Some m.
Proof. intros H Hk. rewrite run_cat. apply H, Hk. Qed.

End Matching.

(* ===================================================================== *)
(** * Decimal numbers and canonical tags *)
(* ===================================================================== *)

Section Decimal.

Lemma all_digits_uint (d : Decimal.uint) :
  Packaging.all_chars Py.is_digit (NilEmpty.string_of_uint d) = true.
Proof. induction d; simpl; auto. Qed.

Lemma digits_onto_uint_acc (d : Decimal.uint) :
  forall acc : positive,
    Py.digits_onto (NilEmpty.string_of_uint d) (Z.pos acc)
    = Z.pos (Pos.of_uint_acc d acc).
Proof.
  induction d; intros acc; simpl; [reflexivity| ..];
    match goal with
    | |- Py.digits_onto _ ?z = Z.pos (Pos.of_uint_acc _ ?q) =>
        replace z with (Z.pos q)
          by (unfold Py.digit_val; simpl Py.code; lia);
        apply IHd
    end.
Qed.

Lemma digits_onto_uint (d : Decimal.uint) :
  Py.digits_onto (NilEmpty.string_of_uint d) 0 = Z.of_N (Pos.of_uint d).
Proof.
  induction d; simpl; [reflexivity | exact IHd | ..];
    apply (digits_onto_uint_acc d).
Qed.

(** The text of [n] stands for [n], and is a run of digits, for [n >= 0]. *)
Lemma digits_value_str_int (n : Z) :
  (0 <= n)%Z -> Py.digits_value (Py.str_int n) = n.
Proof.
  intros Hn. destruct n as [|p|p]; [reflexivity| |lia].
  unfold Py.digits_value, Py.str_int. simpl Z.to_int.
  unfold NilZero.string_of_int, NilZero.string_of_uint.
  destruct (Pos.to_uint p) eqn:E;
    [exfalso; exact (Unsigned.to_uint_nonnil p E) | ..];
    rewrite <- E, digits_onto_uint, DecimalPos.Unsigned.of_to; reflexivity.
Qed.

(** Within the limit, [int()] returns the number the digits stand for. *)
Lemma int_digits_short (s : string) :
  short s -> Py.int_digits s = Returns (Py.digits_value s).
Proof.
  unfold short, Py.int_digits. intros H.
  apply Nat.ltb_ge in H. rewrite H. reflexivity.
Qed.

Lemma int_digits_overlong (s : string) :
  ~ short s -> Py.int_digits s = Raises ValueError.
Proof.
  unfold short, Py.int_digits. intros H.
  apply Nat.nle_gt, Nat.ltb_lt in H. rewrite H. reflexivity.
Qed.

Lemma convertible_by_test (n : Z) :
  (0 <=? n)%Z
  && (String.length (Py.str_int n) <=? Py.int_max_str_digits)%nat = true ->
  convertible n.
Proof.
  intros H. apply andb_true_iff in H as [Hn Hs].
  split; [apply Z.leb_le, Hn | apply Nat.leb_le, Hs].
Qed.

(** [int(str(n))] is [n] for a number that is convertible. *)
Lemma int_digits_str_int (n : Z) :
  convertible n -> Py.int_digits (Py.str_int n) = Returns n.
Proof.
  intros [Hn Hs]. rewrite (int_digits_short _ Hs), (digits_value_str_int _ Hn).
  reflexivity.
Qed.

Lemma digit_string_str_int (n : Z) : (0 <= n)%Z -> digit_string (Py.str_int n).
Proof.
  intros Hn. destruct n as [|p|p]; [split; [discriminate | reflexivity]| |lia].
  unfold Py.str_int. simpl Z.to_int.
  unfold NilZero.string_of_int, NilZero.string_of_uint.
  destruct (Pos.to_uint p) eqn:E;
    [exfalso; exact (Unsigned.to_uint_nonnil p E) | ..];
    (split; [discriminate | rewrite <- E at 1]);
    try apply all_digits_uint.
Qed.

End Decimal.

Section DigitStrings.

Lemma digit_is_no_other (c : ascii) :
  Py.is_digit c = true ->
  Py.isspace c = false /\
  Py.mem_char c "-_." = false /\
  Ascii.eqb (Py.lower_char c) (Py.lower_char "v") = false /\
  Ascii.eqb "!" c = false /\
  Ascii.eqb "." c = false.
Proof.
  destruct c as [[] [] [] [] [] [] [] []]; vm_compute; intros H;
    try discriminate H; repeat split.
Qed.

Lemma stops_digit_string (p : ascii -> bool) (x rest : string) :
  (forall c, Py.is_digit c = true -> p c = false) ->
  digit_string x -> stops p (x +:+ rest).
Proof.
  intros Hp [Hne Hall]. destruct x as [|c x]; [congruence|].
  simpl in Hall. apply andb_true_iff in Hall as [Hc _].
  rewrite sapp_cons. simpl. apply Hp, Hc.
Qed.

Lemma free_of_digits (c : ascii) (x : string) :
  Py.is_digit c = false ->
  Packaging.all_chars Py.is_digit x = true -> free_of c x.
Proof.
  intros Hc. unfold free_of. induction x as [|d x IH]; simpl; [reflexivity|].
  intros H. apply andb_true_iff in H as [Hd Hx].
  rewrite (IH Hx), orb_false_r.
  destruct (Ascii.eqb c d) eqn:E; [|reflexivity].
  apply Ascii.eqb_eq in E. congruence.
Qed.

Lemma free_of_app (c : ascii) (x y : string) :
  free_of c x -> free_of c y -> free_of c (x +:+ y).
Proof. unfold free_of. rewrite mem_char_app. intros -> ->. reflexivity. Qed.

Lemma free_of_suffix (c : ascii) (s s' : string) :
  free_of c s -> suffix s' s -> stops (Ascii.eqb c) s'.
Proof.
  intros Hs (pre & ->). unfold free_of in Hs. rewrite mem_char_app in Hs.
  apply orb_false_iff in Hs as [_ Hs']. destruct s' as [|d s']; simpl; [exact I|].
  simpl in Hs'. apply orb_false_iff in Hs' as [Hd _]. exact Hd.
Qed.

Lemma search_hit (r : Re.re) (s : string) (m : Re.groups) :
  Re.run r 0 s [] (fun _ _ g => Some g) = Some m -> Re.search r s = Some m.
Proof.
  intros H. unfold Re.search. destruct s; simpl; rewrite H; reflexivity.
Qed.

Lemma run_bol (r : Re.re) s g k :
  Re.run (Re.Cat Re.Bol r) 0 s g k = Re.run r 0 s g k.
Proof. reflexivity. Qed.

Lemma run_cat_assoc (a b c : Re.re) pos s g k :
  Re.run (Re.Cat (Re.Cat a b) c) pos s g k
  = Re.run (Re.Cat a (Re.Cat b c)) pos s g k.
Proof. reflexivity. Qed.

Lemma commits_star_one (r : Re.re) (x rest : string) (gs : Re.groups) :
  Commits r x rest gs -> x <> "" -> Fails r rest -> CommitsStar r x rest gs.
Proof.
  intros H Hx Hf.
  pose proof (commits_star_cons r x "" rest gs [] H Hx (commits_star_nil r rest Hf))
    as Hs.
  rewrite sapp_nil_r in Hs. exact Hs.
Qed.

Lemma run_cat_commit_end (r1 r2 : Re.re) (x : string) (gs : Re.groups)
    pos g k m :
  Commits r1 x "" gs ->
  Re.run r2 (pos + String.length x)%nat "" (gs ++ g) k = Some m ->
  Re.run (Re.Cat r1 r2) pos x g k = Some m.
Proof.
  intros H Hk. rewrite <- (sapp_nil_r x) at 1. eapply run_cat_commit; eauto.
Qed.

(** The release segment: three runs of digits with dots between them. *)
Lemma commits_release (a b c rest : string) :
  digit_string a -> digit_string b -> digit_string c ->
  Fails (Re.Cat (Re.char ".") digits) rest -> stops Py.is_digit rest ->
  Commits
    (Re.Group "release"
       (Re.Cat digits (Re.Star (Re.Cat (Re.char ".") digits))))
    (a +:+ String "." b +:+ String "." c) rest
    [("release", a +:+ String "." b +:+ String "." c)].
Proof.
  intros Ha Hb Hc Hstop Hrest.
  apply (commits_group "release" _ _ rest []).
  apply (commits_cat digits _ a (String "." b +:+ String "." c) rest [] []).
  - apply commits_digits; [exact Ha | reflexivity].
  - apply commits_star.
    apply (commits_star_cons _ (String "." b) (String "." c) rest [] []).
    + apply (commits_cat (Re.char ".") digits (String "." "") b
               (String "." c +:+ rest) [] []).
      * apply commits_chr. reflexivity.
      * apply commits_digits; [exact Hb | reflexivity].
    + discriminate.
    + apply commits_star_one; [|discriminate | exact Hstop].
      apply (commits_cat (Re.char ".") digits (String "." "") c rest [] []).
      * apply commits_chr. reflexivity.
      * apply commits_digits; [exact Hc | exact Hrest].
Qed.

Lemma commits_eps (rest : string) : Commits Re.Eps "" rest [].
Proof.
  intros pos g k m Hk. simpl in *. rewrite Nat.add_0_r in Hk. exact Hk.
Qed.

Lemma commits_dev_segment (n : string) :
  digit_string n ->
  Commits
    (Re.Group "dev"
       (Re.Cat (Re.opt sep)
          (Re.Cat (Re.Group "dev_l" (Re.lit_i "dev"))
             (Re.Cat (Re.opt sep) (Re.opt (Re.Group "dev_n" digits))))))
    (".dev" +:+ n) ""
    [("dev", ".dev" +:+ n); ("dev_n", n); ("dev_l", "dev")].
Proof.
  intros Hn.
  assert (D4 : Commits (Re.opt (Re.Group "dev_n" digits)) n "" [("dev_n", n)]).
  { apply commits_opt, commits_group, commits_digits; [exact Hn | exact I]. }
  assert (D3 : Commits (Re.opt sep) "" (n +:+ "") []).
  { apply commits_alt_r; [|apply commits_eps].
    apply fails_chr, (stops_digit_string _ n ""); [|exact Hn].
    intros d Hd. apply (digit_is_no_other d Hd). }
  assert (D2 : Commits (Re.Group "dev_l" (Re.lit_i "dev")) "dev" (n +:+ "")
                 [("dev_l", "dev")]).
  { apply commits_group.
    apply (commits_cat (Re.char_i "d") _ "d" "ev" (n +:+ "") [] []);
      [apply commits_chr; reflexivity|].
    apply (commits_cat (Re.char_i "e") (Re.char_i "v") "e" "v" (n +:+ "") [] []);
      apply commits_chr; reflexivity. }
  assert (D1 : Commits (Re.opt sep) "." ("dev" +:+ n +:+ "") []).
  { apply commits_opt, commits_chr. reflexivity. }
  pose proof (commits_cat _ _ "" n "" [] [("dev_n", n)] D3 D4) as D34.
  pose proof (commits_cat _ _ "dev" n "" [("dev_l", "dev")] _ D2 D34) as D234.
  pose proof (commits_cat _ _ "." ("dev" +:+ n) "" [] _ D1 D234) as D.
  exact (commits_group "dev" _ (".dev" +:+ n) "" _ D).
Qed.

Lemma split_three (sep : ascii) (a b c : string) :
  (forall x, In x [a; b; c] -> free_of sep x) ->
  Py.split (String sep "") (a +:+ String sep b +:+ String sep c) = [a; b; c].
Proof.
  intros Hfree.
  change (a +:+ String sep b +:+ String sep c)
    with (a +:+ String sep (b +:+ String sep c)).
  rewrite !split_char_app by (apply Hfree; simpl; auto).
  rewrite split_char_whole by (apply Hfree; simpl; auto). reflexivity.
Qed.

Lemma version_of_dev_digits (a b c n : string) :
  digit_string a -> digit_string b -> digit_string c -> digit_string n ->
  short a -> short b -> short c -> short n ->
  Version ((a +:+ String "." b +:+ String "." c) +:+ ".dev" +:+ n)
  = Returns
      {| epoch := 0;
         release := [Py.digits_value a; Py.digits_value b; Py.digits_value c];
         pre := None; post := None;
         dev := Some ("dev", Py.digits_value n); local := None |}.
Proof.
  intros Ha Hb Hc Hn Sa Sb Sc Sn.
  set (rel := a +:+ String "." b +:+ String "." c).
  assert (Hstart : forall p, (forall d, Py.is_digit d = true -> p d = false) ->
                     stops p (rel +:+ ".dev" +:+ n)).
  { intros p Hp. unfold rel. rewrite sapp_assoc.
    apply stops_digit_string; assumption. }
  assert (Hbang : free_of "!" (rel +:+ ".dev" +:+ n)).
  { unfold rel. destruct Ha as [_ Ha'], Hb as [_ Hb'], Hc as [_ Hc'], Hn as [_ Hn'].
    apply free_of_app; [apply free_of_app; [apply free_of_digits; auto|]|].
    - apply (free_of_app "!" (String "." b) (String "." c)).
      + apply (free_of_app "!" "." b); [reflexivity | apply free_of_digits; auto].
      + apply (free_of_app "!" "." c); [reflexivity | apply free_of_digits; auto].
    - apply (free_of_app "!" ".dev" n); [reflexivity | apply free_of_digits; auto]. }
  assert (Hsearch : exists m,
    Re.search _regex (rel +:+ ".dev" +:+ n) = Some m /\
    Re.group m "epoch" = None /\ Re.group m "release" = Some rel /\
    Re.group m "pre_l" = None /\ Re.group m "pre_n" = None /\
    Re.group m "post_l" = None /\ Re.group m "post_n1" = None /\
    Re.group m "post_n2" = None /\ Re.group m "dev_l" = Some "dev" /\
    Re.group m "dev_n" = Some n /\ Re.group m "local" = None).
  { eexists. split.
    - apply search_hit. unfold _regex, VERSION_PATTERN. cbn [Re.cat_all].
      rewrite run_bol.
      rewrite run_cat_skip
        by (apply skips_star, fails_chr, Hstart; intros d Hd;
            apply (digit_is_no_other d Hd)).
      rewrite run_cat_assoc.
      rewrite run_cat_skip
        by (apply skips_opt, fails_chr, Hstart; intros d Hd;
            apply (digit_is_no_other d Hd)).
      rewrite run_cat_assoc.
      rewrite run_cat_skip.
      2:{ apply skips_opt, fails_cat_suffix. intros s' Hs'.
          apply fails_chr. apply (free_of_suffix _ _ _ Hbang Hs'). }
      rewrite run_cat_assoc.
      eapply run_cat_commit.
      { apply commits_release; try assumption.
        - intros pos g k. reflexivity.
        - reflexivity. }
      rewrite run_cat_assoc.
      rewrite run_cat_skip by (apply skips_opt; intros pos g k; reflexivity).
      rewrite run_cat_assoc.
      rewrite run_cat_skip by (apply skips_opt; intros pos g k; reflexivity).
      rewrite run_cat_assoc.
      eapply (run_cat_commit_end _ _ (".dev" +:+ n)).
      { apply commits_opt, (commits_dev_segment n Hn). }
      reflexivity.
    - repeat split. }
  destruct Hsearch
    as (m & Hs & He & Hr & Hpl & Hpn & Hol & Ho1 & Ho2 & Hdl & Hdn & Hl).
  unfold Version. rewrite Hs, He, Hr, Hpl, Hpn, Hol, Ho1, Ho2, Hdl, Hdn, Hl.
  cbn [is_truthy or_group _parse_local_version default].
  unfold id, rel. rewrite (split_three "." a b c)
    by (intros x [<-|[<-|[<-|[]]]]; apply free_of_digits;
        [reflexivity | apply Ha | reflexivity | apply Hb
        | reflexivity | apply Hc]).
  unfold _parse_letter_version. cbn [is_truthy Py.truthy mapM].
  rewrite !int_digits_short by assumption.
  reflexivity.
Qed.


End DigitStrings.

Section RcDigits.

Lemma commits_rc_segment (n : string) :
  digit_string n ->
  Commits
    (Re.Group "pre"
       (Re.Cat (Re.opt sep)
          (Re.Cat
             (Re.Group "pre_l"
                (Re.alt_all
                   (map Re.lit_i
                      ["alpha"; "a"; "beta"; "b"; "preview"; "pre"; "c"; "rc"])))
             (Re.Cat (Re.opt sep) (Re.opt (Re.Group "pre_n" digits))))))
    ("rc" +:+ n) ""
    [("pre", "rc" +:+ n); ("pre_n", n); ("pre_l", "rc")].
Proof.
  intros Hn.
  assert (P4 : Commits (Re.opt (Re.Group "pre_n" digits)) n "" [("pre_n", n)]).
  { apply commits_opt, commits_group, commits_digits; [exact Hn | exact I]. }
  assert (P3 : Commits (Re.opt sep) "" (n +:+ "") []).
  { apply commits_alt_r; [|apply commits_eps].
    apply fails_chr, (stops_digit_string _ n ""); [|exact Hn].
    intros d Hd. apply (digit_is_no_other d Hd). }
  assert (P2 : Commits
                 (Re.Group "pre_l"
                    (Re.alt_all
                       (map Re.lit_i
                          ["alpha"; "a"; "beta"; "b"; "preview"; "pre"; "c"; "rc"])))
                 "rc" (n +:+ "") [("pre_l", "rc")]).
  { apply commits_group. cbn [Re.alt_all map].
    do 7 (apply commits_alt_r; [intros pos g k; reflexivity|]).
    apply (commits_cat (Re.char_i "r") (Re.char_i "c") "r" "c" (n +:+ "") [] []);
      apply commits_chr; reflexivity. }
  assert (P1 : Commits (Re.opt sep) "" ("rc" +:+ n +:+ "") []).
  { apply commits_alt_r; [intros pos g k; reflexivity | apply commits_eps]. }
  pose proof (commits_cat _ _ "" n "" [] [("pre_n", n)] P3 P4) as P34.
  pose proof (commits_cat _ _ "rc" n "" [("pre_l", "rc")] _ P2 P34) as P234.
  pose proof (commits_cat _ _ "" ("rc" +:+ n) "" [] _ P1 P234) as P.
  exact (commits_group "pre" _ ("rc" +:+ n) "" _ P).
Qed.

Lemma version_of_rc_digits (a b c n : string) :
  digit_string a -> digit_string b -> digit_string c -> digit_string n ->
  short a -> short b -> short c -> short n ->
  Version ((a +:+ String "." b +:+ String "." c) +:+ "rc" +:+ n)
  = Returns
      {| epoch := 0;
         release := [Py.digits_value a; Py.digits_value b; Py.digits_value c];
         pre := Some ("rc", Py.digits_value n); post := None;
         dev := None; local := None |}.
Proof.
  intros Ha Hb Hc Hn Sa Sb Sc Sn.
  set (rel := a +:+ String "." b +:+ String "." c).
  assert (Hstart : forall p, (forall d, Py.is_digit d = true -> p d = false) ->
                     stops p (rel +:+ "rc" +:+ n)).
  { intros p Hp. unfold rel. rewrite sapp_assoc.
    apply stops_digit_string; assumption. }
  assert (Hbang : free_of "!" (rel +:+ "rc" +:+ n)).
  { unfold rel. destruct Ha as [_ Ha'], Hb as [_ Hb'], Hc as [_ Hc'], Hn as [_ Hn'].
    apply free_of_app; [apply free_of_app; [apply free_of_digits; auto|]|].
    - apply (free_of_app "!" (String "." b) (String "." c)).
      + apply (free_of_app "!" "." b); [reflexivity | apply free_of_digits; auto].
      + apply (free_of_app "!" "." c); [reflexivity | apply free_of_digits; auto].
    - apply (free_of_app "!" "rc" n); [reflexivity | apply free_of_digits; auto]. }
  assert (Hsearch : exists m,
    Re.search _regex (rel +:+ "rc" +:+ n) = Some m /\
    Re.group m "epoch" = None /\ Re.group m "release" = Some rel /\
    Re.group m "pre_l" = Some "rc" /\ Re.group m "pre_n" = Some n /\
    Re.group m "post_l" = None /\ Re.group m "post_n1" = None /\
    Re.group m "post_n2" = None /\ Re.group m "dev_l" = None /\
    Re.group m "dev_n" = None /\ Re.group m "local" = None).
  { eexists. split.
    - apply search_hit. unfold _regex, VERSION_PATTERN. cbn [Re.cat_all].
      rewrite run_bol.
      rewrite run_cat_skip
        by (apply skips_star, fails_chr, Hstart; intros d Hd;
            apply (digit_is_no_other d Hd)).
      rewrite run_cat_assoc.
      rewrite run_cat_skip
        by (apply skips_opt, fails_chr, Hstart; intros d Hd;
            apply (digit_is_no_other d Hd)).
      rewrite run_cat_assoc.
      rewrite run_cat_skip.
      2:{ apply skips_opt, fails_cat_suffix. intros s' Hs'.
          apply fails_chr. apply (free_of_suffix _ _ _ Hbang Hs'). }
      rewrite run_cat_assoc.
      eapply run_cat_commit.
      { apply commits_release; try assumption.
        - intros pos g k. reflexivity.
        - reflexivity. }
      rewrite run_cat_assoc.
      eapply (run_cat_commit_end _ _ ("rc" +:+ n)).
      { apply commits_opt, (commits_rc_segment n Hn). }
      reflexivity.
    - repeat split. }
  destruct Hsearch
    as (m & Hs & He & Hr & Hpl & Hpn & Hol & Ho1 & Ho2 & Hdl & Hdn & Hl).
  unfold Version. rewrite Hs, He, Hr, Hpl, Hpn, Hol, Ho1, Ho2, Hdl, Hdn, Hl.
  cbn [is_truthy or_group _parse_local_version default].
  unfold id, rel. rewrite (split_three "." a b c)
    by (intros x [<-|[<-|[<-|[]]]]; apply free_of_digits;
        [reflexivity | apply Ha | reflexivity | apply Hb
        | reflexivity | apply Hc]).
  unfold _parse_letter_version. cbn [is_truthy Py.truthy mapM].
  rewrite !int_digits_short by assumption.
  reflexivity.
Qed.

End RcDigits.

(* ===================================================================== *)
(** * Canonical tags *)
(* ===================================================================== *)

Section Canonical.

Lemma strip_trailing_zeros_three (a b c a' b' c' : Z) :
  (0 <= a)%Z -> (0 <= b)%Z -> (0 <= c)%Z ->
  (0 <= a')%Z -> (0 <= b')%Z -> (0 <= c')%Z ->
  cmp (strip_trailing_zeros [a; b; c]) (strip_trailing_zeros [a'; b'; c'])
  = lex (lex (a ?= a')%Z (b ?= b')%Z) (c ?= c')%Z.
Proof.
  intros Ha Hb Hc Ha' Hb' Hc'.
  unfold strip_trailing_zeros, is_zero. cbn [List.rev app Py.dropwhile].
  destruct (Z.eqb_spec c 0), (Z.eqb_spec b 0), (Z.eqb_spec a 0),
    (Z.eqb_spec c' 0), (Z.eqb_spec b' 0), (Z.eqb_spec a' 0);
    subst; cbn [Py.dropwhile List.rev app negb];
    unfold cmp, cmp_list, cmp_Z; cbn [cmp_seq];
    unfold cmp, cmp_Z;
    repeat match goal with
           | |- context [(?x ?= ?y)%Z] =>
               destruct (Z.compare_spec x y); subst; cbn [lex]
           end;
    try reflexivity; lia.
Qed.

Lemma key_order_dev (a b c n a' b' c' n' : Z) :
  (0 <= a)%Z -> (0 <= b)%Z -> (0 <= c)%Z ->
  (0 <= a')%Z -> (0 <= b')%Z -> (0 <= c')%Z ->
  cmp (_key (dev_release [a; b; c] n)) (_key (dev_release [a'; b'; c'] n'))
  = cmp (a, b, c, n) (a', b', c', n').
Proof.
  intros Ha Hb Hc Ha' Hb' Hc'.
  pose proof (strip_trailing_zeros_three a b c a' b' c' Ha Hb Hc Ha' Hb' Hc')
    as H.
  change (cmp (_key (dev_release [a; b; c] n))
            (_key (dev_release [a'; b'; c'] n')))
    with (lex (lex (lex (lex (lex (0 ?= 0)%Z
                 (cmp (strip_trailing_zeros [a; b; c])
                      (strip_trailing_zeros [a'; b'; c'])))
              Eq) Eq) (lex (cmp "dev" "dev") (n ?= n')%Z)) Eq).
  rewrite H.
  change (cmp (a, b, c, n) (a', b', c', n'))
    with (lex (lex (lex (a ?= a')%Z (b ?= b')%Z) (c ?= c')%Z) (n ?= n')%Z).
  destruct (a ?= a')%Z, (b ?= b')%Z, (c ?= c')%Z, (n ?= n')%Z; reflexivity.
Qed.

Lemma key_order_rc (a b c n a' b' c' n' : Z) :
  (0 <= a)%Z -> (0 <= b)%Z -> (0 <= c)%Z ->
  (0 <= a')%Z -> (0 <= b')%Z -> (0 <= c')%Z ->
  cmp (_key (rc_release [a; b; c] n)) (_key (rc_release [a'; b'; c'] n'))
  = cmp (a, b, c, n) (a', b', c', n').
Proof.
  intros Ha Hb Hc Ha' Hb' Hc'.
  pose proof (strip_trailing_zeros_three a b c a' b' c' Ha Hb Hc Ha' Hb' Hc')
    as H.
  change (cmp (_key (rc_release [a; b; c] n))
            (_key (rc_release [a'; b'; c'] n')))
    with (lex (lex (lex (lex (lex (0 ?= 0)%Z
                 (cmp (strip_trailing_zeros [a; b; c])
                      (strip_trailing_zeros [a'; b'; c'])))
              (lex (cmp "rc" "rc") (n ?= n')%Z)) Eq) Eq) Eq).
  rewrite H.
  change (cmp (a, b, c, n) (a', b', c', n'))
    with (lex (lex (lex (a ?= a')%Z (b ?= b')%Z) (c ?= c')%Z) (n ?= n')%Z).
  destruct (a ?= a')%Z, (b ?= b')%Z, (c ?= c')%Z, (n ?= n')%Z; reflexivity.
Qed.

Lemma key_order_stage pattern (a b c n a' b' c' n' : Z) :
  (0 <= a)%Z -> (0 <= b)%Z -> (0 <= c)%Z ->
  (0 <= a')%Z -> (0 <= b')%Z -> (0 <= c')%Z ->
  cmp (_key (stage_release pattern [a; b; c] n))
      (_key (stage_release pattern [a'; b'; c'] n'))
  = cmp (a, b, c, n) (a', b', c', n').
Proof.
  unfold stage_release. destruct (String.eqb pattern "dev");
    [apply key_order_dev | apply key_order_rc].
Qed.

Lemma lstrip_v_digits (s rest : string) :
  digit_string s ->
  Py.lstrip_chars "v" (String "v" (s +:+ rest)) = s +:+ rest.
Proof.
  intros Hs. unfold Py.lstrip_chars. cbn [Py.drop_while Py.mem_char].
  change (Ascii.eqb "v" "v" || false) with true. cbv iota.
  apply drop_while_fixed. apply stops_digit_string; [|exact Hs].
  intros d. destruct d as [[] [] [] [] [] [] [] []]; vm_compute; intros Hd;
    try discriminate Hd; reflexivity.
Qed.

Lemma dev_tag_shape (a b c n : Z) :
  dev_tag a b c n
  = String "v" ((Py.str_int a +:+ String "." (Py.str_int b)
                   +:+ String "." (Py.str_int c))
                  +:+ ".dev" +:+ Py.str_int n).
Proof.
  unfold dev_tag. rewrite sapp_cons, sapp_nil_l. f_equal.
  repeat (rewrite sapp_assoc || rewrite sapp_cons || rewrite sapp_nil_l).
  reflexivity.
Qed.

Lemma rc_tag_shape (a b c n : Z) :
  rc_tag a b c n
  = String "v" ((Py.str_int a +:+ String "." (Py.str_int b)
                   +:+ String "." (Py.str_int c))
                  +:+ "rc" +:+ Py.str_int n).
Proof.
  unfold rc_tag. rewrite sapp_cons, sapp_nil_l. f_equal.
  repeat (rewrite sapp_assoc || rewrite sapp_cons || rewrite sapp_nil_l).
  reflexivity.
Qed.

Lemma parse_dev_tag (a b c n : Z) :
  convertible a -> convertible b -> convertible c -> convertible n ->
  _parse_tag (dev_tag a b c n) = Returns (Some (dev_release [a; b; c] n)).
Proof.
  intros [Ha Sa] [Hb Sb] [Hc Sc] [Hn Sn]. unfold _parse_tag.
  rewrite dev_tag_shape.
  rewrite (sapp_assoc (Py.str_int a)).
  rewrite lstrip_v_digits by (apply digit_string_str_int, Ha).
  rewrite <- (sapp_assoc (Py.str_int a)).
  rewrite version_of_dev_digits
    by (try apply digit_string_str_int; assumption).
  rewrite !digits_value_str_int by assumption. reflexivity.
Qed.

Lemma parse_rc_tag (a b c n : Z) :
  convertible a -> convertible b -> convertible c -> convertible n ->
  _parse_tag (rc_tag a b c n) = Returns (Some (rc_release [a; b; c] n)).
Proof.
  intros [Ha Sa] [Hb Sb] [Hc Sc] [Hn Sn]. unfold _parse_tag.
  rewrite rc_tag_shape.
  rewrite (sapp_assoc (Py.str_int a)).
  rewrite lstrip_v_digits by (apply digit_string_str_int, Ha).
  rewrite <- (sapp_assoc (Py.str_int a)).
  rewrite version_of_rc_digits
    by (try apply digit_string_str_int; assumption).
  rewrite !digits_value_str_int by assumption. reflexivity.
Qed.

Lemma str_dev_release (a b c n : Z) :
  String "v" (to_str (dev_release [a; b; c] n)) = dev_tag a b c n.
Proof.
  rewrite dev_tag_shape. reflexivity.
Qed.

Lemma str_rc_release (a b c n : Z) :
  String "v" (to_str (rc_release [a; b; c] n)) = rc_tag a b c n.
Proof.
  rewrite rc_tag_shape. reflexivity.
Qed.

Lemma parse_stage_tag pattern (a b c n : Z) :
  convertible a -> convertible b -> convertible c -> convertible n ->
  _parse_tag (stage_tag pattern a b c n)
  = Returns (Some (stage_release pattern [a; b; c] n)).
Proof.
  unfold stage_tag, stage_release. destruct (String.eqb pattern "dev");
    [apply parse_dev_tag | apply parse_rc_tag].
Qed.

Lemma str_stage_release pattern (a b c n : Z) :
  String "v" (to_str (stage_release pattern [a; b; c] n))
  = stage_tag pattern a b c n.
Proof.
  unfold stage_tag, stage_release. destruct (String.eqb pattern "dev");
    [apply str_dev_release | apply str_rc_release].
Qed.

Lemma stage_release_qualifies pattern release n :
  matcher_of pattern (stage_release pattern release n) = true.
Proof.
  unfold matcher_of, stage_release.
  destruct (String.eqb pattern "dev"); reflexivity.
Qed.

End Canonical.

(** X21. A tag written canonically is read as the release it names, and
    the release is written back as the same tag: for numbers that are not
    negative and have 4300 digits at most,
    [v<major>.<minor>.<patch>.dev<n>] parses to the release
    [major.minor.patch] with dev number [n], [v<major>.<minor>.<patch>rc<n>]
    to that release with the pre-release [("rc", n)], and [v] followed by
    the text of either release is the tag again. *)
Theorem canonical_tags_round_trip :
  forall major minor patch n : Z,
    convertible major -> convertible minor -> convertible patch ->
    convertible n ->
    _parse_tag (dev_tag major minor patch n)
    = Returns (Some (dev_release [major; minor; patch] n)) /\
    "v" +:+ to_str (dev_release [major; minor; patch] n)
    = dev_tag major minor patch n /\
    _parse_tag (rc_tag major minor patch n)
    = Returns (Some (rc_release [major; minor; patch] n)) /\
    "v" +:+ to_str (rc_release [major; minor; patch] n)
    = rc_tag major minor patch n.
Proof.
  intros major minor patch n Ha Hb Hc Hn.
  split; [apply parse_dev_tag; assumption|].
  split; [apply str_dev_release|].
  split; [apply parse_rc_tag; assumption | apply str_rc_release].
Qed.

Lemma canonical_tags_round_trip_witness :
  _parse_tag (dev_tag 1 1 23 10)
  = Returns (Some (dev_release [1; 1; 23]%Z 10)) /\
  "v" +:+ to_str (dev_release [1; 1; 23]%Z 10) = dev_tag 1 1 23 10 /\
  _parse_tag (rc_tag 1 1 23 10)
  = Returns (Some (rc_release [1; 1; 23]%Z 10)) /\
  "v" +:+ to_str (rc_release [1; 1; 23]%Z 10) = rc_tag 1 1 23 10.
Proof.
  apply (canonical_tags_round_trip 1 1 23 10);
    (apply convertible_by_test; vm_compute; reflexivity).
Defined.

(** X22. Validating a canonical tag that is in the collection succeeds, and
    the version reported is the tag without its [v]: nothing of the text
    is renormalised. *)
Theorem validate_echoes_a_canonical_tag :
  forall tags pattern (major minor patch n : Z),
    convertible major -> convertible minor -> convertible patch ->
    convertible n ->
    In (stage_tag pattern major minor patch n) tags ->
    exists version,
      validate tags (stage_tag pattern major minor patch n)
      = Returns
          (_output_success (stage_tag pattern major minor patch n) version
             None) /\
      stage_tag pattern major minor patch n = "v" +:+ version.
Proof.
  intros tags pattern major minor patch n Ha Hb Hc Hn Hin.
  exists (to_str (stage_release pattern [major; minor; patch] n)). split.
  - rewrite (validate_member _ _ Hin), parse_stage_tag by assumption.
    reflexivity.
  - symmetry. apply str_stage_release.
Qed.

Lemma validate_echoes_a_canonical_tag_witness :
  exists version,
    validate ["v1.1.23rc1"; "v1.1.23rc2"] (stage_tag "rc" 1 1 23 2)
    = Returns (_output_success (stage_tag "rc" 1 1 23 2) version None) /\
    stage_tag "rc" 1 1 23 2 = "v" +:+ version.
Proof.
  apply (validate_echoes_a_canonical_tag
           ["v1.1.23rc1"; "v1.1.23rc2"] "rc" 1 1 23 2);
    try (apply convertible_by_test; vm_compute; reflexivity).
  right. left. reflexivity.
Defined.

(** X23. When the filter returns candidates, there is one, and every one
    of them is written canonically, discovery reports one of the supplied
    tags, letter for letter, and it is the one whose numbers (major, minor,
    patch, n) are greatest as a tuple of integers: no canonical tag of the
    collection has greater numbers. *)
Theorem discover_reports_the_greatest_numbers :
  forall tags pattern use_git env candidates,
    _filter_by_pattern tags pattern = Returns candidates ->
    candidates <> [] ->
    (forall tag version, In (tag, version) candidates -> canonical pattern tag) ->
    exists major minor patch n : Z,
      In (stage_tag pattern major minor patch n) tags /\
      reported_tag (result_of (discover tags pattern use_git) env)
      = Some (JStr (stage_tag pattern major minor patch n)) /\
      forall major' minor' patch' n' : Z,
        convertible major' -> convertible minor' -> convertible patch' ->
        convertible n' ->
        In (stage_tag pattern major' minor' patch' n') tags ->
        py_gt (major', minor', patch', n') (major, minor, patch, n) = false.
Proof.
  intros tags pattern use_git env candidates E Hne Hcan.
  destruct candidates as [|first rest]; [congruence | clear Hne].
  destruct (highest_spec first rest) as (Hin & Hmax).
  destruct (highest first rest) as [tag version] eqn:Eh.
  destruct (Hcan tag version Hin) as (a & b & c & n & (Ha & Hb & Hc & Hn) & ->).
  apply (in_filter_by_pattern _ _ _ _ _ E) in Hin as (Hin & Hp & _).
  rewrite parse_stage_tag in Hp by assumption.
  injection Hp as <-.
  exists a, b, c, n. split; [exact Hin|]. split.
  - unfold result_of. rewrite (discover_some _ _ _ _ _ _ _ E), Eh. cbn [snd].
    change ("v" +:+ to_str (stage_release pattern [a; b; c] n))
      with (String "v" (to_str (stage_release pattern [a; b; c] n))).
    rewrite str_stage_release. destruct use_git; reflexivity.
  - intros a' b' c' n' Ha' Hb' Hc' Hn' Hin'.
    assert (Hcand : In (stage_tag pattern a' b' c' n',
                        stage_release pattern [a'; b'; c'] n') (first :: rest)).
    { apply (in_filter_by_pattern _ _ _ _ _ E).
      split; [exact Hin'|].
      split; [apply parse_stage_tag; assumption | apply stage_release_qualifies]. }
    apply Hmax in Hcand. cbn [snd] in Hcand.
    unfold gt, py_gt in Hcand.
    rewrite key_order_stage in Hcand
      by (first [apply Ha | apply Hb | apply Hc
                | apply Ha' | apply Hb' | apply Hc']).
    exact Hcand.
Qed.

Lemma discover_reports_the_greatest_numbers_witness :
  exists major minor patch n : Z,
    In (stage_tag "dev" major minor patch n)
       ["v1.1.23.dev9"; "v1.1.23.dev10"; "v1.1.23rc1"; "nightly"] /\
    reported_tag
      (result_of
         (discover ["v1.1.23.dev9"; "v1.1.23.dev10"; "v1.1.23rc1"; "nightly"]
            "dev" false) no_repository)
    = Some (JStr (stage_tag "dev" major minor patch n)) /\
    forall major' minor' patch' n' : Z,
      convertible major' -> convertible minor' -> convertible patch' ->
      convertible n' ->
      In (stage_tag "dev" major' minor' patch' n')
         ["v1.1.23.dev9"; "v1.1.23.dev10"; "v1.1.23rc1"; "nightly"] ->
      py_gt (major', minor', patch', n') (major, minor, patch, n) = false.
Proof.
  apply (discover_reports_the_greatest_numbers
           ["v1.1.23.dev9"; "v1.1.23.dev10"; "v1.1.23rc1"; "nightly"]
           "dev" false no_repository
           [("v1.1.23.dev9", dev_release [1; 1; 23]%Z 9);
            ("v1.1.23.dev10", dev_release [1; 1; 23]%Z 10)]).
  - vm_compute. reflexivity.
  - discriminate.
  - intros tag version [Hin | [Hin | []]]; injection Hin as <- _.
    + exists 1%Z, 1%Z, 23%Z, 9%Z.
      split; [|reflexivity].
      repeat split; apply convertible_by_test; vm_compute; reflexivity.
    + exists 1%Z, 1%Z, 23%Z, 10%Z.
      split; [|reflexivity].
      repeat split; apply convertible_by_test; vm_compute; reflexivity.
Defined.

(* ===================================================================== *)
(** * What a match tells about the subject *)
(* ===================================================================== *)

Import Shapes.

Section Soundness.

Lemma star_iter_sound (r : Re.re)
    (IH : forall pos s g k m,
        Re.run r pos s g k = Some m ->
        exists x rest g',
          s = x +:+ rest /\ Matches r pos x rest /\
          k (pos + String.length x)%nat rest g' = Some m) :
  forall fuel pos s g k m,
    star_iter (Re.run r) k fuel pos s g = Some m ->
    exists x rest g',
      s = x +:+ rest /\ Matches (Re.Star r) pos x rest /\
      k (pos + String.length x)%nat rest g' = Some m.
Proof.
  induction fuel as [|fuel IHf]; intros pos s g k m H.
  - exists "", s, g. rewrite Nat.add_0_r.
    split; [reflexivity|]. split; [constructor | exact H].
  - simpl in H.
    destruct (Re.run r pos s g _) as [m0|] eqn:E.
    + injection H as ->.
      apply IH in E as (x & rest & g' & -> & Hm & Hk).
      destruct (pos <? pos + String.length x)%nat eqn:Hlt; [|discriminate].
      apply Nat.ltb_lt in Hlt.
      apply IHf in Hk as (y & rest' & g'' & -> & Hs & Hk).
      exists (x +:+ y), rest', g''.
      split; [symmetry; apply sapp_assoc|]. split.
      * apply matches_star_cons; [exact Hm | | exact Hs].
        intros ->. simpl in Hlt. lia.
      * rewrite slength_app, Nat.add_assoc. exact Hk.
    + exists "", s, g. rewrite Nat.add_0_r.
      split; [reflexivity|]. split; [constructor | exact H].
Qed.

(** Whatever the matcher accepts is in the language of the pattern: a
    successful run consumed a prefix the pattern matches, and what follows
    succeeded on the rest. *)
Lemma run_sound (r : Re.re) :
  forall pos s g k m,
    Re.run r pos s g k = Some m ->
    exists x rest g',
      s = x +:+ rest /\ Matches r pos x rest /\
      k (pos + String.length x)%nat rest g' = Some m.
Proof.
  induction r as [|p|r1 IH1 r2 IH2|r1 IH1 r2 IH2|r IH|name r IH| |];
    intros pos s g k m H.
  - exists "", s, g. rewrite Nat.add_0_r.
    split; [reflexivity|]. split; [constructor | exact H].
  - simpl in H. destruct s as [|c s]; [discriminate|].
    destruct (p c) eqn:Hc; [|discriminate].
    exists (String c ""), s, g. simpl. rewrite Nat.add_1_r.
    split; [reflexivity|]. split; [constructor; exact Hc | exact H].
  - rewrite run_cat in H.
    apply IH1 in H as (x & rest & g' & -> & H1 & H).
    apply IH2 in H as (y & rest' & g'' & -> & H2 & H).
    exists (x +:+ y), rest', g''.
    split; [symmetry; apply sapp_assoc|]. split.
    + constructor; assumption.
    + rewrite slength_app, Nat.add_assoc. exact H.
  - simpl in H. destruct (Re.run r1 pos s g k) as [m0|] eqn:E.
    + injection H as ->.
      apply IH1 in E as (x & rest & g' & -> & H1 & H).
      exists x, rest, g'. split; [reflexivity|].
      split; [apply matches_alt_l, H1 | exact H].
    + apply IH2 in H as (x & rest & g' & -> & H2 & H).
      exists x, rest, g'. split; [reflexivity|].
      split; [apply matches_alt_r, H2 | exact H].
  - rewrite run_star in H. apply (star_iter_sound r IH) in H. exact H.
  - simpl in H.
    apply IH in H as (x & rest & g' & -> & H1 & H).
    exists x, rest, ((name, Re.take (pos + String.length x - pos) (x +:+ rest)) :: g').
    split; [reflexivity|]. split; [constructor; exact H1 | exact H].
  - simpl in H. destruct (pos =? 0)%nat eqn:E; [|discriminate].
    apply Nat.eqb_eq in E. subst pos.
    exists "", s, g. split; [reflexivity|]. split; [constructor | exact H].
  - simpl in H. exists "", s, g. rewrite Nat.add_0_r.
    split; [reflexivity|].
    destruct s as [|c [|d s]]; [| |discriminate].
    + split; [constructor; left; reflexivity | exact H].
    + destruct (Py.code c =? 10)%N eqn:E; [|discriminate].
      apply N.eqb_eq in E.
      split; [constructor; right; exists c; auto | exact H].
Qed.

Lemma matches_chr_inv (p : ascii -> bool) pos x rest :
  Matches (Re.Chr p) pos x rest -> exists c, x = String c "" /\ p c = true.
Proof. intros H. inversion H; subst. eauto. Qed.

Lemma matches_cat_inv (r1 r2 : Re.re) pos x rest :
  Matches (Re.Cat r1 r2) pos x rest ->
  exists x1 x2,
    x = x1 +:+ x2 /\ Matches r1 pos x1 (x2 +:+ rest) /\
    Matches r2 (pos + String.length x1) x2 rest.
Proof. intros H. inversion H; subst. eauto. Qed.

Lemma matches_eol_inv pos x rest :
  Matches Re.Eol pos x rest ->
  x = "" /\ (rest = "" \/ exists c, rest = String c "" /\ Py.code c = 10%N).
Proof. intros H. inversion H; subst. auto. Qed.

Lemma matches_bol_inv pos x rest : Matches Re.Bol pos x rest -> x = "".
Proof. intros H. inversion H; subst. reflexivity. Qed.

Lemma matches_star_chars (p : ascii -> bool) pos x rest :
  Matches (Re.Star (Re.Chr p)) pos x rest -> Packaging.all_chars p x = true.
Proof.
  intros H. remember (Re.Star (Re.Chr p)) as r eqn:Er.
  induction H; try discriminate Er; [reflexivity|].
  injection Er as ->.
  apply matches_chr_inv in H as (c & -> & Hc).
  rewrite sapp_cons, sapp_nil_l. simpl.
  rewrite Hc, IHMatches2 by reflexivity. reflexivity.
Qed.

Lemma matches_plus_chars (p : ascii -> bool) pos x rest :
  Matches (Re.plus (Re.Chr p)) pos x rest ->
  x <> "" /\ Packaging.all_chars p x = true.
Proof.
  intros H. apply matches_cat_inv in H as (x1 & x2 & -> & H1 & H2).
  apply matches_chr_inv in H1 as (c & -> & Hc).
  apply matches_star_chars in H2.
  rewrite sapp_cons, sapp_nil_l. split; [discriminate|].
  simpl. rewrite Hc, H2. reflexivity.
Qed.

Lemma matches_char (c : ascii) pos x rest :
  Matches (Re.char c) pos x rest -> x = String c "".
Proof.
  intros H. apply matches_chr_inv in H as (d & -> & Hd).
  apply Ascii.eqb_eq in Hd. subst. reflexivity.
Qed.

Lemma matches_digits pos x rest :
  Matches (Re.plus digit) pos x rest -> digit_string x.
Proof. apply matches_plus_chars. Qed.

End Soundness.

Section Shapes.

Lemma strip_last (s x : string) (c : ascii) :
  Py.strip s = x +:+ String c "" -> Py.isspace c = false.
Proof.
  intros H. unfold Py.strip in H.
  apply (f_equal Py.rev) in H. rewrite rev_involutive, rev_app in H.
  change (Py.rev (String c "") +:+ Py.rev x) with (String c (Py.rev x)) in H.
  pose proof (drop_while_head Py.isspace
                (Py.rev (Py.drop_while Py.isspace s))) as Hh.
  rewrite H in Hh. exact Hh.
Qed.

Lemma line_feed_is_space (c : ascii) : Py.code c = 10%N -> Py.isspace c = true.
Proof. intros H. unfold Py.isspace, Py.in_range. rewrite H. reflexivity. Qed.

Lemma stable_re_sound (line : string) :
  matches stable_tag_re (Py.strip line) = true -> stable_shape (Py.strip line).
Proof.
  unfold matches, Re.match_. intros H.
  destruct (Re.run stable_tag_re 0 (Py.strip line) [] _) as [m|] eqn:E;
    [clear H | discriminate].
  apply run_sound in E as (x & rest & g' & Ht & Hm & _).
  unfold stable_tag_re in Hm. cbn [Re.cat_all] in Hm.
  apply matches_cat_inv in Hm as (x0 & y0 & -> & H0 & Hm).
  apply matches_cat_inv in Hm as (x1 & y1 & -> & H1 & Hm).
  apply matches_cat_inv in Hm as (x2 & y2 & -> & H2 & Hm).
  apply matches_cat_inv in Hm as (x3 & y3 & -> & H3 & Hm).
  apply matches_cat_inv in Hm as (x4 & y4 & -> & H4 & Hm).
  apply matches_cat_inv in Hm as (x5 & y5 & -> & H5 & Hm).
  apply matches_cat_inv in Hm as (x6 & y6 & -> & H6 & Hm).
  apply matches_bol_inv in H0. apply matches_char in H1, H3, H5.
  apply matches_digits in H2, H4, H6.
  apply matches_eol_inv in Hm as (-> & Hrest). subst x0 x1 x3 x5.
  rewrite sapp_nil_r, sapp_nil_l in Ht.
  destruct Hrest as [-> | (c & -> & Hc)].
  - rewrite sapp_nil_r in Ht. exists x2, x4, x6. auto.
  - exfalso. apply line_feed_is_space in Hc.
    rewrite (strip_last line _ c Ht) in Hc. discriminate.
Qed.

Lemma rc_re_sound (line : string) :
  matches rc_tag_re (Py.strip line) = true -> rc_shape (Py.strip line).
Proof.
  unfold matches, Re.match_. intros H.
  destruct (Re.run rc_tag_re 0 (Py.strip line) [] _) as [m|] eqn:E;
    [clear H | discriminate].
  apply run_sound in E as (x & rest & g' & Ht & Hm & _).
  unfold rc_tag_re in Hm. cbn [Re.cat_all] in Hm.
  apply matches_cat_inv in Hm as (x0 & y0 & -> & H0 & Hm).
  apply matches_cat_inv in Hm as (x1 & y1 & -> & H1 & Hm).
  apply matches_cat_inv in Hm as (x2 & y2 & -> & H2 & Hm).
  apply matches_cat_inv in Hm as (x3 & y3 & -> & H3 & Hm).
  apply matches_cat_inv in Hm as (x4 & y4 & -> & H4 & Hm).
  apply matches_cat_inv in Hm as (x5 & y5 & -> & H5 & Hm).
  apply matches_cat_inv in Hm as (x6 & y6 & -> & H6 & Hm).
  apply matches_cat_inv in Hm as (x7 & y7 & -> & H7 & Hm).
  apply matches_cat_inv in Hm as (x8 & y8 & -> & H8 & Hm).
  apply matches_cat_inv in H7 as (xr & xc & -> & Hr & Hcc).
  apply matches_bol_inv in H0. apply matches_char in H1, H3, H5, Hr, Hcc.
  apply matches_digits in H2, H4, H6, H8.
  apply matches_eol_inv in Hm as (-> & Hrest). subst x0 x1 x3 x5 xr xc.
  rewrite sapp_nil_r, sapp_nil_l in Ht.
  destruct Hrest as [-> | (c & -> & Hc)].
  - rewrite sapp_nil_r in Ht. exists x2, x4, x6, x8. auto.
  - exfalso. apply line_feed_is_space in Hc.
    rewrite (strip_last line _ c Ht) in Hc. discriminate.
Qed.

Lemma stable_re_complete (t : string) :
  stable_shape t -> matches stable_tag_re t = true.
Proof.
  intros (a & b & c & Ha & Hb & Hc & ->).
  assert (H : exists m,
             Re.match_ stable_tag_re
               ("v" +:+ a +:+ "." +:+ b +:+ "." +:+ c) = Some m).
  { eexists. unfold Re.match_, stable_tag_re. cbn [Re.cat_all].
    rewrite run_bol.
    eapply run_cat_commit; [apply commits_chr, Ascii.eqb_refl|].
    eapply run_cat_commit; [apply commits_digits; [exact Ha | reflexivity]|].
    eapply run_cat_commit; [apply commits_chr, Ascii.eqb_refl|].
    eapply run_cat_commit; [apply commits_digits; [exact Hb | reflexivity]|].
    eapply run_cat_commit; [apply commits_chr, Ascii.eqb_refl|].
    eapply run_cat_commit_end; [apply commits_digits; [exact Hc | exact I]|].
    reflexivity. }
  destruct H as (m & H). unfold matches. rewrite H. reflexivity.
Qed.

Lemma rc_re_complete (t : string) :
  rc_shape t -> matches rc_tag_re t = true.
Proof.
  intros (a & b & c & n & Ha & Hb & Hc & Hn & ->).
  assert (H : exists m,
             Re.match_ rc_tag_re
               ("v" +:+ a +:+ "." +:+ b +:+ "." +:+ c +:+ "rc" +:+ n)
             = Some m).
  { eexists. unfold Re.match_, rc_tag_re. cbn [Re.cat_all].
    rewrite run_bol.
    eapply run_cat_commit; [apply commits_chr, Ascii.eqb_refl|].
    eapply run_cat_commit; [apply commits_digits; [exact Ha | reflexivity]|].
    eapply run_cat_commit; [apply commits_chr, Ascii.eqb_refl|].
    eapply run_cat_commit; [apply commits_digits; [exact Hb | reflexivity]|].
    eapply run_cat_commit; [apply commits_chr, Ascii.eqb_refl|].
    eapply run_cat_commit; [apply commits_digits; [exact Hc | reflexivity]|].
    eapply (run_cat_commit _ _ "rc" n).
    { apply (commits_cat (Re.char "r") (Re.char "c") "r" "c" n [] []);
        apply commits_chr, Ascii.eqb_refl. }
    eapply run_cat_commit_end; [apply commits_digits; [exact Hn | exact I]|].
    reflexivity. }
  destruct H as (m & H). unfold matches. rewrite H. reflexivity.
Qed.

End Shapes.

(** X24. The two tag patterns of the changelog generator accept exactly
    the tags of their shape: a line, stripped, matches the stable pattern
    if and only if it is [v<digits>.<digits>.<digits>], and the rc pattern
    if and only if it is that followed by [rc<digits>]; nothing may follow,
    not even a line feed, and every such tag is accepted however long its
    numbers are. *)
Theorem tag_patterns_accept_exactly_their_shape :
  forall line,
    (matches stable_tag_re (Py.strip line) = true <->
     stable_shape (Py.strip line)) /\
    (matches rc_tag_re (Py.strip line) = true <->
     rc_shape (Py.strip line)).
Proof.
  intros line. split; split.
  - apply stable_re_sound.
  - apply stable_re_complete.
  - apply rc_re_sound.
  - apply rc_re_complete.
Qed.

(** X25. For the rc and the stable stage, the previous tag is the empty
    string or a tag of the shape of the stage other than the tag being
    released: a stable release is never compared with a dev or an rc tag,
    and an rc release with rc tags only. *)
Theorem previous_tag_has_the_shape_of_the_stage :
  forall stage current_version env,
    stage <> "dev" ->
    let previous := fst (_find_previous_tag stage current_version env []) in
    previous = "" \/
    ((if String.eqb stage "rc" then rc_shape previous
      else stable_shape previous) /\
     previous <> "v" +:+ current_version).
Proof.
  intros stage current_version env Hne. cbv zeta.
  rewrite (find_previous_tag_run _ _ _ _ Hne). cbn [fst].
  destruct (env _) as [result|]; [|auto].
  destruct (negb _); [auto|].
  destruct (head _) as [t|] eqn:Eh; [|auto]. right.
  apply head_of_filter in Eh as (line & _ & Hp & ->).
  unfold earlier_release in Hp. apply andb_true_iff in Hp as [Hm Hcur].
  apply negb_true_iff, String.eqb_neq in Hcur.
  cbn [default id]. split; [|exact Hcur].
  destruct (String.eqb stage "rc");
    [apply rc_re_sound, Hm | apply stable_re_sound, Hm].
Qed.

Lemma previous_tag_has_the_shape_of_the_stage_witness :
  let previous :=
    fst (_find_previous_tag "stable" "1.1.23"
           (merged_tags ["v1.1.23"; "v1.1.23rc1"; "v1.1.23.dev4"; "v1.1.22"])
           []) in
  previous = "" \/
  ((if String.eqb "stable" "rc" then rc_shape previous
    else stable_shape previous) /\
   previous <> "v" +:+ "1.1.23").
Proof.
  apply (previous_tag_has_the_shape_of_the_stage "stable" "1.1.23"
           (merged_tags ["v1.1.23"; "v1.1.23rc1"; "v1.1.23.dev4"; "v1.1.22"])).
  discriminate.
Defined.

(* ===================================================================== *)
(** * Subjects written after the grammar *)
(* ===================================================================== *)

Section Subjects.

Lemma all_chars_none_of (c : ascii) (s : string) :
  free_of c s ->
  Packaging.all_chars (fun x => negb (Py.mem_char x (String c ""))) s = true.
Proof.
  unfold free_of. induction s as [|d s IH]; simpl; [reflexivity|].
  intros H. apply orb_false_iff in H as [Hd Hs].
  rewrite orb_false_r, Ascii.eqb_sym, Hd. simpl. apply IH, Hs.
Qed.

Lemma all_chars_not_newline (s : string) :
  free_of (Py.chr 10) s -> Packaging.all_chars not_newline s = true.
Proof.
  unfold free_of. induction s as [|d s IH]; simpl; [reflexivity|].
  intros H. apply orb_false_iff in H as [Hd Hs].
  rewrite (IH Hs), andb_true_r. clear IH Hs. revert Hd.
  destruct d as [[] [] [] [] [] [] [] []]; vm_compute; intros Hd;
    try discriminate Hd; reflexivity.
Qed.

Lemma commits_type (ctype rest : string) :
  ctype <> "" -> Packaging.all_chars Py.is_lower ctype = true ->
  stops Py.is_lower rest ->
  Commits (Re.Group "type" (Re.plus (Re.Chr Py.is_lower))) ctype rest
    [("type", ctype)].
Proof. intros Hne Hall Hs. apply commits_group, commits_plus_chars; assumption. Qed.

Lemma commits_scope (s rest : string) :
  free_of ")" s ->
  Commits
    (Re.opt (Re.cat_all [Re.char "(";
                         Re.Group "scope" (Re.Star (Re.none_of ")"));
                         Re.char ")"]))
    ("(" +:+ s +:+ ")") rest [("scope", s)].
Proof.
  intros Hs. apply commits_opt. cbn [Re.cat_all].
  apply (commits_cat (Re.char "(") _ "(" (s +:+ ")") rest [] [("scope", s)]).
  - apply commits_chr. reflexivity.
  - apply (commits_cat _ (Re.char ")") s ")" rest [("scope", s)] []).
    + apply commits_group, commits_star, commits_star_chars.
      * apply all_chars_none_of, Hs.
      * reflexivity.
    + apply commits_chr. reflexivity.
Qed.

Lemma run_description (desc : string) pos g :
  desc <> "" -> stops Py.isspace desc -> free_of (Py.chr 10) desc ->
  Re.run
    (Re.cat_all [Re.char ":"; Re.Star (Re.Chr Py.isspace);
                 Re.Group "desc" (Re.plus (Re.Chr not_newline)); Re.Eol])
    pos (": " +:+ desc) g (fun _ _ g' => Some g')
  = Some (("desc", desc) :: g).
Proof.
  intros Hne Hsp Hnl. cbn [Re.cat_all].
  eapply (run_cat_commit _ _ ":" (" " +:+ desc));
    [apply commits_chr; reflexivity|].
  eapply (run_cat_commit _ _ " " desc);
    [apply commits_star, commits_star_chars; [reflexivity | exact Hsp]|].
  eapply (run_cat_commit_end _ _ desc).
  { apply commits_group, commits_plus_chars;
      [exact Hne | apply all_chars_not_newline, Hnl | exact I]. }
  reflexivity.
Qed.

Lemma match_conventional_subject ctype scope bang desc :
  well_formed ctype scope desc ->
  exists m,
    Re.match_ _CONVENTIONAL_RE (conventional_subject ctype scope bang desc)
    = Some m /\
    Re.group m "type" = Some ctype /\
    Re.group m "scope" = scope /\
    Re.group m "bang" = (if bang then Some "!" else None) /\
    Re.group m "desc" = Some desc.
Proof.
  intros (Hne & Hlow & Hscope & Hdne & Hsp & Hnl).
  unfold Re.match_, _CONVENTIONAL_RE, conventional_subject.
  change (Re.cat_all (Re.Bol :: ?a :: ?b :: ?c :: ?rest))
    with (Re.Cat Re.Bol (Re.Cat a (Re.Cat b (Re.Cat c (Re.cat_all rest))))).
  destruct scope as [s|], bang; eexists; (split; [rewrite run_bol|]).
  - eapply run_cat_commit;
      [apply commits_type; [exact Hne | exact Hlow | reflexivity]|].
    eapply run_cat_commit; [apply commits_scope, Hscope; reflexivity|].
    eapply (run_cat_commit _ _ "!");
      [apply commits_opt, commits_group, commits_chr; reflexivity|].
    apply run_description; assumption.
  - repeat split.
  - eapply run_cat_commit;
      [apply commits_type; [exact Hne | exact Hlow | reflexivity]|].
    eapply run_cat_commit; [apply commits_scope, Hscope; reflexivity|].
    eapply (run_cat_commit _ _ "");
      [apply commits_alt_r; [intros pos g k; reflexivity | apply commits_eps]|].
    apply run_description; assumption.
  - repeat split.
  - eapply run_cat_commit;
      [apply commits_type; [exact Hne | exact Hlow | reflexivity]|].
    eapply (run_cat_commit _ _ "");
      [apply commits_alt_r; [intros pos g k; reflexivity | apply commits_eps]|].
    eapply (run_cat_commit _ _ "!");
      [apply commits_opt, commits_group, commits_chr; reflexivity|].
    apply run_description; assumption.
  - repeat split.
  - eapply run_cat_commit;
      [apply commits_type; [exact Hne | exact Hlow | reflexivity]|].
    eapply (run_cat_commit _ _ "");
      [apply commits_alt_r; [intros pos g k; reflexivity | apply commits_eps]|].
    eapply (run_cat_commit _ _ "");
      [apply commits_alt_r; [intros pos g k; reflexivity | apply commits_eps]|].
    apply run_description; assumption.
  - repeat split.
Qed.

Lemma parse_conventional_subject ctype scope bang desc :
  well_formed ctype scope desc ->
  _parse_conventional_commit (conventional_subject ctype scope bang desc)
  = Some {| type := ctype; scope := default "" scope; bang := bang;
            desc := desc |}.
Proof.
  intros Hwf.
  destruct (match_conventional_subject ctype scope bang desc Hwf)
    as (m & Hm & Ht & Hs & Hb & Hd).
  unfold _parse_conventional_commit. rewrite Hm, Ht, Hs, Hb, Hd.
  destruct scope as [[|c s]|], bang; reflexivity.
Qed.

End Subjects.

Section Colon.

Lemma conventional_has_a_colon (subject : string) :
  conventional subject = true -> Py.mem_char ":" subject = true.
Proof.
  unfold conventional, _parse_conventional_commit, Re.match_. intros H.
  destruct (Re.run _CONVENTIONAL_RE 0 subject [] _) as [m|] eqn:E;
    [clear H | discriminate].
  apply run_sound in E as (x & rest & g' & -> & Hm & _).
  unfold _CONVENTIONAL_RE in Hm.
  change (Re.cat_all (Re.Bol :: ?a :: ?b :: ?c :: ?d :: ?tl))
    with (Re.Cat Re.Bol (Re.Cat a (Re.Cat b (Re.Cat c
            (Re.Cat d (Re.cat_all tl)))))) in Hm.
  apply matches_cat_inv in Hm as (x0 & y0 & -> & _ & Hm).
  apply matches_cat_inv in Hm as (x1 & y1 & -> & _ & Hm).
  apply matches_cat_inv in Hm as (x2 & y2 & -> & _ & Hm).
  apply matches_cat_inv in Hm as (x3 & y3 & -> & _ & Hm).
  apply matches_cat_inv in Hm as (x4 & y4 & -> & H4 & _).
  apply matches_char in H4. subst x4.
  rewrite !mem_char_app. simpl. rewrite !orb_true_r. reflexivity.
Qed.

End Colon.

(** X26. A subject written after the grammar is read back part by part:
    for a type of lower-case letters, a scope without a closing
    parenthesis, and a one-line description that starts with something
    other than white space, the parse of [type(scope)!: desc] gives that
    type, scope, bang and description, the scope and the bang being there
    or not. *)
Theorem well_formed_subject_is_read_back :
  forall ctype scope bang desc,
    well_formed ctype scope desc ->
    _parse_conventional_commit (conventional_subject ctype scope bang desc)
    = Some {| type := ctype; scope := default "" scope; bang := bang;
              desc := desc |}.
Proof. exact parse_conventional_subject. Qed.

Lemma well_formed_subject_is_read_back_witness :
  _parse_conventional_commit
    (conventional_subject "feat" (Some "cli") true "add a flag")
  = Some {| type := "feat"; scope := default "" (Some "cli"); bang := true;
            desc := "add a flag" |}.
Proof.
  apply (well_formed_subject_is_read_back "feat" (Some "cli") true "add a flag").
  unfold well_formed. split; [discriminate|]. split; [reflexivity|].
  split; [intros s [= <-]; reflexivity|]. split; [discriminate|].
  split; reflexivity.
Defined.

(** X27. The list a commit with a well-formed subject is entered in, when
    it is not left out: breaking when the subject has the bang or the body
    the breaking marker, whatever the type; otherwise features for the
    type feat, fixes for fix, and other for every other type. *)
Theorem well_formed_subject_is_listed_by_its_parts :
  forall acc ctype scope bang desc body sha,
    well_formed ctype scope desc ->
    let subject := conventional_subject ctype scope bang desc in
    excluded subject = false ->
    categorize_commit acc subject body sha
    = if bang || Py.contains "BREAKING CHANGE:" body
      then breaking_append acc (entry_line subject sha)
      else if String.eqb ctype "feat"
           then features_append acc (entry_line subject sha)
           else if String.eqb ctype "fix"
                then fixes_append acc (entry_line subject sha)
                else other_append acc (entry_line subject sha).
Proof.
  intros acc ctype scope bang desc body sha Hwf subject Hex.
  unfold excluded in Hex. unfold categorize_commit. rewrite Hex.
  unfold subject. rewrite (parse_conventional_subject _ _ _ _ Hwf).
  reflexivity.
Qed.

Lemma well_formed_subject_is_listed_by_its_parts_witness :
  categorize_commit no_lists
    (conventional_subject "docs" None true "drop the old guide") "" "abc1234"
  = breaking_append no_lists
      (entry_line (conventional_subject "docs" None true "drop the old guide")
         "abc1234").
Proof.
  apply (well_formed_subject_is_listed_by_its_parts
           no_lists "docs" None true "drop the old guide" "" "abc1234").
  - unfold well_formed. split; [discriminate|]. split; [reflexivity|].
    split; [intros s [=]|]. split; [discriminate|]. split; reflexivity.
  - reflexivity.
Defined.

(** X28. A subject without a colon is never conventional: unless the
    commit is left out or its body holds the breaking marker, it is
    entered under other. *)
Theorem subject_without_colon_is_other :
  forall subject,
    free_of ":" subject ->
    conventional subject = false /\
    forall acc body sha,
      excluded subject = false ->
      Py.contains "BREAKING CHANGE:" body = false ->
      categorize_commit acc subject body sha
      = other_append acc (entry_line subject sha).
Proof.
  intros subject Hfree.
  assert (Hconv : conventional subject = false).
  { destruct (conventional subject) eqn:E; [|reflexivity].
    apply conventional_has_a_colon in E. unfold free_of in Hfree. congruence. }
  split; [exact Hconv|].
  intros acc body sha Hex Hbody. unfold excluded in Hex.
  unfold conventional in Hconv.
  unfold categorize_commit. rewrite Hex, Hbody.
  destruct (_parse_conventional_commit subject); [discriminate | reflexivity].
Qed.

Lemma subject_without_colon_is_other_witness :
  conventional "feat add a flag" = false /\
  forall acc body sha,
    excluded "feat add a flag" = false ->
    Py.contains "BREAKING CHANGE:" body = false ->
    categorize_commit acc "feat add a flag" body sha
    = other_append acc (entry_line "feat add a flag" sha).
Proof. apply (subject_without_colon_is_other "feat add a flag"). reflexivity. Defined.

(* ===================================================================== *)
(** * Where the digit limit can be met *)
(* ===================================================================== *)

Section Lengths.

Lemma length_take (n : nat) (s : string) :
  (String.length (Re.take n s) <= String.length s)%nat.
Proof.
  revert s. induction n as [|n IH]; intros [|c s]; simpl; try lia.
  specialize (IH s). lia.
Qed.

Lemma length_drop_while (p : ascii -> bool) (s : string) :
  (String.length (Py.drop_while p s) <= String.length s)%nat.
Proof.
  induction s as [|c s IH]; simpl; [lia|].
  destruct (p c); simpl; lia.
Qed.

Variable bound : nat.

Lemma star_iter_within (r : Re.re)
    (IH : forall pos s g k m,
        Re.run r pos s g k = Some m ->
        (String.length s <= bound)%nat -> groups_within bound g ->
        exists pos' s' g',
          k pos' s' g' = Some m /\
          (String.length s' <= bound)%nat /\ groups_within bound g') :
  forall fuel pos s g k m,
    star_iter (Re.run r) k fuel pos s g = Some m ->
    (String.length s <= bound)%nat -> groups_within bound g ->
    exists pos' s' g',
      k pos' s' g' = Some m /\
      (String.length s' <= bound)%nat /\ groups_within bound g'.
Proof.
  induction fuel as [|fuel IHf]; intros pos s g k m H Hs Hg.
  - exists pos, s, g. auto.
  - simpl in H.
    destruct (Re.run r pos s g _) as [m0|] eqn:E.
    + injection H as ->.
      apply IH in E as (pos' & s' & g' & Hk & Hs' & Hg'); [|assumption..].
      destruct (pos <? pos')%nat; [|discriminate].
      apply IHf in Hk; assumption.
    + exists pos, s, g. auto.
Qed.

(** What follows a pattern is handed a rest and groups that are no longer
    than the subject. *)
Lemma run_within (r : Re.re) :
  forall pos s g k m,
    Re.run r pos s g k = Some m ->
    (String.length s <= bound)%nat -> groups_within bound g ->
    exists pos' s' g',
      k pos' s' g' = Some m /\
      (String.length s' <= bound)%nat /\ groups_within bound g'.
Proof.
  induction r as [|p|r1 IH1 r2 IH2|r1 IH1 r2 IH2|r IH|name r IH| |];
    intros pos s g k m H Hs Hg.
  - exists pos, s, g. auto.
  - simpl in H. destruct s as [|c s]; [discriminate|].
    destruct (p c); [|discriminate].
    exists (S pos), s, g. simpl in Hs. split; [exact H|]. split; [lia|exact Hg].
  - rewrite run_cat in H.
    apply IH1 in H as (pos1 & s1 & g1 & H & Hs1 & Hg1); [|assumption..].
    apply IH2 in H; assumption.
  - simpl in H. destruct (Re.run r1 pos s g k) as [m0|] eqn:E.
    + injection H as ->. apply IH1 in E; assumption.
    + apply IH2 in H; assumption.
  - rewrite run_star in H.
    apply (star_iter_within r IH) in H; assumption.
  - simpl in H.
    apply IH in H as (pos' & s' & g' & H & Hs' & Hg'); [|assumption..].
    exists pos', s', ((name, Re.take (pos' - pos) s) :: g').
    split; [exact H|]. split; [exact Hs'|].
    constructor; [|exact Hg']. simpl.
    pose proof (length_take (pos' - pos) s). lia.
  - simpl in H. destruct (pos =? 0)%nat; [|discriminate].
    exists pos, s, g. auto.
  - simpl in H. exists pos, s, g.
    destruct s as [|c [|d s]]; [auto | | discriminate].
    destruct (Py.code c =? 10)%N; [auto | discriminate].
Qed.

Lemma search_from_within (r : Re.re) (s : string) :
  forall pos m,
    Re.search_from r pos s = Some m ->
    (String.length s <= bound)%nat -> groups_within bound m.
Proof.
  induction s as [|c s IH]; intros pos m H Hs; simpl in H.
  - destruct (Re.run r pos "" [] _) as [m0|] eqn:E; [|discriminate].
    injection H as ->.
    apply run_within in E as (pos' & s' & g' & [= <-] & _ & Hg');
      [exact Hg' | exact Hs | constructor].
  - destruct (Re.run r pos (String c s) [] _) as [m0|] eqn:E.
    + injection H as ->.
      apply run_within in E as (pos' & s' & g' & [= <-] & _ & Hg');
        [exact Hg' | exact Hs | constructor].
    + apply IH in H; [exact H|]. simpl in Hs. lia.
Qed.

Lemma group_within (m : Re.groups) (name v : string) :
  groups_within bound m -> Re.group m name = Some v ->
  (String.length v <= bound)%nat.
Proof.
  induction m as [|[n x] m IH]; simpl; [discriminate|].
  intros Hm. inversion Hm as [|? ? Hx Hm']; subst. simpl in Hx.
  destruct (String.eqb n name); [intros [= <-]; exact Hx | apply IH, Hm'].
Qed.

Lemma cons_first_within (c : ascii) (pieces : list string) (n : nat) :
  Forall (fun p => (String.length p <= n)%nat) pieces ->
  Forall (fun p => (String.length p <= S n)%nat) (Py.cons_first c pieces).
Proof.
  intros H. destruct pieces as [|p ps]; simpl.
  - constructor; [simpl; lia | constructor].
  - inversion H as [|? ? Hp Hps]; subst.
    constructor; [simpl; lia|].
    eapply Forall_impl; [exact Hps|]. simpl. intros; lia.
Qed.

Lemma split_go_within (sep s : string) :
  forall skip,
    Forall (fun p => (String.length p <= String.length s)%nat)
           (Py.split_go sep s skip).
Proof.
  induction s as [|c s IH]; intros skip.
  - destruct skip; simpl; repeat constructor.
  - destruct skip as [|k]; cbn [Py.split_go String.length].
    + destruct (String.prefix sep (String c s)).
      * constructor; [simpl; lia|].
        eapply Forall_impl; [apply IH|]. simpl. intros; lia.
      * apply cons_first_within, IH.
    + eapply Forall_impl; [apply IH|]. simpl. intros; lia.
Qed.

Lemma split_on_within (p : ascii -> bool) (s : string) :
  Forall (fun x => (String.length x <= String.length s)%nat) (split_on p s).
Proof.
  induction s as [|c s IH]; simpl; [repeat constructor|].
  destruct (p c).
  - constructor; [simpl; lia|].
    eapply Forall_impl; [exact IH|]. simpl. intros; lia.
  - apply cons_first_within, IH.
Qed.

End Lengths.

Section ShortTags.

Lemma bind_returns {A B : Type} (m : outcome A) (f : A -> outcome B) :
  (exists a, m = Returns a) -> (forall a, exists b, f a = Returns b) ->
  exists b, m ≫= f = Returns b.
Proof. intros (a & ->) Hf. simpl. apply Hf. Qed.

Lemma mapM_returns {A B : Type} (f : A -> outcome B) (l : list A) :
  (forall x, In x l -> exists y, f x = Returns y) ->
  exists ys, mapM f l = Returns ys.
Proof.
  induction l as [|x l IH]; intros Hf; simpl; [eauto|].
  apply bind_returns; [apply Hf; left; reflexivity|]. intros y.
  apply bind_returns; [apply IH; intros; apply Hf; right; assumption|].
  intros ys. eexists. reflexivity.
Qed.

Lemma int_digits_returns (s : string) :
  short s -> exists n, Py.int_digits s = Returns n.
Proof. intros H. rewrite (int_digits_short s H). eauto. Qed.

Lemma short_empty : short "".
Proof. unfold short. simpl. lia. Qed.

Lemma letter_returns (letter number : option string) :
  (forall v, number = Some v -> short v) ->
  exists r, _parse_letter_version letter number = Returns r.
Proof.
  intros Hn. unfold _parse_letter_version.
  destruct (is_truthy letter).
  - apply bind_returns; [|intros; eexists; reflexivity].
    destruct number as [v|]; [apply int_digits_returns, Hn; reflexivity|].
    eexists. reflexivity.
  - destruct (is_truthy number); [|eexists; reflexivity].
    apply bind_returns; [|intros; eexists; reflexivity].
    apply int_digits_returns.
    destruct number as [v|]; [apply Hn; reflexivity | apply short_empty].
Qed.

Lemma local_returns (local : option string) :
  (forall v, local = Some v -> short v) ->
  exists r, _parse_local_version local = Returns r.
Proof.
  intros Hl. unfold _parse_local_version.
  destruct local as [l|]; [|eexists; reflexivity].
  apply bind_returns; [|intros; eexists; reflexivity].
  apply mapM_returns. intros part Hin.
  destruct (isdigit part); [|eexists; reflexivity].
  apply bind_returns; [|intros; eexists; reflexivity].
  apply int_digits_returns. unfold short.
  pose proof (split_on_within (fun c => Py.mem_char c "._-") l) as Hw.
  rewrite Forall_forall in Hw.
  specialize (Hw part (proj2 (list_elem_of_In _ _) Hin)). simpl in Hw.
  specialize (Hl l eq_refl). unfold short in Hl. lia.
Qed.

(** A text of 4300 characters at most is a version or is not one:
    [Version] does not raise [ValueError] on it. *)
Lemma version_short (version : string) :
  short version ->
  Version version = Raises InvalidVersion \/
  exists v, Version version = Returns v.
Proof.
  intros Hs. unfold Version.
  destruct (Re.search _regex version) as [m|] eqn:E; [right | left; reflexivity].
  apply (search_from_within Py.int_max_str_digits) in E; [|exact Hs].
  assert (Hg : forall name v, Re.group m name = Some v -> short v)
    by (intros name v; apply group_within, E).
  apply bind_returns.
  { destruct (Re.group m "epoch") as [v|] eqn:Ge; simpl;
      [|eexists; reflexivity].
    destruct (Py.truthy v); [|eexists; reflexivity].
    apply int_digits_returns, (Hg _ _ Ge). }
  intros epoch. apply bind_returns.
  { apply mapM_returns. intros piece Hin. apply int_digits_returns.
    unfold short.
    pose proof (split_go_within "." (default "" (Re.group m "release")) 0)
      as Hw.
    rewrite Forall_forall in Hw.
    specialize (Hw piece (proj2 (list_elem_of_In _ _) Hin)). simpl in Hw.
    assert (Hr : short (default "" (Re.group m "release"))).
    { destruct (Re.group m "release") as [v|] eqn:Gr;
        [apply (Hg _ _ Gr) | apply short_empty]. }
    unfold short in Hr. lia. }
  intros release. apply bind_returns; [apply letter_returns, Hg|].
  intros pre. apply bind_returns.
  { apply letter_returns. intros v. unfold or_group.
    destruct (is_truthy (Re.group m "post_n1")); apply Hg. }
  intros post. apply bind_returns; [apply letter_returns, Hg|].
  intros dev. apply bind_returns; [apply local_returns, Hg|].
  intros local. eexists. reflexivity.
Qed.

Lemma parse_tag_short (tag : string) :
  short tag -> exists o, _parse_tag tag = Returns o.
Proof.
  intros Hs. unfold _parse_tag. cbv zeta.
  destruct (version_short (Py.lstrip_chars "v" tag)) as [-> | (v & ->)];
    [|eauto..].
  unfold short, Py.lstrip_chars in *.
  pose proof (length_drop_while (fun c => Py.mem_char c "v") tag). lia.
Qed.

End ShortTags.

(** X29. What [validate] comes to, case by case.  It reports the target as
    found exactly when the target is in the collection and its parse
    returns a version, and then gives back the target as given with the
    text of its own version and no staleness; it reports not-found when
    the target is not in the collection or its parse returns [None]; it
    ends in [ValueError], with nothing printed, when the target is in the
    collection and its parse raises.  Nothing else in the collection
    matters. *)
Theorem validate_follows_membership_and_parse :
  forall tags target,
    (found (validate tags target) = Some (JBool true) <->
     In target tags /\
     exists version, _parse_tag target = Returns (Some version)) /\
    (forall version,
        In target tags -> _parse_tag target = Returns (Some version) ->
        validate tags target
        = Returns (_output_success target (to_str version) None)) /\
    (~ In target tags \/ _parse_tag target = Returns None ->
     validate tags target
     = Returns (_output_not_found
                  ("Tag '" +:+ target +:+ "' not found in tag list."))) /\
    (forall e,
        In target tags -> _parse_tag target = Raises e ->
        e = ValueError /\ validate tags target = Raises ValueError /\
        printed (validate tags target) = None) /\
    (forall tags',
        In target tags -> In target tags' ->
        validate tags' target = validate tags target).
Proof.
  intros tags target.
  destruct (in_dec string_dec target tags) as [Hin | Hout].
  - rewrite (validate_member _ _ Hin).
    destruct (_parse_tag target) as [[v|]|e] eqn:P.
    + split; [split; [eauto | reflexivity]|].
      split; [intros version _ [= <-]; reflexivity|].
      split; [intros [Hn | [=]]; contradiction|].
      split; [intros e _ [=]|].
      intros tags' _ Hin'. rewrite (validate_member _ _ Hin'), P. reflexivity.
    + split; [split; [discriminate | intros (_ & v & [=])]|].
      split; [intros version _ [=]|].
      split; [reflexivity|].
      split; [intros e _ [=]|].
      intros tags' _ Hin'. rewrite (validate_member _ _ Hin'), P. reflexivity.
    + pose proof (parse_tag_raises _ _ P) as ->.
      split; [split; [discriminate | intros (_ & v & [=])]|].
      split; [intros version _ [=]|].
      split; [intros [Hn | [=]]; contradiction|].
      split; [intros e _ [= <-]; repeat split|].
      intros tags' _ Hin'. rewrite (validate_member _ _ Hin'), P. reflexivity.
  - rewrite (validate_stranger _ _ Hout).
    split; [split; [discriminate | intros (Hin & _); contradiction]|].
    split; [intros version Hin; contradiction|].
    split; [reflexivity|].
    split; [intros e Hin; contradiction|].
    intros tags' Hin; contradiction.
Qed.

Lemma validate_follows_membership_and_parse_witness :
  validate dev_tags_mixed_versions "v1.1.22.dev2"
  = Returns
      (_output_success "v1.1.22.dev2" (to_str (dev_release [1; 1; 22]%Z 2)) None).
Proof.
  apply (proj1 (proj2 (validate_follows_membership_and_parse
                         dev_tags_mixed_versions "v1.1.22.dev2"))).
  - simpl. auto.
  - vm_compute. reflexivity.
Defined.

(** X30. The digit limit is met by long tags only.  When no tag of the
    collection has more than 4300 characters, [discover] and [validate]
    end with a payload; and when [discover] ends in an exception, the
    exception is [ValueError] and the collection holds a tag of more than
    4300 characters whose parse raises it. *)
Theorem short_tags_never_raise :
  forall tags pattern use_git env,
    ((forall tag, In tag tags -> short tag) ->
     (exists exit,
         result_of (discover tags pattern use_git) env = Returns exit) /\
     (forall target, exists exit, validate tags target = Returns exit)) /\
    (forall e,
        result_of (discover tags pattern use_git) env = Raises e ->
        e = ValueError /\
        exists tag,
          In tag tags /\ ~ short tag /\ _parse_tag tag = Raises ValueError).
Proof.
  intros tags pattern use_git env. split.
  - intros Hshort. split.
    + assert (Hret : exists cs, _filter_by_pattern tags pattern = Returns cs).
      { apply filter_by_pattern_returns_iff. intros tag Hin.
        apply parse_tag_short, Hshort, Hin. }
      destruct Hret as ([|first rest] & E); unfold result_of.
      * rewrite (discover_none _ _ _ _ _ E). eexists. reflexivity.
      * rewrite (discover_some _ _ _ _ _ _ _ E).
        destruct use_git; eexists; reflexivity.
    + intros target.
      destruct (in_dec string_dec target tags) as [Hin | Hout].
      * rewrite (validate_member _ _ Hin).
        destruct (parse_tag_short target (Hshort _ Hin)) as ([v|] & ->);
          eexists; reflexivity.
      * rewrite (validate_stranger _ _ Hout). eexists. reflexivity.
  - intros e. unfold result_of.
    destruct (_filter_by_pattern tags pattern) as [[|first rest]|e'] eqn:E.
    + rewrite (discover_none _ _ _ _ _ E). discriminate.
    + rewrite (discover_some _ _ _ _ _ _ _ E). destruct use_git; discriminate.
    + rewrite (discover_raises _ _ _ _ _ _ E). intros [= <-].
      apply filter_by_pattern_raises in E as (-> & tag & Hin & Hp).
      split; [reflexivity|]. exists tag. split; [exact Hin|].
      split; [|exact Hp].
      intros Hs. destruct (parse_tag_short tag Hs) as (o & Ho). congruence.
Qed.

Lemma short_tags_never_raise_witness :
  (exists exit,
      result_of (discover ["v1.1.23.dev1"; "garbage"] "dev" false)
        no_repository
      = Returns exit) /\
  (forall target,
      exists exit, validate ["v1.1.23.dev1"; "garbage"] target = Returns exit).
Proof.
  apply (proj1 (short_tags_never_raise
                  ["v1.1.23.dev1"; "garbage"] "dev" false no_repository)).
  intros tag [<-|[<-|[]]]; apply Nat.leb_le; vm_compute; reflexivity.
Defined.
